(** * Who's the Spy: the room state machine of game-manager.js and server.js

    A shallow embedding of the session server.  JavaScript objects that are
    mutated in place become explicit state: a room is a record, the
    [GameManager] is a record holding the room objects by address, the
    registry maps and the pending timers.  Every [Math.random()] draw and
    every generated id is an argument of the operation that consumes it. *)

From stdpp Require Import gmap strings list pretty.
From Stdlib Require Import Ascii ZArith Lia.

#[local] Open Scope string_scope.
#[local] Open Scope list_scope.

(** ** JavaScript values used by the server *)

(** [if (s)] on a string: only the empty string is falsy. *)
Definition truthy (s : string) : bool := negb (s =? "").

(** [Math.random()]: a number in [0, 1).  The draw [below / (below + gap + 1)]
    ranges over every rational of that interval. *)
Record draw := { below : nat; gap : nat }.

(** [Math.floor(Math.random() * n)] *)
Definition random_index (r : draw) (n : nat) : nat :=
  (below r * n) / (below r + gap r + 1).

(** Plain objects used as dictionaries ([game.votes], [voteCounts]): the own
    properties in the order [Object.keys], [Object.values] and
    [Object.entries] list them, canonical array indices first in ascending
    order, then the other keys in insertion order. *)
Module JsObject.

Definition t (V : Type) := list (string * V).

Definition digit_of (c : ascii) : option N :=
  let n := N_of_ascii c in
  if ((48 <=? n) && (n <=? 57))%N then Some (n - 48)%N else None.

Fixpoint digits_value (acc : N) (s : string) : option N :=
  match s with
  | EmptyString => Some acc
  | String c r =>
      match digit_of c with
      | Some d => digits_value (10 * acc + d)%N r
      | None => None
      end
  end.

(** A canonical numeric string below 2^32 - 1. *)
Definition array_index (k : string) : option N :=
  match k with
  | EmptyString => None
  | String c r =>
      if (N_of_ascii c =? 48)%N && negb (r =? "") then None
      else match digits_value 0 k with
           | Some n => if (n <? 4294967295)%N then Some n else None
           | None => None
           end
  end.

Section Operations.
Context {V : Type}.

(** Own-property lookup, [Object.hasOwn] *)
Fixpoint get (k : string) (o : t V) : option V :=
  match o with
  | [] => None
  | (k', v) :: r => if k' =? k then Some v else get k r
  end.

Definition has (k : string) (o : t V) : bool :=
  match get k o with Some _ => true | None => false end.

Fixpoint replace (k : string) (v : V) (o : t V) : t V :=
  match o with
  | [] => []
  | (k', v') :: r =>
      if k' =? k then (k, v) :: r else (k', v') :: replace k v r
  end.

Fixpoint place (n : N) (k : string) (v : V) (o : t V) : t V :=
  match o with
  | [] => [(k, v)]
  | (k', v') :: r =>
      match array_index k' with
      | Some n' => if (n' <? n)%N then (k', v') :: place n k v r
                   else (k, v) :: o
      | None => (k, v) :: o
      end
  end.

(** [o[k] = v] for a primitive [v].  Writing a primitive to [__proto__]
    goes to the accessor inherited from [Object.prototype], which
    ignores it. *)
Definition set (k : string) (v : V) (o : t V) : t V :=
  if k =? "__proto__" then o
  else if has k o then replace k v o
  else match array_index k with
       | Some n => place n k v o
       | None => o ++ [(k, v)]
       end.

Definition keys (o : t V) : list string := List.map fst o.
Definition values (o : t V) : list V := List.map snd o.
End Operations.

(** Names a fresh [{}] inherits from [Object.prototype] (Node 18). *)
Definition prototype_names : list string :=
  [ "constructor"; "__defineGetter__"; "__defineSetter__";
    "hasOwnProperty"; "__lookupGetter__"; "__lookupSetter__";
    "isPrototypeOf"; "propertyIsEnumerable"; "toString"; "valueOf";
    "__proto__"; "toLocaleString" ].

Definition inherited (k : string) : bool :=
  existsb (String.eqb k) prototype_names.

End JsObject.

(** ** Data model *)

Module Role.
Inductive t := civilian | imposter.
End Role.

Module PlayerStatus.
Inductive t := active | waiting | disconnected | eliminated.

Definition to_string (s : t) : string :=
  match s with
  | active => "active" | waiting => "waiting"
  | disconnected => "disconnected" | eliminated => "eliminated"
  end.
End PlayerStatus.

Module RoomStatus.
Inductive t := lobby | playing | ended.
End RoomStatus.

Module Phase.
Inductive t := lobby | description | voting | results | ended.
End Phase.

Module Winner.
Inductive t := civilians | imposter.

Definition to_string (w : t) : string :=
  match w with civilians => "civilians" | imposter => "imposter" end.
End Winner.

(** [role] is [null] before round 1 and for spectators: [None]. *)
Definition role_text (r : option Role.t) : string :=
  match r with
  | Some Role.civilian => "civilian"
  | Some Role.imposter => "imposter"
  | None => "null"
  end.

Module Player.
Record t := mk {
  id : string;
  name : string;
  role : option Role.t;
  word : option string;
  status : PlayerStatus.t;
  points : nat;
  hasDescribed : bool;
  hasVoted : bool;
  isCreator : bool
}.

Definition set_name (v : string) (p : t) : t :=
  mk (id p) v (role p) (word p) (status p) (points p)
     (hasDescribed p) (hasVoted p) (isCreator p).
Definition set_role (v : option Role.t) (p : t) : t :=
  mk (id p) (name p) v (word p) (status p) (points p)
     (hasDescribed p) (hasVoted p) (isCreator p).
Definition set_word (v : option string) (p : t) : t :=
  mk (id p) (name p) (role p) v (status p) (points p)
     (hasDescribed p) (hasVoted p) (isCreator p).
Definition set_status (v : PlayerStatus.t) (p : t) : t :=
  mk (id p) (name p) (role p) (word p) v (points p)
     (hasDescribed p) (hasVoted p) (isCreator p).
Definition set_points (v : nat) (p : t) : t :=
  mk (id p) (name p) (role p) (word p) (status p) v
     (hasDescribed p) (hasVoted p) (isCreator p).
Definition set_hasDescribed (v : bool) (p : t) : t :=
  mk (id p) (name p) (role p) (word p) (status p) (points p)
     v (hasVoted p) (isCreator p).
Definition set_hasVoted (v : bool) (p : t) : t :=
  mk (id p) (name p) (role p) (word p) (status p) (points p)
     (hasDescribed p) v (isCreator p).
Definition set_isCreator (v : bool) (p : t) : t :=
  mk (id p) (name p) (role p) (word p) (status p) (points p)
     (hasDescribed p) (hasVoted p) v.

(** [p.status === 'active' || p.status === 'disconnected'] *)
Definition capable (p : t) : bool :=
  match status p with
  | PlayerStatus.active | PlayerStatus.disconnected => true
  | _ => false
  end.

(** [p.status === 'active' || p.status === 'waiting' ||
     p.status === 'disconnected'] *)
Definition participating (p : t) : bool :=
  match status p with
  | PlayerStatus.eliminated => false
  | _ => true
  end.

Definition is_disconnected (p : t) : bool :=
  match status p with PlayerStatus.disconnected => true | _ => false end.

Definition is_active (p : t) : bool :=
  match status p with PlayerStatus.active => true | _ => false end.

Definition has_role (r : Role.t) (p : t) : bool :=
  match role p, r with
  | Some Role.civilian, Role.civilian => true
  | Some Role.imposter, Role.imposter => true
  | _, _ => false
  end.
End Player.

Module Chat.
Inductive kind := system | player | description.

(** [timestamp: new Date()] is wall-clock time and is left out. *)
Record t := mk { sender : string; message : string; type : kind }.
End Chat.

Module WordPair.
Record t := mk { civilian : string; imposter : string }.
End WordPair.

Module RoundResult.
(** The summary built by the grace timer has no [eliminated*] fields;
    they read as absent ([None]) there. *)
Record t := mk {
  eliminatedId : option string;
  eliminatedName : option string;
  eliminatedRole : option Role.t;
  winner : option Winner.t;
  imposterName : string;
  civilianWord : string;
  imposterWord : string
}.
End RoundResult.

Module Game.
(** [descriptionEndTime] and [votingEndTime] are created [null] and never
    written; they are left out. *)
Record t := mk {
  gameCode : string;
  creatorId : string;
  status : RoomStatus.t;
  currentRound : nat;
  maxRounds : nat;
  players : list Player.t;
  turnOrder : list string;
  currentTurnIndex : Z;
  chatHistory : list Chat.t;
  votes : JsObject.t string;
  gamePhase : Phase.t;
  wordPair : option WordPair.t;
  imposterId : option string;
  lastRoundResult : option RoundResult.t
}.

Definition set_creatorId v g :=
  mk (gameCode g) v (status g) (currentRound g) (maxRounds g) (players g)
     (turnOrder g) (currentTurnIndex g) (chatHistory g) (votes g)
     (gamePhase g) (wordPair g) (imposterId g) (lastRoundResult g).
Definition set_status v g :=
  mk (gameCode g) (creatorId g) v (currentRound g) (maxRounds g) (players g)
     (turnOrder g) (currentTurnIndex g) (chatHistory g) (votes g)
     (gamePhase g) (wordPair g) (imposterId g) (lastRoundResult g).
Definition set_currentRound v g :=
  mk (gameCode g) (creatorId g) (status g) v (maxRounds g) (players g)
     (turnOrder g) (currentTurnIndex g) (chatHistory g) (votes g)
     (gamePhase g) (wordPair g) (imposterId g) (lastRoundResult g).
Definition set_players v g :=
  mk (gameCode g) (creatorId g) (status g) (currentRound g) (maxRounds g) v
     (turnOrder g) (currentTurnIndex g) (chatHistory g) (votes g)
     (gamePhase g) (wordPair g) (imposterId g) (lastRoundResult g).
Definition set_turnOrder v g :=
  mk (gameCode g) (creatorId g) (status g) (currentRound g) (maxRounds g)
     (players g) v (currentTurnIndex g) (chatHistory g) (votes g)
     (gamePhase g) (wordPair g) (imposterId g) (lastRoundResult g).
Definition set_currentTurnIndex v g :=
  mk (gameCode g) (creatorId g) (status g) (currentRound g) (maxRounds g)
     (players g) (turnOrder g) v (chatHistory g) (votes g)
     (gamePhase g) (wordPair g) (imposterId g) (lastRoundResult g).
Definition set_chatHistory v g :=
  mk (gameCode g) (creatorId g) (status g) (currentRound g) (maxRounds g)
     (players g) (turnOrder g) (currentTurnIndex g) v (votes g)
     (gamePhase g) (wordPair g) (imposterId g) (lastRoundResult g).
Definition set_votes v g :=
  mk (gameCode g) (creatorId g) (status g) (currentRound g) (maxRounds g)
     (players g) (turnOrder g) (currentTurnIndex g) (chatHistory g) v
     (gamePhase g) (wordPair g) (imposterId g) (lastRoundResult g).
Definition set_gamePhase v g :=
  mk (gameCode g) (creatorId g) (status g) (currentRound g) (maxRounds g)
     (players g) (turnOrder g) (currentTurnIndex g) (chatHistory g)
     (votes g) v (wordPair g) (imposterId g) (lastRoundResult g).
Definition set_wordPair v g :=
  mk (gameCode g) (creatorId g) (status g) (currentRound g) (maxRounds g)
     (players g) (turnOrder g) (currentTurnIndex g) (chatHistory g)
     (votes g) (gamePhase g) v (imposterId g) (lastRoundResult g).
Definition set_imposterId v g :=
  mk (gameCode g) (creatorId g) (status g) (currentRound g) (maxRounds g)
     (players g) (turnOrder g) (currentTurnIndex g) (chatHistory g)
     (votes g) (gamePhase g) (wordPair g) v (lastRoundResult g).
Definition set_lastRoundResult v g :=
  mk (gameCode g) (creatorId g) (status g) (currentRound g) (maxRounds g)
     (players g) (turnOrder g) (currentTurnIndex g) (chatHistory g)
     (votes g) (gamePhase g) (wordPair g) (imposterId g) v.
End Game.

(** ** Room operations of [GameManager]

    Each function takes the room object found by [this.games.get(gameCode)]
    and returns the room as the method leaves it, together with what the
    method returns.  A player id argument is [None] when the caller passes
    [null] (a connection without a session). *)

(** The [{ error: ... }] results, under the names of the error taxonomy.
    [RoomNotFound] is 'Game not found' / 'Game code does not exist',
    [WrongPhase] is 'Not description phase' / 'Not in voting phase',
    [InvalidJoinState] is 'Cannot join game in current state'. *)
Inductive Failure :=
| RoomNotFound | PlayerNotFound | NotHost | NotEnoughPlayers | WrongPhase
| NotYourTurn | AlreadyDescribed | AlreadyVoted | CannotVote | EmptyName
| InvalidJoinState.

Inductive Reply :=
| Error (f : Failure)
| Joined (playerId : string)
| RoundStarted
| TurnUpdate
| VoteUpdate
| RoundResults (winner : option Winner.t)
| Renamed (oldName newName : string).

(** A call either returns or throws (a [TypeError]); the room keeps the
    mutations made before the throw. *)
Inductive Outcome (R : Type) :=
| Returned (g : Game.t) (r : R)
| Thrown (g : Game.t).
Arguments Returned {R} g r.
Arguments Thrown {R} g.

Definition room_of {R} (o : Outcome R) : Game.t :=
  match o with Returned g _ => g | Thrown g => g end.

Module Room.

(** [players.find(p => p.id === playerId)] *)
Definition find_player (playerId : option string) (ps : list Player.t)
  : option Player.t :=
  match playerId with
  | Some i => List.find (fun p => Player.id p =? i) ps
  | None => None
  end.

(** Mutation of the object returned by [find_player]: the first player
    with that id. *)
Fixpoint update_player (i : string) (f : Player.t -> Player.t)
  (ps : list Player.t) : list Player.t :=
  match ps with
  | [] => []
  | p :: r => if Player.id p =? i then f p :: r
              else p :: update_player i f r
  end.

(** [players.splice(players.indexOf(p), 1)] for the [p] found by id *)
Fixpoint remove_player (i : string) (ps : list Player.t) : list Player.t :=
  match ps with
  | [] => []
  | p :: r => if Player.id p =? i then r else p :: remove_player i r
  end.

Definition addChatMessage (g : Game.t) (sender text : string)
  (type : Chat.kind) : Game.t :=
  Game.set_chatHistory (Game.chatHistory g ++ [Chat.mk sender text type]) g.

Definition addSystemMessage (g : Game.t) (text : string) : Game.t :=
  addChatMessage g "System" text Chat.system.

(** The scan of [advanceTurn]'s while loop over [turnOrder] from index [i]. *)
Fixpoint scan_turn (ps : list Player.t) (rest : list string) (i : nat)
  : option nat :=
  match rest with
  | [] => None
  | nextPlayerId :: r =>
      match find_player (Some nextPlayerId) ps with
      | Some p => if Player.capable p then Some i else scan_turn ps r (S i)
      | None => scan_turn ps r (S i)
      end
  end.

(** [advanceTurn]: a negative index reads [undefined] from [turnOrder] and
    matches no player, so the scan effectively starts at 0. *)
Definition advanceTurn (g : Game.t) : Game.t :=
  let start := Z.to_nat (Game.currentTurnIndex g + 1) in
  match scan_turn (Game.players g) (drop start (Game.turnOrder g)) start with
  | Some i => Game.set_currentTurnIndex (Z.of_nat i) g
  | None =>
      addSystemMessage
        (Game.set_currentTurnIndex (-1) (Game.set_gamePhase Phase.voting g))
        "Voting phase started!"
  end.

(** What one call of [startRound] draws: [getRandomPair()] (word-pairs.js),
    the imposter draw, and the draw made at iteration [i] of the shuffle. *)
Record Entropy := {
  pair : WordPair.t;
  imposterDraw : draw;
  shuffleDraws : nat -> draw
}.

(** [[a[i], a[j]] = [a[j], a[i]]] *)
Definition swap {A} (i j : nat) (l : list A) : list A :=
  match l !! i, l !! j with
  | Some a, Some b => <[j := a]> (<[i := b]> l)
  | _, _ => l
  end.

(** Fisher-Yates, [for (let i = length - 1; i > 0; i--)] *)
Fixpoint shuffle_from {A} (draws : nat -> draw) (i : nat) (l : list A)
  : list A :=
  match i with
  | 0 => l
  | S i' => shuffle_from draws i' (swap i (random_index (draws i) (i + 1)) l)
  end.

Definition shuffle {A} (draws : nat -> draw) (l : list A) : list A :=
  shuffle_from draws (length l - 1) l.

(** The body of the round-1 [forEach] for one participating player. *)
Definition deal (pr : WordPair.t) (isImposter : bool) (p : Player.t)
  : Player.t :=
  Player.mk (Player.id p) (Player.name p)
    (Some (if isImposter then Role.imposter else Role.civilian))
    (Some (if isImposter then WordPair.imposter pr else WordPair.civilian pr))
    PlayerStatus.active (Player.points p) false false (Player.isCreator p).

(** The two [activePlayers.forEach] passes: [index] counts the players
    already met that passed the filter; the others are left as they are. *)
Fixpoint assign_roles (pr : WordPair.t) (imposterIndex index : nat)
  (ps : list Player.t) : list Player.t :=
  match ps with
  | [] => []
  | p :: r =>
      if Player.participating p
      then deal pr (index =? imposterIndex)%nat p
           :: assign_roles pr imposterIndex (S index) r
      else p :: assign_roles pr imposterIndex index r
  end.

Definition reset_flags (p : Player.t) : Player.t :=
  Player.set_hasVoted false (Player.set_hasDescribed false p).

(** The block of [startRound] under [if (game.currentRound === 1)]. *)
Definition dealRoles (g : Game.t) (e : Entropy) : Game.t :=
  let activePlayers := List.filter Player.participating (Game.players g) in
  let imposterIndex := random_index (imposterDraw e) (length activePlayers) in
  let g := Game.set_wordPair (Some (pair e)) g in
  let g := Game.set_players
             (assign_roles (pair e) imposterIndex 0 (Game.players g)) g in
  match activePlayers !! imposterIndex with
  | Some p => Game.set_imposterId (Some (Player.id p)) g
  | None => g
  end.

(** The part of [startRound] after that block, up to
    [game.currentTurnIndex = -1]. *)
Definition resetRound (g : Game.t) (e : Entropy) : Game.t :=
  let g := Game.set_players (List.map reset_flags (Game.players g)) g in
  let g := Game.set_lastRoundResult None (Game.set_votes [] g) in
  let capable := List.filter Player.capable (Game.players g) in
  let g := Game.set_turnOrder
             (List.map Player.id (shuffle (shuffleDraws e) capable)) g in
  Game.set_currentTurnIndex (-1) g.

(** [startRound] up to its call of [advanceTurn]. *)
Definition prepareRound (g : Game.t) (e : Entropy) : Game.t :=
  let g := Game.set_gamePhase Phase.description
             (Game.set_currentRound (S (Game.currentRound g)) g) in
  let g := if (Game.currentRound g =? 1)%nat then dealRoles g e else g in
  resetRound g e.

Definition startRound (g : Game.t) (e : Entropy) : Game.t :=
  let g := advanceTurn (prepareRound g e) in
  addSystemMessage g
    ("Round " +:+ pretty (Game.currentRound g) +:+ " started!").

Definition startGame (g : Game.t) (playerId : option string) (e : Entropy)
  : Game.t * Reply :=
  if negb (bool_decide (Some (Game.creatorId g) = playerId))
  then (g, Error NotHost)
  else
    let g := Game.set_players
               (List.filter (fun p => negb (Player.is_disconnected p))
                  (Game.players g)) g in
    if (length (Game.players g) <? 3)%nat then (g, Error NotEnoughPlayers)
    else
      let g := Game.set_chatHistory []
                 (Game.set_currentRound 0
                    (Game.set_status RoomStatus.playing g)) in
      (startRound g e, RoundStarted).

(** [turnOrder[currentTurnIndex]], [undefined] out of range *)
Definition turn_at (g : Game.t) : option string :=
  if (Game.currentTurnIndex g <? 0)%Z then None
  else Game.turnOrder g !! Z.to_nat (Game.currentTurnIndex g).

(** [if (player.status === 'disconnected') player.status = 'active'] *)
Definition auto_reconnect (p : Player.t) : Player.t :=
  if Player.is_disconnected p then Player.set_status PlayerStatus.active p
  else p.

Definition phase_is (ph : Phase.t) (g : Game.t) : bool :=
  match Game.gamePhase g, ph with
  | Phase.lobby, Phase.lobby | Phase.description, Phase.description
  | Phase.voting, Phase.voting | Phase.results, Phase.results
  | Phase.ended, Phase.ended => true
  | _, _ => false
  end.

Definition submitDescription (g : Game.t) (playerId : option string)
  (description : string) : Game.t * Reply :=
  match find_player playerId (Game.players g) with
  | None => (g, Error PlayerNotFound)
  | Some player =>
      let i := Player.id player in
      let g := Game.set_players
                 (update_player i auto_reconnect (Game.players g)) g in
      if negb (phase_is Phase.description g) then (g, Error WrongPhase)
      else if negb (bool_decide (turn_at g = Some i))
      then (g, Error NotYourTurn)
      else if Player.hasDescribed player then (g, Error AlreadyDescribed)
      else
        let g := Game.set_players
                   (update_player i (Player.set_hasDescribed true)
                      (Game.players g)) g in
        let g := addChatMessage g (Player.name player) description
                   Chat.description in
        (advanceTurn g, TurnUpdate)
  end.

(** *** Vote resolution *)

(** A value stored in [voteCounts]: a number, or the string that
    [(voteCounts[id] || 0) + 1] produces when [voteCounts[id]] reads a
    function inherited from [Object.prototype]. *)
Inductive cell := Count (n : nat) | Text.

(** [voteCounts[id] = (voteCounts[id] || 0) + 1] *)
Definition bump (voteCounts : JsObject.t cell) (id : string)
  : JsObject.t cell :=
  match JsObject.get id voteCounts with
  | Some (Count n) => JsObject.set id (Count (n + 1)) voteCounts
  | Some Text => JsObject.set id Text voteCounts
  | None =>
      if JsObject.inherited id then JsObject.set id Text voteCounts
      else JsObject.set id (Count 1) voteCounts
  end.

Definition tally (votes : JsObject.t string) : JsObject.t cell :=
  fold_left bump (JsObject.values votes) [].

(** One iteration of the loop over [Object.entries(voteCounts)]; a string
    compares false with a number under both [>] and [===]. *)
Definition plurality_step (acc : nat * list string) (entry : string * cell)
  : nat * list string :=
  let '(max, candidates) := acc in
  match snd entry with
  | Count c =>
      if (max <? c)%nat then (c, [fst entry])
      else if (c =? max)%nat then (max, candidates ++ [fst entry])
      else acc
  | Text => acc
  end.

Definition plurality (voteCounts : JsObject.t cell) : nat * list string :=
  fold_left plurality_step voteCounts (0, []).

Definition candidates (g : Game.t) : list string :=
  snd (plurality (tally (Game.votes g))).

(** The per-round award of an inconclusive round. *)
Definition award (p : Player.t) : Player.t :=
  if Player.capable p
  then Player.set_points
         (Player.points p
          + if Player.has_role Role.imposter p then 15 else 10) p
  else p.

Definition wins_bonus (winner : Winner.t) (p : Player.t) : bool :=
  match winner with
  | Winner.civilians => Player.has_role Role.civilian p
  | Winner.imposter => Player.has_role Role.imposter p
  end.

Definition add_bonus (winner : Winner.t) (p : Player.t) : Player.t :=
  if wins_bonus winner p
  then Player.set_points
         (Player.points p
          + match winner with
            | Winner.civilians => 50
            | Winner.imposter => 100
            end)
         p
  else p.

Definition word_or_unknown (g : Game.t) (f : WordPair.t -> string) : string :=
  match Game.wordPair g with Some wp => f wp | None => "?" end.

(** The elimination branch: the room after it, [elimId] and [winner]. *)
Definition eliminate (g : Game.t)
  : Game.t * option string * option Winner.t :=
  match candidates g with
  | [votedTarget] =>
      if votedTarget =? "none"
      then (addSystemMessage g "Vote for 'None' won! No one eliminated.",
            None, None)
      else
        match find_player (Some votedTarget) (Game.players g) with
        | Some p =>
            let g := Game.set_players
                       (update_player votedTarget
                          (Player.set_status PlayerStatus.eliminated)
                          (Game.players g)) g in
            let g := addSystemMessage g
                       (Player.name p +:+ " was eliminated! Role: "
                        +:+ role_text (Player.role p)) in
            (g, Some votedTarget,
             if Player.has_role Role.imposter p then Some Winner.civilians
             else None)
        | None => (g, Some votedTarget, None)
        end
  | _ => (addSystemMessage g "Tie vote! No one eliminated.", None, None)
  end.

(** The re-check made when nobody has won through the elimination. *)
Definition settle (g : Game.t) (winner : option Winner.t)
  : Game.t * option Winner.t :=
  match winner with
  | Some w => (g, Some w)
  | None =>
      let potentialCivs :=
        List.filter
          (fun p => Player.has_role Role.civilian p && Player.capable p)
          (Game.players g) in
      if (length potentialCivs <=? 1)%nat then (g, Some Winner.imposter)
      else (Game.set_players (List.map award (Game.players g)) g, None)
  end.

(** [elimId ? game.players.find(p => p.id === elimId) : null]; [None] when
    the lookup is made and finds nobody, so that reading [.name] throws. *)
Definition eliminated_player (g : Game.t) (elimId : option string)
  : option (option Player.t) :=
  match elimId with
  | Some i =>
      if truthy i then
        match find_player (Some i) (Game.players g) with
        | Some p => Some (Some p)
        | None => None
        end
      else Some None
  | None => Some None
  end.

Definition conclude (g : Game.t) (winner : option Winner.t) : Game.t :=
  match winner with
  | Some w =>
      let g := Game.set_status RoomStatus.ended
                 (Game.set_gamePhase Phase.ended g) in
      let g := Game.set_players (List.map (add_bonus w) (Game.players g)) g in
      addSystemMessage g ("Game Over! " +:+ Winner.to_string w +:+ " win!")
  | None => g
  end.

Definition processVotingResults (g : Game.t) : Outcome Reply :=
  let g := Game.set_gamePhase Phase.results g in
  let '(g, elimId, winner) := eliminate g in
  let imposter := List.find (Player.has_role Role.imposter) (Game.players g) in
  let '(g, winner) := settle g winner in
  match eliminated_player g elimId with
  | None => Thrown g
  | Some elim =>
      let result :=
        RoundResult.mk elimId
          (Player.name <$> elim)
          (elim ≫= Player.role)
          winner
          (match imposter with Some p => Player.name p | None => "Unknown" end)
          (word_or_unknown g WordPair.civilian)
          (word_or_unknown g WordPair.imposter) in
      let g := Game.set_lastRoundResult (Some result) g in
      Returned (conclude g winner) (RoundResults winner)
  end.

(** [players.filter(p => p.status === 'active' ||
     p.status === 'disconnected').length] *)
Definition activeCount (g : Game.t) : nat :=
  length (List.filter Player.capable (Game.players g)).

Definition submitVote (g : Game.t) (voterId : option string)
  (candidateId : string) : Outcome Reply :=
  if negb (phase_is Phase.voting g) then Returned g (Error WrongPhase)
  else
    match find_player voterId (Game.players g) with
    | None => Returned g (Error PlayerNotFound)
    | Some voter =>
        let i := Player.id voter in
        let g := Game.set_players
                   (update_player i auto_reconnect (Game.players g)) g in
        if negb (Player.is_active (auto_reconnect voter))
        then Returned g (Error CannotVote)
        else if Player.hasVoted voter then Returned g (Error AlreadyVoted)
        else
          let g := Game.set_votes
                     (JsObject.set i candidateId (Game.votes g)) g in
          let g := Game.set_players
                     (update_player i (Player.set_hasVoted true)
                        (Game.players g)) g in
          if (activeCount g <=? length (JsObject.keys (Game.votes g)))%nat
          then processVotingResults g
          else Returned g VoteUpdate
    end.

Definition rematch (p : Player.t) : Player.t :=
  Player.mk (Player.id p) (Player.name p) None None PlayerStatus.active
    (Player.points p) false false (Player.isCreator p).

Definition startNewGame (g : Game.t) (playerId : option string) (e : Entropy)
  : Game.t * Reply :=
  let g := Game.set_chatHistory []
             (Game.set_currentRound 0
                (Game.set_status RoomStatus.playing g)) in
  let g := Game.set_players (List.map rematch (Game.players g)) g in
  (startRound g e, RoundStarted).

(** *** Names *)

(** [String.prototype.trim] on the ASCII white space characters. *)
Definition is_space (c : ascii) : bool :=
  let n := nat_of_ascii c in
  ((n =? 32) || ((9 <=? n) && (n <=? 13)))%nat.

Fixpoint trim_start (s : string) : string :=
  match s with
  | EmptyString => EmptyString
  | String c r => if is_space c then trim_start r else s
  end.

Fixpoint trim_end (s : string) : string :=
  match s with
  | EmptyString => EmptyString
  | String c r =>
      let r' := trim_end r in
      if is_space c && (r' =? "") then "" else String c r'
  end.

Definition trim (s : string) : string := trim_end (trim_start s).

(** The renaming loop
    [while (taken(name)) { name = `${base} (${counter})`; counter++; }].
    It is entered with [counter = 1]; [fuel] bounds the number of tests. *)
Fixpoint dedup_loop (taken : string -> bool) (base : string)
  (fuel counter : nat) (current : string) : string :=
  match fuel with
  | 0 => current
  | S fuel' =>
      if taken current
      then dedup_loop taken base fuel' (S counter)
             (base +:+ " (" +:+ pretty counter +:+ ")")
      else current
  end.

(** Among [base], [base (1)], ..., [base (n)] one name is free when at
    most [n] names are taken: [S (length players)] tests are enough. *)
Definition dedup_name (taken : string -> bool) (base : string)
  (ps : list Player.t) : string :=
  dedup_loop taken base (S (length ps)) 1 base.

Definition updatePlayerName (g : Game.t) (playerId : option string)
  (newName : string) : Game.t * Reply :=
  match find_player playerId (Game.players g) with
  | None => (g, Error PlayerNotFound)
  | Some player =>
      if negb (truthy newName) || (String.length (trim newName) =? 0)%nat
      then (g, Error EmptyName)
      else
        let i := Player.id player in
        let newName := String.substring 0 15 (trim newName) in
        let finalName :=
          dedup_name
            (fun n =>
               existsb
                 (fun p => negb (Player.id p =? i) && (Player.name p =? n))
                 (Game.players g))
            newName (Game.players g) in
        let oldName := Player.name player in
        let g := Game.set_players
                   (update_player i (Player.set_name finalName)
                      (Game.players g)) g in
        let g := addSystemMessage g
                   (oldName +:+ " changed their name to " +:+ finalName) in
        (g, Renamed oldName finalName)
  end.

(** *** Joining and leaving *)

(** The status given back to a reconnecting player. *)
Definition restored_status (g : Game.t) (p : Player.t) : PlayerStatus.t :=
  match Game.status g with
  | RoomStatus.lobby | RoomStatus.ended => PlayerStatus.active
  | RoomStatus.playing =>
      match Player.role p with
      | Some _ => PlayerStatus.active
      | None => PlayerStatus.waiting
      end
  end.

Definition reconnect (g : Game.t) (p : Player.t) : Player.t :=
  if Player.is_disconnected p
  then Player.set_status (restored_status g p) p
  else p.

(** The player a join reconnects to: [previousPlayerId] is truthy, names a
    player, and that player's stored name is [playerName]. *)
Definition reconnecting (g : Game.t) (playerName : string)
  (previousPlayerId : option string) : option Player.t :=
  match previousPlayerId with
  | Some prev =>
      if truthy prev then
        match find_player (Some prev) (Game.players g) with
        | Some existingPlayer =>
            if Player.name existingPlayer =? playerName
            then Some existingPlayer else None
        | None => None
        end
      else None
  | None => None
  end.

(** [game.status !== 'lobby' && game.status !== 'playing' &&
     game.status !== 'ended'] *)
Definition joinable (g : Game.t) : bool :=
  match Game.status g with
  | RoomStatus.lobby | RoomStatus.playing | RoomStatus.ended => true
  end.

(** The room part of [joinGame]; [playerId] is what [generateId()] returns
    when the new-player branch calls it. *)
Definition joinGame (g : Game.t) (playerName : string)
  (previousPlayerId : option string) (playerId : string) : Game.t * Reply :=
  match reconnecting g playerName previousPlayerId with
  | Some existingPlayer =>
      let prev := Player.id existingPlayer in
      (Game.set_players
         (update_player prev (reconnect g) (Game.players g)) g,
       Joined prev)
  | None =>
      if negb (joinable g) then (g, Error InvalidJoinState)
      else
        let status :=
          match Game.status g with
          | RoomStatus.lobby | RoomStatus.ended => PlayerStatus.active
          | RoomStatus.playing => PlayerStatus.waiting
          end in
        let isCreator := (length (Game.players g) =? 0)%nat in
        let g := if isCreator then Game.set_creatorId playerId g else g in
        let newName :=
          dedup_name
            (fun n => existsb (fun p => Player.name p =? n) (Game.players g))
            playerName (Game.players g) in
        let newPlayer :=
          Player.mk playerId newName None None status 0 false false isCreator in
        let g := Game.set_players (Game.players g ++ [newPlayer]) g in
        let g := addSystemMessage g
                   (newName +:+ " joined as "
                    +:+ PlayerStatus.to_string status) in
        (g, Joined playerId)
  end.

(** [createGame]: the room object it builds. *)
Definition createGame (gameCode playerId creatorName : string) : Game.t :=
  Game.mk gameCode playerId RoomStatus.lobby 0 5
    [Player.mk playerId creatorName None None PlayerStatus.active 0
       false false true]
    [] 0 [] [] Phase.lobby None None None.

(** [leaveGame]: [player.status = 'disconnected'], in both branches. *)
Definition mark_disconnected (g : Game.t) (playerId : string) : Game.t :=
  Game.set_players
    (update_player playerId (Player.set_status PlayerStatus.disconnected)
       (Game.players g)) g.

(** [game.players.some(p => p.status !== 'disconnected')] *)
Definition hasConnectedPlayers (g : Game.t) : bool :=
  existsb (fun p => negb (Player.is_disconnected p)) (Game.players g).

(** *** Grace timers *)

(** The callback scheduled by the lobby branch of [leaveGame], run on the
    room found under the code when it fires. *)
Definition lobbyGraceExpired (g : Game.t) (playerId : string) : Game.t :=
  match find_player (Some playerId) (Game.players g) with
  | Some p =>
      if Player.is_disconnected p then
        let g := Game.set_players
                   (remove_player playerId (Game.players g)) g in
        let g := addSystemMessage g (Player.name p +:+ " left the lobby") in
        if Player.isCreator p then
          match Game.players g with
          | first :: rest =>
              let g := Game.set_players
                         (Player.set_isCreator true first :: rest) g in
              let g := Game.set_creatorId (Player.id first) g in
              addSystemMessage g (Player.name first +:+ " is now the host")
          | [] => g
          end
        else g
      else g
  | None => g
  end.

Definition grace_result (g : Game.t) (winner : Winner.t)
  (imposterName : string) : RoundResult.t :=
  RoundResult.mk None None None (Some winner) imposterName
    (word_or_unknown g WordPair.civilian)
    (word_or_unknown g WordPair.imposter).

(** Step 3 of the in-game callback: the win conditions. *)
Definition grace_win_check (g : Game.t) (p : Player.t) : Game.t :=
  match Player.role p with
  | Some Role.imposter =>
      let g := Game.set_status RoomStatus.ended
                 (Game.set_gamePhase Phase.ended g) in
      let g := Game.set_lastRoundResult
                 (Some (grace_result g Winner.civilians
                          (Player.name p +:+ " (Disconnected)"))) g in
      addSystemMessage g "Imposter disconnected! Civilians win!"
  | Some Role.civilian =>
      let potentialCivs :=
        List.filter
          (fun pl => Player.has_role Role.civilian pl && Player.capable pl)
          (Game.players g) in
      if (length potentialCivs <=? 1)%nat then
        let g := Game.set_status RoomStatus.ended
                   (Game.set_gamePhase Phase.ended g) in
        let imp := List.find (Player.has_role Role.imposter) (Game.players g) in
        let g := Game.set_lastRoundResult
                   (Some (grace_result g Winner.imposter
                            (match imp with
                             | Some i => Player.name i
                             | None => "Unknown"
                             end))) g in
        addSystemMessage g "Not enough civilians! Imposter wins!"
      else g
  | None => g
  end.

(** The callback scheduled by the in-game branch of [leaveGame]. *)
Definition gameGraceExpired (g : Game.t) (playerId : string) : Outcome unit :=
  match find_player (Some playerId) (Game.players g) with
  | Some p =>
      if Player.is_disconnected p then
        let g := addSystemMessage g (Player.name p +:+ " disconnected") in
        match Game.status g with
        | RoomStatus.playing =>
            let g :=
              if phase_is Phase.description g
                 && bool_decide (turn_at g = Some playerId)
              then advanceTurn
                     (addSystemMessage g
                        ("Skipping " +:+ Player.name p +:+ "'s turn..."))
              else g in
            if phase_is Phase.voting g
               && (activeCount g <=? length (JsObject.keys (Game.votes g)))%nat
               && (0 <? activeCount g)%nat
            then
              match processVotingResults g with
              | Returned g _ => Returned (grace_win_check g p) ()
              | Thrown g => Thrown g
              end
            else Returned (grace_win_check g p) ()
        | _ => Returned g ()
        end
      else Returned g ()
  | None => Returned g ()
  end.

End Room.

(** ** The [GameManager] object

    Room objects live in [rooms], addressed by position; [games] is the
    [Map] from code to room object, [playerSessions] the [Map] from socket
    id to session, [deletionTimers] the codes with a pending deletion
    timeout.  [timers] holds the pending timeouts that nothing can cancel:
    the grace callbacks of [leaveGame], which capture the code and the
    player id, and the next-round callback of server.js, which captures the
    room object itself. *)

Module Session.
Record t := mk { gameCode : string; playerId : string }.
End Session.

Inductive Timer :=
| LobbyGrace (gameCode playerId : string)
| GameGrace (gameCode playerId : string)
| NextRound (room : nat).

Module GameManager.

Record t := mk {
  rooms : list Game.t;
  games : gmap string nat;
  playerSessions : gmap string Session.t;
  deletionTimers : gset string;
  timers : list Timer
}.

Definition set_rooms v m :=
  mk v (games m) (playerSessions m) (deletionTimers m) (timers m).
Definition set_games v m :=
  mk (rooms m) v (playerSessions m) (deletionTimers m) (timers m).
Definition set_playerSessions v m :=
  mk (rooms m) (games m) v (deletionTimers m) (timers m).
Definition set_deletionTimers v m :=
  mk (rooms m) (games m) (playerSessions m) v (timers m).
Definition set_timers v m :=
  mk (rooms m) (games m) (playerSessions m) (deletionTimers m) v.

Definition empty : t := mk [] ∅ ∅ ∅ [].

(** What a method call leaves: the manager and the returned value, or the
    manager at the point where the call threw. *)
Inductive Result (R : Type) :=
| Ok (m : t) (r : R)
| Crash (m : t).
Arguments Ok {R} m r.
Arguments Crash {R} m.

Definition state {R} (r : Result R) : t :=
  match r with Ok m _ => m | Crash m => m end.

(** [this.games.get(gameCode)]: the room object and its address *)
Definition get (m : t) (gameCode : string) : option (nat * Game.t) :=
  a ← games m !! gameCode; g ← rooms m !! a; Some (a, g).

Definition put (a : nat) (g : Game.t) (m : t) : t :=
  set_rooms (<[a := g]> (rooms m)) m.

Definition getPlayerId (m : t) (socketId : string) : option string :=
  Session.playerId <$> playerSessions m !! socketId.

Definition bind_session (socketId gameCode playerId : string) (m : t) : t :=
  set_playerSessions
    (<[socketId := Session.mk gameCode playerId]> (playerSessions m)) m.

(** *** Room codes *)

Definition chars : string := "ABCDEFGHIJKLMNOPQRSTUVWXYZ0123456789".

(** [chars[Math.floor(Math.random() * chars.length)]]; [join] writes an
    [undefined] element as the empty string. *)
Definition random_char (d : draw) : string :=
  match String.get (random_index d (String.length chars)) chars with
  | Some c => String c ""
  | None => ""
  end.

(** [Array.from({ length: 6 }, () => ...).join('')], the callback drawing
    [ds k] at element [k]. *)
Definition random_code (ds : nat -> draw) : string :=
  fold_right (fun k rest => random_char (ds k) +:+ rest) "" (seq 0 6).

(** [do { code = ... } while (this.games.has(code))]: [attempts n] holds
    the draws of iteration [n]; [fuel] bounds the iterations. *)
Fixpoint generateGameCode (m : t) (attempts : nat -> nat -> draw)
  (fuel n : nat) : option string :=
  match fuel with
  | 0 => None
  | S fuel' =>
      let code := random_code (attempts n) in
      match games m !! code with
      | Some _ => generateGameCode m attempts fuel' (S n)
      | None => Some code
      end
  end.

(** [gameCode] and [playerId] are the results of [generateGameCode()]
    and [generateId()]. *)
Definition createGame (m : t) (socketId creatorName gameCode playerId : string)
  : t :=
  let a := length (rooms m) in
  let m := set_rooms
             (rooms m ++ [Room.createGame gameCode playerId creatorName]) m in
  let m := set_games (<[gameCode := a]> (games m)) m in
  bind_session socketId gameCode playerId m.

Definition joinGame (m : t) (gameCode socketId playerName : string)
  (previousPlayerId : option string) (playerId : string) : t * Reply :=
  match get m gameCode with
  | None => (m, Error RoomNotFound)
  | Some (a, g) =>
      let m := set_deletionTimers (deletionTimers m ∖ {[gameCode]}) m in
      match Room.joinGame g playerName previousPlayerId playerId with
      | (g, Joined i) =>
          (bind_session socketId gameCode i (put a g m), Joined i)
      | (g, r) => (put a g m, r)
      end
  end.

Definition leaveGame (m : t) (socketId : string) : t :=
  match playerSessions m !! socketId with
  | None => m
  | Some session =>
      let gameCode := Session.gameCode session in
      let playerId := Session.playerId session in
      let m := set_playerSessions (delete socketId (playerSessions m)) m in
      match get m gameCode with
      | None => m
      | Some (a, g) =>
          match Room.find_player (Some playerId) (Game.players g) with
          | None => m
          | Some _ =>
              let timer :=
                match Game.status g with
                | RoomStatus.lobby => LobbyGrace gameCode playerId
                | _ => GameGrace gameCode playerId
                end in
              let g := Room.mark_disconnected g playerId in
              let m := set_timers (timers m ++ [timer]) (put a g m) in
              if Room.hasConnectedPlayers g then m
              else set_deletionTimers (deletionTimers m ∪ {[gameCode]}) m
          end
      end
  end.

(** A method whose body works on the room found under [gameCode]. *)
Definition on_room (m : t) (gameCode : string)
  (body : Game.t -> Game.t * Reply) : t * Reply :=
  match get m gameCode with
  | None => (m, Error RoomNotFound)
  | Some (a, g) => let '(g, r) := body g in (put a g m, r)
  end.

Definition startGame (m : t) (gameCode : string) (playerId : option string)
  (e : Room.Entropy) : t * Reply :=
  on_room m gameCode (fun g => Room.startGame g playerId e).

Definition submitDescription (m : t) (gameCode : string)
  (playerId : option string) (description : string) : t * Reply :=
  on_room m gameCode
    (fun g => Room.submitDescription g playerId description).

Definition submitVote (m : t) (gameCode : string) (voterId : option string)
  (candidateId : string) : Result Reply :=
  match get m gameCode with
  | None => Ok m (Error RoomNotFound)
  | Some (a, g) =>
      match Room.submitVote g voterId candidateId with
      | Returned g r => Ok (put a g m) r
      | Thrown g => Crash (put a g m)
      end
  end.

Definition startNewGame (m : t) (gameCode : string)
  (playerId : option string) (e : Room.Entropy) : t * Reply :=
  on_room m gameCode (fun g => Room.startNewGame g playerId e).

Definition updatePlayerName (m : t) (gameCode : string)
  (playerId : option string) (newName : string) : t * Reply :=
  on_room m gameCode
    (fun g => Room.updatePlayerName g playerId newName).

(** *** Timeouts *)

(** The deletion timeout of [leaveGame] fires. *)
Definition deletionExpired (m : t) (gameCode : string) : t :=
  set_deletionTimers (deletionTimers m ∖ {[gameCode]})
    (set_games (delete gameCode (games m)) m).

(** A pending callback runs. *)
Definition expire (m : t) (timer : Timer) (e : Room.Entropy)
  : Result unit :=
  match timer with
  | LobbyGrace gameCode playerId =>
      match get m gameCode with
      | None => Ok m ()
      | Some (a, g) => Ok (put a (Room.lobbyGraceExpired g playerId) m) ()
      end
  | GameGrace gameCode playerId =>
      match get m gameCode with
      | None => Ok m ()
      | Some (a, g) =>
          match Room.gameGraceExpired g playerId with
          | Returned g _ => Ok (put a g m) ()
          | Thrown g => Crash (put a g m)
          end
      end
  | NextRound a =>
      match rooms m !! a with
      | None => Ok m ()
      | Some g => Ok (put a (Room.startRound g e) m) ()
      end
  end.

End GameManager.

(** ** server.js: the socket handlers and the timeouts

    One event is one handler run to completion, or one timeout firing.
    Timeouts fire in any order here, which covers every schedule of the
    real delays (60 s grace, 5 s next round, 300 s deletion). *)

Module Server.

Inductive Event :=
| create_game (socket playerName gameCode playerId : string)
| join_game (socket gameCode playerName : string)
    (previousPlayerId : option string) (playerId : string)
| start_game (socket gameCode : string) (e : Room.Entropy)
| submit_description (socket gameCode description : string)
| submit_vote (socket gameCode votedPlayerId : string)
| send_chat (socket gameCode message : string)
| start_new_game (socket gameCode : string) (e : Room.Entropy)
| update_player_name (socket gameCode newName : string)
| disconnect (socket : string)
| timeout (k : nat) (e : Room.Entropy)
| deletion_timeout (gameCode : string).

(** The process after an event: still serving, stopped by an uncaught
    exception, or [Refused] when the event cannot occur in that state (a
    timeout that is not pending, a generated code that is in use). *)
Inductive Step :=
| Running (m : GameManager.t)
| Crashed (m : GameManager.t)
| Refused.

(** The 'send-chat' handler *)
Definition send_chat_room (g : Game.t) (playerId message : string) : Game.t :=
  if Room.phase_is Phase.description g || Room.phase_is Phase.voting g then g
  else
    match Room.find_player (Some playerId) (Game.players g) with
    | Some player =>
        Room.addChatMessage g (Player.name player) message Chat.player
    | None => g
    end.

Definition step (m : GameManager.t) (ev : Event) : Step :=
  match ev with
  | create_game socket playerName gameCode playerId =>
      match GameManager.games m !! gameCode with
      | Some _ => Refused
      | None =>
          Running (GameManager.createGame m socket playerName gameCode playerId)
      end
  | join_game socket gameCode playerName previousPlayerId playerId =>
      Running (fst (GameManager.joinGame m gameCode socket playerName
                      previousPlayerId playerId))
  | start_game socket gameCode e =>
      Running (fst (GameManager.startGame m gameCode
                      (GameManager.getPlayerId m socket) e))
  | submit_description socket gameCode description =>
      Running (fst (GameManager.submitDescription m gameCode
                      (GameManager.getPlayerId m socket) description))
  | submit_vote socket gameCode votedPlayerId =>
      match GameManager.submitVote m gameCode
              (GameManager.getPlayerId m socket) votedPlayerId with
      | GameManager.Ok m (RoundResults None) =>
          match GameManager.games m !! gameCode with
          | Some a =>
              Running (GameManager.set_timers
                         (GameManager.timers m ++ [NextRound a]) m)
          | None => Running m
          end
      | GameManager.Ok m _ => Running m
      | GameManager.Crash m => Crashed m
      end
  | send_chat socket gameCode message =>
      match GameManager.get m gameCode, GameManager.getPlayerId m socket with
      | Some (a, g), Some playerId =>
          if truthy playerId
          then Running (GameManager.put a (send_chat_room g playerId message) m)
          else Running m
      | _, _ => Running m
      end
  | start_new_game socket gameCode e =>
      Running (fst (GameManager.startNewGame m gameCode
                      (GameManager.getPlayerId m socket) e))
  | update_player_name socket gameCode newName =>
      Running (fst (GameManager.updatePlayerName m gameCode
                      (GameManager.getPlayerId m socket) newName))
  | disconnect socket => Running (GameManager.leaveGame m socket)
  | timeout k e =>
      match GameManager.timers m !! k with
      | None => Refused
      | Some timer =>
          let m := GameManager.set_timers (delete k (GameManager.timers m)) m in
          match GameManager.expire m timer e with
          | GameManager.Ok m _ => Running m
          | GameManager.Crash m => Crashed m
          end
      end
  | deletion_timeout gameCode =>
      if bool_decide (gameCode ∈ GameManager.deletionTimers m)
      then Running (GameManager.deletionExpired m gameCode)
      else Refused
  end.

(** A run of the server from its start. *)
Fixpoint run_from (m : GameManager.t) (evs : list Event) : Step :=
  match evs with
  | [] => Running m
  | ev :: rest =>
      match step m ev with
      | Running m => run_from m rest
      | other => other
      end
  end.

Definition run (evs : list Event) : Step := run_from GameManager.empty evs.

(** The states the server passes through. *)
Inductive reachable : GameManager.t -> Prop :=
| reachable_start : reachable GameManager.empty
| reachable_step m ev m' :
    reachable m -> step m ev = Running m' -> reachable m'.

End Server.

(** ** public/client.js: the session helpers and the name generator *)

Module Client.

(** [sessionStorage] is a map from string keys to string values;
    [getItem] of a key that is not set is [null]. *)

Record Session := mk {
  gameCode : option string;
  playerId : option string;
  playerName : option string
}.

Definition saveSession (st : gmap string string) (code id name : string)
  : gmap string string :=
  <["playerName" := name]>
    (<["playerId" := id]> (<["gameCode" := code]> st)).

Definition getSession (st : gmap string string) : Session :=
  mk (st !! "gameCode") (st !! "playerId") (st !! "playerName").

(** [sessionStorage.clear()] *)
Definition clearSession (st : gmap string string) : gmap string string :=
  ∅.

Definition adjectives : list string :=
  [ "Happy"; "Lucky"; "Swift"; "Brave"; "Clever"; "Mighty"; "Noble";
    "Silent"; "Golden"; "Silver"; "Crystal"; "Mystic"; "Ancient"; "Cosmic";
    "Electric"; "Blazing"; "Frozen"; "Thunder"; "Shadow"; "Radiant";
    "Crimson"; "Azure"; "Emerald"; "Amber"; "Jade"; "Scarlet"; "Violet";
    "Turquoise"; "Coral"; "Ruby"; "Diamond"; "Pearl"; "Sapphire"; "Topaz";
    "Obsidian"; "Ivory" ].

Definition nouns : list string :=
  [ "Lion"; "Tiger"; "Eagle"; "Wolf"; "Bear"; "Dragon"; "Phoenix"; "Falcon";
    "Panther"; "Hawk"; "Raven"; "Cobra"; "Shark"; "Whale"; "Dolphin";
    "Fox"; "Owl"; "Jaguar"; "Leopard"; "Cheetah"; "Lynx"; "Puma"; "Otter";
    "Penguin"; "Sparrow"; "Crow"; "Heron"; "Swan"; "Flamingo"; "Peacock";
    "Butterfly"; "Dragonfly"; "Firefly"; "Beetle"; "Mantis"; "Scorpion" ].

(** [arr[Math.floor(Math.random() * arr.length)]] in a template literal,
    where an [undefined] element prints as "undefined". *)
Definition pick (arr : list string) (d : draw) : string :=
  match arr !! random_index d (length arr) with
  | Some s => s
  | None => "undefined"
  end.

Definition generateRandomName (adjective noun : draw) : string :=
  pick adjectives adjective +:+ pick nouns noun.

End Client.

(** ** Observations and scenarios *)

Module Scenario.
Import Server.

Definition state_of (s : Step) : GameManager.t :=
  match s with
  | Running m | Crashed m => m
  | Refused => GameManager.empty
  end.

(** The room object at address [a] after a run. *)
Definition room (a : nat) (s : Step) : option Game.t :=
  GameManager.rooms (state_of s) !! a.

Definition roster (g : Game.t) : list string :=
  List.map Player.id (Game.players g).

Definition statuses (g : Game.t) : list (string * PlayerStatus.t) :=
  List.map (fun p => (Player.id p, Player.status p)) (Game.players g).

Definition scores (g : Game.t) : list (string * nat) :=
  List.map (fun p => (Player.id p, Player.points p)) (Game.players g).

Definition roles (g : Game.t) : list (string * option Role.t) :=
  List.map (fun p => (Player.id p, Player.role p)) (Game.players g).

(** The ids of the roster, in order; a roster is kept when its ids still
    head the later roster. *)
Definition roster_kept (g g' : Game.t) : Prop :=
  exists joined, roster g' = roster g ++ joined.

(** The number of recorded votes that name [t]. *)
Definition votes_for (t : string) (g : Game.t) : nat :=
  length (List.filter (String.eqb t) (JsObject.values (Game.votes g))).

(** Every draw is 0: the first participating player is the imposter and
    the shuffle rotates the first player to the end. *)
Definition zero : Room.Entropy :=
  {| Room.pair := WordPair.mk "cat" "dog";
     Room.imposterDraw := {| below := 0; gap := 0 |};
     Room.shuffleDraws := fun _ => {| below := 0; gap := 0 |} |}.

Definition code : string := "ROOM01".

(** Alice creates the room; Bob and Carol (and Dave) join the lobby. *)
Definition lobby3 : list Event :=
  [ create_game "s1" "Alice" code "a";
    join_game "s2" code "Bob" None "b";
    join_game "s3" code "Carol" None "c" ].

Definition lobby4 : list Event :=
  lobby3 ++ [ join_game "s4" code "Dave" None "d" ].

(** Three players describe in turn order (Bob, Carol, Alice). *)
Definition described3 : list Event :=
  lobby3 ++
  [ start_game "s1" code zero;
    submit_description "s2" code "furry";
    submit_description "s3" code "purrs";
    submit_description "s1" code "barks" ].

(** Four players describe in turn order (Bob, Carol, Dave, Alice). *)
Definition described4 : list Event :=
  lobby4 ++
  [ start_game "s1" code zero;
    submit_description "s2" code "furry";
    submit_description "s3" code "purrs";
    submit_description "s4" code "meows";
    submit_description "s1" code "barks" ].

(** Two of three voters name an id that no player has. *)
Definition ghost_vote : list Event :=
  described3 ++
  [ submit_vote "s1" code "ghost";
    submit_vote "s2" code "ghost";
    submit_vote "s3" code "none" ].

(** Carol's connection drops in the lobby and the host starts at once. *)
Definition short_lobby : list Event := lobby3 ++ [ disconnect "s3" ].

(** Dave's connection drops in round 1 and the host emits 'start-game'
    again. *)
Definition restart4 : list Event :=
  lobby4 ++ [ start_game "s1" code zero; disconnect "s4" ].

(** Carol's connection drops in round 1 of a three-player game. *)
Definition dropped3 : list Event :=
  lobby3 ++ [ start_game "s1" code zero; disconnect "s3" ].

(** Round 1 votes out Bob, a civilian; round 2 votes out Alice, the
    imposter. *)
Definition bob_out : list Event :=
  described4 ++
  [ submit_vote "s1" code "b";
    submit_vote "s2" code "b";
    submit_vote "s3" code "b";
    submit_vote "s4" code "b" ].

Definition civilians_win : list Event :=
  bob_out ++
  [ timeout 0 zero;
    submit_description "s3" code "whiskers";
    submit_description "s4" code "tail";
    submit_description "s1" code "bone";
    submit_vote "s1" code "a";
    submit_vote "s3" code "a";
    submit_vote "s4" code "a" ].

(** The creator leaves the lobby for good, then some connection emits
    'start-new-game' for the empty room. *)
Definition empty_rematch : list Event :=
  [ create_game "s1" "Alice" code "a";
    disconnect "s1";
    timeout 0 zero;
    start_new_game "s9" code zero ].

(** Three of four votes are in when Carol and Dave drop. *)
Definition three_votes : list Event :=
  described4 ++
  [ submit_vote "s1" code "none";
    submit_vote "s2" code "none";
    submit_vote "s3" code "none";
    disconnect "s3";
    disconnect "s4" ].

(** Bob, voted out but still connected, joins again from a second tab. *)
Definition second_tab : list Event :=
  bob_out ++ [ join_game "s5" code "Bob" (Some "b") "e" ].

(** Two votes for Bob, two for a name every object inherits. *)
Definition inherited_vote : list Event :=
  described4 ++
  [ submit_vote "s1" code "b";
    submit_vote "s2" code "toString";
    submit_vote "s3" code "toString";
    submit_vote "s4" code "b" ].

(** Bob refreshes in the lobby, the game starts, Bob's connection drops,
    and the timeout of the lobby disconnect fires. *)
Definition late_lobby_timeout : list Event :=
  lobby3 ++
  [ disconnect "s2";
    join_game "s5" code "Bob" (Some "b") "e";
    start_game "s1" code zero;
    disconnect "s5";
    timeout 0 zero ].

(** The manager and the first room after a run. *)
Definition manager (evs : list Event) : GameManager.t :=
  state_of (run evs).

Definition the_room (evs : list Event) : Game.t :=
  default (Room.createGame "" "" "") (room 0 (run evs)).

(** Round 2 with Bob already voted out: every ballot names Alice, the
    imposter. *)
Definition ballot : Game.t :=
  Game.mk code "a" RoomStatus.playing 2 5
    [ Player.mk "a" "Alice" (Some Role.imposter) (Some "dog")
        PlayerStatus.active 15 true true true;
      Player.mk "b" "Bob" (Some Role.civilian) (Some "cat")
        PlayerStatus.eliminated 0 false false false;
      Player.mk "c" "Carol" (Some Role.civilian) (Some "cat")
        PlayerStatus.active 10 true true false;
      Player.mk "d" "Dave" (Some Role.civilian) (Some "cat")
        PlayerStatus.active 10 true true false ]
    ["c"; "d"; "a"] (-1) []
    [("a", "a"); ("c", "a"); ("d", "a")]
    Phase.voting (Some (WordPair.mk "cat" "dog")) (Some "a") None.

(** The civilians still in play: [potentialCivs.length]. *)
Definition civilians_left (g : Game.t) : nat :=
  length (List.filter
            (fun p => Player.has_role Role.civilian p && Player.capable p)
            (Game.players g)).

(** The ballot of round 2 with every vote an abstention. *)
Definition abstentions : Game.t :=
  Game.set_votes [("a", "none"); ("c", "none"); ("d", "none")] ballot.

(** The player with this id counts for the turn scan: found, and active or
    disconnected. *)
Definition takes_turn (g : Game.t) (pid : string) : bool :=
  match Room.find_player (Some pid) (Game.players g) with
  | Some p => Player.capable p
  | None => false
  end.

(** The registry is sound when every code leads to a room object, no two
    codes lead to the same room object, and every pending deletion concerns
    a registered code. *)
Definition registry_sound (m : GameManager.t) : Prop :=
  (forall (gameCode : string) (a : nat),
     GameManager.games m !! gameCode = Some a ->
     a < length (GameManager.rooms m))
  /\ (forall (c1 c2 : string) (a : nat),
        GameManager.games m !! c1 = Some a ->
        GameManager.games m !! c2 = Some a -> c1 = c2)
  /\ (forall gameCode : string,
        gameCode ∈ GameManager.deletionTimers m ->
        is_Some (GameManager.games m !! gameCode)).

(** An event keeps the registry when it registers and allocates nothing
    and schedules deletions for registered codes only. *)
Definition registry_kept (m m' : GameManager.t) : Prop :=
  GameManager.games m' = GameManager.games m
  /\ length (GameManager.rooms m') = length (GameManager.rooms m)
  /\ (forall gameCode : string,
        gameCode ∈ GameManager.deletionTimers m' ->
        gameCode ∈ GameManager.deletionTimers m
        \/ is_Some (GameManager.games m !! gameCode)).

(** The events whose handler clears the chat history on success. *)
Definition starts_game (ev : Event) : bool :=
  match ev with
  | start_game _ _ _ | start_new_game _ _ _ => true
  | _ => false
  end.

(** The events a connection emits on behalf of the player its session
    names. *)
Definition acts_for_player (socket : string) (ev : Event) : bool :=
  match ev with
  | start_game s _ _ | submit_description s _ _ | submit_vote s _ _
  | send_chat s _ _ | update_player_name s _ _ | disconnect s =>
      s =? socket
  | _ => false
  end.


End Scenario.

(** * Properties *)

Import Room.

(** ** Rosters *)

Lemma find_player_id (i : string) (ps : list Player.t) (p : Player.t) :
  find_player (Some i) ps = Some p -> Player.id p = i.
Proof.
  unfold find_player. intros H. apply find_some in H as [_ H].
  by apply String.eqb_eq.
Qed.

Lemma find_player_elem (i : option string) (ps : list Player.t) (p : Player.t) :
  find_player i ps = Some p -> In p ps.
Proof.
  destruct i as [i|]; [|done]. intros H. by apply find_some in H as [H _].
Qed.

Lemma update_player_length i f ps : length (update_player i f ps) = length ps.
Proof.
  induction ps as [|p r IH]; [done|]. simpl.
  destruct (Player.id p =? i); simpl; congruence.
Qed.

(** A mutation that keeps [g] of a player keeps the list of [g]s. *)
Lemma update_player_map {B} (g : Player.t -> B) i f ps :
  (forall p, g (f p) = g p) ->
  List.map g (update_player i f ps) = List.map g ps.
Proof.
  intros Hf. induction ps as [|p r IH]; [done|]. simpl.
  destruct (Player.id p =? i); simpl; by rewrite ?Hf, ?IH.
Qed.

Lemma update_player_absent i f ps :
  find_player (Some i) ps = None -> update_player i f ps = ps.
Proof.
  induction ps as [|p r IH]; [done|]. simpl.
  destruct (Player.id p =? i); [done|]. intros H. by rewrite IH.
Qed.

Lemma find_player_map i f ps :
  (forall p, Player.id (f p) = Player.id p) ->
  find_player i (List.map f ps) = f <$> find_player i ps.
Proof.
  intros Hf. destruct i as [i|]; [|done]. simpl.
  induction ps as [|p r IH]; [done|]. simpl. rewrite Hf.
  by destruct (Player.id p =? i).
Qed.

Lemma award_id p : Player.id (award p) = Player.id p.
Proof. unfold award. by destruct (Player.capable p). Qed.

(** ** Vote resolution throws on an unknown target (C2) *)

(** When the single plurality candidate is a non-empty id other than
    'none' that no player has, nobody is eliminated, the re-check runs,
    and building the summary throws before [lastRoundResult] is set. *)
Lemma processVotingResults_unknown_target (g : Game.t) (t : string) :
  candidates g = [t] ->
  t <> "none" ->
  truthy t = true ->
  find_player (Some t) (Game.players g) = None ->
  exists g', processVotingResults g = Thrown g'
             /\ Game.lastRoundResult g' = Game.lastRoundResult g
             /\ Game.gamePhase g' = Phase.results.
Proof.
  intros Hc Hnone Htruthy Hfind.
  unfold processVotingResults, eliminate.
  change (candidates (Game.set_gamePhase Phase.results g)) with (candidates g).
  rewrite Hc. apply String.eqb_neq in Hnone. rewrite Hnone.
  cbn [Game.players Game.set_gamePhase].
  rewrite Hfind. unfold settle.
  match goal with |- context [if ?c then _ else _] => destruct c end;
    cbn [eliminated_player Game.players Game.set_players Game.set_gamePhase];
    rewrite Htruthy.
  - rewrite Hfind. eauto.
  - rewrite (find_player_map _ _ _ award_id), Hfind. simpl. eauto.
Qed.

(** C2.  Bob, Carol and Alice have described; Alice and Bob vote for the id
    "ghost", Carol abstains.  The third vote triggers resolution, which
    throws out of the 'submit-vote' handler: the room is left in phase
    [results], round points already awarded, without a [lastRoundResult]. *)
Theorem ghost_vote_throws :
  (match Server.run Scenario.ghost_vote with
   | Server.Crashed _ => True
   | _ => False
   end)
  /\ (Game.gamePhase <$> Scenario.room 0 (Server.run Scenario.ghost_vote))
     = Some Phase.results
  /\ (Game.lastRoundResult <$> Scenario.room 0 (Server.run Scenario.ghost_vote))
     = Some None
  /\ (Scenario.scores <$> Scenario.room 0 (Server.run Scenario.ghost_vote))
     = Some [("a", 15); ("b", 10); ("c", 10)].
Proof. vm_compute. done. Qed.

(** ** The steps of vote resolution *)

Lemma update_player_Forall2 (R : Player.t -> Player.t -> Prop) i f ps :
  (forall p, R p p) -> (forall p, R p (f p)) ->
  Forall2 R ps (update_player i f ps).
Proof.
  intros Hrefl Hf. induction ps as [|p r IH]; simpl; [constructor|].
  destruct (Player.id p =? i); constructor; auto.
  clear IH. induction r; constructor; auto.
Qed.

(** The elimination branch changes nothing but the status of players, and
    only to [eliminated]. *)
Lemma eliminate_Forall2 (R : Player.t -> Player.t -> Prop) g :
  (forall p, R p p) ->
  (forall p, R p (Player.set_status PlayerStatus.eliminated p)) ->
  Forall2 R (Game.players g) (Game.players (eliminate g).1.1).
Proof.
  intros Hrefl Hel.
  assert (Forall2 R (Game.players g) (Game.players g)) as Hsame.
  { induction (Game.players g); constructor; auto. }
  unfold eliminate. destruct (candidates g) as [|t [|]]; [done| |done].
  destruct (t =? "none"); [done|].
  destruct (find_player (Some t) (Game.players g)); [|done].
  by apply update_player_Forall2.
Qed.

(** A winner found by the re-check leaves the players as they are. *)
Lemma settle_winner g w0 g' w :
  settle g w0 = (g', Some w) -> Game.players g' = Game.players g.
Proof.
  unfold settle. destruct w0; [by intros [= <- _]|].
  match goal with |- context [if ?c then _ else _] => destruct c end;
    by intros [= <-].
Qed.

(** ** The bonus (C6) *)

(** C6, as the code has it.  When vote resolution determines a winner, the
    roster keeps its players and roles, every player whose role is civilian
    gains 50 points if the civilians win, whatever the player's status,
    every player whose role is imposter gains 100 points if the imposter
    wins, and nobody else's points change. *)
Theorem winner_bonus (g g' : Game.t) (w : Winner.t) :
  processVotingResults g = Returned g' (RoundResults (Some w)) ->
  length (Game.players g') = length (Game.players g)
  /\ forall (i : nat) (p p' : Player.t),
       Game.players g !! i = Some p ->
       Game.players g' !! i = Some p' ->
       Player.id p' = Player.id p
       /\ Player.role p' = Player.role p
       /\ Player.points p' =
            Player.points p
            + match w, Player.role p with
              | Winner.civilians, Some Role.civilian => 50
              | Winner.imposter, Some Role.imposter => 100
              | _, _ => 0
              end.
Proof.
  unfold processVotingResults.
  pose proof (eliminate_Forall2
    (fun p p' => Player.id p' = Player.id p /\ Player.role p' = Player.role p
                 /\ Player.points p' = Player.points p)
    (Game.set_gamePhase Phase.results g)) as Hel.
  destruct (eliminate _) as [[g1 elimId] w1].
  destruct (settle g1 w1) as [g2 w2] eqn:Hs.
  destruct (eliminated_player g2 elimId); [|done].
  intros [= <- ->]. apply settle_winner in Hs.
  specialize (Hel ltac:(done) ltac:(done)). simpl in Hel.
  assert (Forall2
            (fun p p' => Player.id p' = Player.id p
                         /\ Player.role p' = Player.role p
                         /\ Player.points p' = Player.points p
                              + match w, Player.role p with
                                | Winner.civilians, Some Role.civilian => 50
                                | Winner.imposter, Some Role.imposter => 100
                                | _, _ => 0
                                end)
            (Game.players g)
            (List.map (add_bonus w) (Game.players g2))) as HF.
  { rewrite Hs. apply Forall2_fmap_r.
    eapply Forall2_impl; [exact Hel|].
    intros p q (Hid & Hrole & Hpts).
    unfold add_bonus, wins_bonus, Player.has_role.
    destruct p, q; simpl in *; subst.
    by destruct w; repeat case_match; simpl; auto with lia. }
  split.
  - symmetry. apply (Forall2_length _ _ _ HF).
  - intros i p p' Hp Hp'.
    exact (Forall2_lookup_lr _ _ _ _ _ _ HF Hp Hp').
Qed.

(** C6 as the specification states it fails: Bob, a civilian voted out in
    round 1, ends with the 50-point bonus when the civilians win round 2. *)
Lemma eliminated_civilian_gets_bonus :
  (Scenario.statuses <$> Scenario.room 0 (Server.run Scenario.civilians_win))
  = Some [("a", PlayerStatus.eliminated); ("b", PlayerStatus.eliminated);
          ("c", PlayerStatus.active); ("d", PlayerStatus.active)]
  /\ (Scenario.roles <$> Scenario.room 0 (Server.run Scenario.civilians_win))
     = Some [("a", Some Role.imposter); ("b", Some Role.civilian);
             ("c", Some Role.civilian); ("d", Some Role.civilian)]
  /\ (Scenario.scores <$> Scenario.room 0 (Server.run Scenario.bob_out))
     = Some [("a", 15); ("b", 0); ("c", 10); ("d", 10)]
  /\ (Scenario.scores <$> Scenario.room 0 (Server.run Scenario.civilians_win))
     = Some [("a", 15); ("b", 50); ("c", 60); ("d", 60)].
Proof. vm_compute. done. Qed.

Lemma winner_bonus_witness :
  processVotingResults Scenario.ballot
  = Returned (room_of (processVotingResults Scenario.ballot))
      (RoundResults (Some Winner.civilians))
  /\ (Scenario.scores (room_of (processVotingResults Scenario.ballot))
      = [("a", 15); ("b", 50); ("c", 60); ("d", 60)])
  /\ forall (i : nat) (p p' : Player.t),
       Game.players Scenario.ballot !! i = Some p ->
       Game.players (room_of (processVotingResults Scenario.ballot)) !! i
       = Some p' ->
       Player.points p' =
         Player.points p
         + match Player.role p with Some Role.civilian => 50 | _ => 0 end.
Proof.
  split; [vm_compute; reflexivity|]. split; [vm_compute; reflexivity|].
  intros i p p' Hp Hp'.
  destruct (winner_bonus Scenario.ballot
              (room_of (processVotingResults Scenario.ballot))
              Winner.civilians) as [_ H]; [vm_compute; reflexivity|].
  destruct (H i p p' Hp Hp') as (_ & _ & ->).
  by destruct (Player.role p) as [[]|].
Defined.

(** ** Turn advance *)

Lemma scan_turn_found ps rest s i :
  scan_turn ps rest s = Some i ->
  s <= i
  /\ exists pid p,
       rest !! (i - s) = Some pid
       /\ find_player (Some pid) ps = Some p
       /\ Player.capable p = true.
Proof.
  revert s. induction rest as [|pid r IH]; intros s; [done|].
  cbn [scan_turn].
  destruct (find_player (Some pid) ps) as [p|] eqn:Hfind.
  - destruct (Player.capable p) eqn:Hcap.
    + intros [= <-]. split; [lia|]. exists pid, p.
      by rewrite Nat.sub_diag.
    + intros H. apply IH in H as (Hle & pid' & p' & Hl & Hp).
      split; [lia|]. exists pid', p'. split; [|done].
      by replace (i - s) with (S (i - S s)) by lia.
  - intros H. apply IH in H as (Hle & pid' & p' & Hl & Hp).
    split; [lia|]. exists pid', p'. split; [|done].
    by replace (i - s) with (S (i - S s)) by lia.
Qed.

Lemma advanceTurn_players g : Game.players (advanceTurn g) = Game.players g.
Proof. unfold advanceTurn. by destruct (scan_turn _ _ _). Qed.

Lemma advanceTurn_turnOrder g :
  Game.turnOrder (advanceTurn g) = Game.turnOrder g.
Proof. unfold advanceTurn. by destruct (scan_turn _ _ _). Qed.

Lemma advanceTurn_currentRound g :
  Game.currentRound (advanceTurn g) = Game.currentRound g.
Proof. unfold advanceTurn. by destruct (scan_turn _ _ _). Qed.

Lemma advanceTurn_status g : Game.status (advanceTurn g) = Game.status g.
Proof. unfold advanceTurn. by destruct (scan_turn _ _ _). Qed.

Lemma advanceTurn_votes g : Game.votes (advanceTurn g) = Game.votes g.
Proof. unfold advanceTurn. by destruct (scan_turn _ _ _). Qed.

Lemma advanceTurn_wordPair g : Game.wordPair (advanceTurn g) = Game.wordPair g.
Proof. unfold advanceTurn. by destruct (scan_turn _ _ _). Qed.

(** Where [advanceTurn] leaves the turn: in the voting phase at the
    sentinel -1, or, the phase untouched, on an entry of [turnOrder] whose
    player is active or disconnected. *)
Lemma advanceTurn_settled g :
  (Game.gamePhase (advanceTurn g) = Phase.voting
   /\ Game.currentTurnIndex (advanceTurn g) = (-1)%Z)
  \/ (Game.gamePhase (advanceTurn g) = Game.gamePhase g
      /\ exists (i : nat) (pid : string) (p : Player.t),
           Game.currentTurnIndex (advanceTurn g) = Z.of_nat i
           /\ Game.turnOrder g !! i = Some pid
           /\ find_player (Some pid) (Game.players g) = Some p
           /\ Player.capable p = true).
Proof.
  unfold advanceTurn.
  destruct (scan_turn _ _ _) as [i|] eqn:Hscan; [|by left].
  apply scan_turn_found in Hscan as (Hle & pid & p & Hl & Hp & Hcap).
  right. split; [done|]. exists i, pid, p. simpl.
  rewrite lookup_drop in Hl. split_and!; try done.
  by replace i with (Z.to_nat (Game.currentTurnIndex g + 1)
                     + (i - Z.to_nat (Game.currentTurnIndex g + 1))) by lia.
Qed.

(** ** Round start *)

Lemma advanceTurn_chat_system g :
  exists extra,
    Game.chatHistory (advanceTurn g) = Game.chatHistory g ++ extra
    /\ Forall (fun c => Chat.type c = Chat.system) extra.
Proof.
  unfold advanceTurn. destruct (scan_turn _ _ _).
  - exists []. by rewrite app_nil_r.
  - eexists. split; [reflexivity|]. by repeat constructor.
Qed.

(** A field of the room as [prepareRound] leaves it: split on the round
    number and on whether an imposter was picked. *)
Ltac prepared g :=
  unfold prepareRound; cbn [Game.currentRound Game.set_gamePhase
    Game.set_currentRound];
  destruct (Game.currentRound g) as [|?]; cbn [Nat.eqb];
  [unfold dealRoles; case_match|]; reflexivity.

(** The players [startRound] leaves: round 1 deals roles to the
    participating players; every round clears the flags of all. *)
Lemma prepareRound_players g e :
  Game.players (prepareRound g e)
  = List.map reset_flags
      (if (Game.currentRound g =? 0)%nat
       then assign_roles (pair e)
              (random_index (imposterDraw e)
                 (length (List.filter Player.participating (Game.players g))))
              0 (Game.players g)
       else Game.players g).
Proof. prepared g. Qed.

Lemma prepareRound_currentRound g e :
  Game.currentRound (prepareRound g e) = S (Game.currentRound g).
Proof. prepared g. Qed.

Lemma prepareRound_status g e :
  Game.status (prepareRound g e) = Game.status g.
Proof. prepared g. Qed.

Lemma prepareRound_gamePhase g e :
  Game.gamePhase (prepareRound g e) = Phase.description.
Proof. prepared g. Qed.

Lemma prepareRound_chatHistory g e :
  Game.chatHistory (prepareRound g e) = Game.chatHistory g.
Proof. prepared g. Qed.

Lemma prepareRound_wordPair g e :
  Game.wordPair (prepareRound g e)
  = if (Game.currentRound g =? 0)%nat then Some (pair e)
    else Game.wordPair g.
Proof. prepared g. Qed.

Lemma prepareRound_turnOrder g e :
  Game.turnOrder (prepareRound g e)
  = List.map Player.id
      (shuffle (shuffleDraws e)
         (List.filter Player.capable (Game.players (prepareRound g e)))).
Proof. prepared g. Qed.

(** A system message touches the chat only. *)
Lemma addSystemMessage_players g t :
  Game.players (addSystemMessage g t) = Game.players g.
Proof. reflexivity. Qed.

Lemma addSystemMessage_currentRound g t :
  Game.currentRound (addSystemMessage g t) = Game.currentRound g.
Proof. reflexivity. Qed.

Lemma addSystemMessage_status g t :
  Game.status (addSystemMessage g t) = Game.status g.
Proof. reflexivity. Qed.

Lemma addSystemMessage_wordPair g t :
  Game.wordPair (addSystemMessage g t) = Game.wordPair g.
Proof. reflexivity. Qed.

Lemma addSystemMessage_votes g t :
  Game.votes (addSystemMessage g t) = Game.votes g.
Proof. reflexivity. Qed.

Lemma addSystemMessage_turnOrder g t :
  Game.turnOrder (addSystemMessage g t) = Game.turnOrder g.
Proof. reflexivity. Qed.

Lemma addSystemMessage_gamePhase g t :
  Game.gamePhase (addSystemMessage g t) = Game.gamePhase g.
Proof. reflexivity. Qed.

Lemma addSystemMessage_currentTurnIndex g t :
  Game.currentTurnIndex (addSystemMessage g t) = Game.currentTurnIndex g.
Proof. reflexivity. Qed.

Lemma addSystemMessage_chatHistory g t :
  Game.chatHistory (addSystemMessage g t)
  = Game.chatHistory g ++ [Chat.mk "System" t Chat.system].
Proof. reflexivity. Qed.

Create Rewrite HintDb announcement.
#[local] Hint Rewrite addSystemMessage_players addSystemMessage_currentRound
  addSystemMessage_status addSystemMessage_wordPair addSystemMessage_votes
  addSystemMessage_turnOrder addSystemMessage_gamePhase
  addSystemMessage_currentTurnIndex : announcement.

(** [startRound] is [prepareRound], [advanceTurn] and the announcement. *)
Lemma startRound_eq g e :
  startRound g e
  = addSystemMessage (advanceTurn (prepareRound g e))
      ("Round "
       +:+ pretty (Game.currentRound (advanceTurn (prepareRound g e)))
       +:+ " started!").
Proof. reflexivity. Qed.

Lemma startRound_players g e :
  Game.players (startRound g e) = Game.players (prepareRound g e).
Proof.
  rewrite startRound_eq. autorewrite with announcement.
  apply advanceTurn_players.
Qed.

Lemma startRound_currentRound g e :
  Game.currentRound (startRound g e) = S (Game.currentRound g).
Proof.
  rewrite startRound_eq. autorewrite with announcement.
  by rewrite advanceTurn_currentRound, prepareRound_currentRound.
Qed.

Lemma startRound_status g e :
  Game.status (startRound g e) = Game.status g.
Proof.
  rewrite startRound_eq. autorewrite with announcement.
  by rewrite advanceTurn_status, prepareRound_status.
Qed.

Lemma startRound_wordPair g e :
  Game.wordPair (startRound g e)
  = if (Game.currentRound g =? 0)%nat then Some (pair e)
    else Game.wordPair g.
Proof.
  rewrite startRound_eq. autorewrite with announcement.
  by rewrite advanceTurn_wordPair, prepareRound_wordPair.
Qed.

Lemma startRound_votes g e : Game.votes (startRound g e) = [].
Proof.
  rewrite startRound_eq. autorewrite with announcement.
  by rewrite advanceTurn_votes.
Qed.

Lemma startRound_turnOrder g e :
  Game.turnOrder (startRound g e)
  = List.map Player.id
      (shuffle (shuffleDraws e)
         (List.filter Player.capable (Game.players (startRound g e)))).
Proof.
  rewrite startRound_players, startRound_eq. autorewrite with announcement.
  by rewrite advanceTurn_turnOrder, prepareRound_turnOrder.
Qed.

(** ** Role assignment (C7) *)

Lemma random_index_lt (r : draw) (n : nat) : 0 < n -> random_index r n < n.
Proof.
  intros Hn. unfold random_index.
  apply Nat.Div0.div_lt_upper_bound. nia.
Qed.

Lemma filter_map_comm {A} (f : A -> A) (P : A -> bool) (l : list A) :
  (forall x, P (f x) = P x) ->
  List.filter P (List.map f l) = List.map f (List.filter P l).
Proof.
  intros Hf. induction l as [|x l IH]; [done|]. simpl. rewrite Hf.
  destruct (P x); simpl; by rewrite IH.
Qed.

(** The dealt players are the participating players of the result, and the
    imposter is dealt once when its index falls among them. *)
Lemma assign_roles_imposters pr k s ps :
  length
    (List.filter (Player.has_role Role.imposter)
       (List.filter Player.participating (assign_roles pr k s ps)))
  = if (s <=? k)%nat
       && (k <? s + length (List.filter Player.participating ps))%nat
    then 1 else 0.
Proof.
  revert s. induction ps as [|p r IH]; intros s.
  - simpl. rewrite Nat.add_0_r.
    destruct (s <=? k)%nat eqn:H1, (k <? s)%nat eqn:H2; try done.
    apply Nat.leb_le in H1. apply Nat.ltb_lt in H2. lia.
  - cbn [assign_roles List.filter].
    destruct (Player.participating p) eqn:Hp.
    + cbn [List.filter deal Player.participating Player.status
           Player.has_role Player.role length].
      destruct (Nat.eqb_spec s k) as [->|Hne]; cbn [length]; rewrite IH.
      * rewrite Nat.leb_refl.
        replace (S k <=? k)%nat with false
          by (symmetry; apply Nat.leb_gt; lia).
        replace (k <? k + S _)%nat with true
          by (symmetry; apply Nat.ltb_lt; lia).
        done.
      * destruct (s <=? k)%nat eqn:H1, (S s <=? k)%nat eqn:H2,
          (k <? S s + length (List.filter Player.participating r))%nat eqn:H3,
          (k <? s + S (length (List.filter Player.participating r)))%nat eqn:H4;
          try done;
          repeat match goal with
            | H : (_ <=? _)%nat = true |- _ => apply Nat.leb_le in H
            | H : (_ <=? _)%nat = false |- _ => apply Nat.leb_gt in H
            | H : (_ <? _)%nat = true |- _ => apply Nat.ltb_lt in H
            | H : (_ <? _)%nat = false |- _ => apply Nat.ltb_ge in H
            end; lia.
    + cbn [List.filter]. rewrite Hp. apply IH.
Qed.

(** What round 1 does to each player. *)
Lemma assign_roles_Forall2 pr k s ps :
  Forall2
    (fun p p' =>
       Player.id p' = Player.id p
       /\ if Player.participating p
          then Player.status p' = PlayerStatus.active
               /\ ((Player.role p' = Some Role.imposter
                    /\ Player.word p' = Some (WordPair.imposter pr))
                   \/ (Player.role p' = Some Role.civilian
                       /\ Player.word p' = Some (WordPair.civilian pr)))
          else p' = p)
    ps (assign_roles pr k s ps).
Proof.
  revert s. induction ps as [|p r IH]; intros s; [constructor|].
  cbn [assign_roles]. destruct (Player.participating p) eqn:Hp.
  - constructor; [|apply IH]. rewrite Hp. simpl.
    destruct (s =? k)%nat; auto.
  - constructor; [|apply IH]. by rewrite Hp.
Qed.

(** Round 1, player by player. *)
Lemma round_one_players (g : Game.t) (e : Entropy) :
  Game.currentRound g = 0 ->
  Forall2
    (fun p p' =>
       Player.id p' = Player.id p
       /\ if Player.participating p
          then Player.status p' = PlayerStatus.active
               /\ ((Player.role p' = Some Role.imposter
                    /\ Player.word p' = Some (WordPair.imposter (pair e)))
                   \/ (Player.role p' = Some Role.civilian
                       /\ Player.word p' = Some (WordPair.civilian (pair e))))
          else Player.status p' = Player.status p
               /\ Player.role p' = Player.role p
               /\ Player.word p' = Player.word p)
    (Game.players g) (Game.players (startRound g e)).
Proof.
  intros Hr. rewrite startRound_players, prepareRound_players, Hr.
  cbn [Nat.eqb]. apply Forall2_fmap_r.
  eapply Forall2_impl; [apply assign_roles_Forall2|].
  intros p q [Hid H]. split; [done|].
  destruct (Player.participating p); [done|]. by subst q.
Qed.

(** C7, as the code has it.  A round start that makes the round number 1
    draws the word pair and deals roles to the players whose status is
    active, waiting or disconnected: each becomes active with role imposter
    and the imposter word or role civilian and the civilian word, and
    exactly one of them is the imposter provided there is at least one such
    player; eliminated players keep their role and word.  A later round
    start changes no role, no word and not the word pair. *)
Theorem round_start_roles (g : Game.t) (e : Entropy) :
  (Game.currentRound g = 0 ->
   Game.currentRound (startRound g e) = 1
   /\ Game.wordPair (startRound g e) = Some (pair e)
   /\ Forall2
        (fun p p' =>
           Player.id p' = Player.id p
           /\ if Player.participating p
              then Player.status p' = PlayerStatus.active
                   /\ ((Player.role p' = Some Role.imposter
                        /\ Player.word p' = Some (WordPair.imposter (pair e)))
                       \/ (Player.role p' = Some Role.civilian
                           /\ Player.word p'
                              = Some (WordPair.civilian (pair e))))
              else Player.status p' = Player.status p
                   /\ Player.role p' = Player.role p
                   /\ Player.word p' = Player.word p)
        (Game.players g) (Game.players (startRound g e))
   /\ (List.filter Player.participating (Game.players g) <> [] ->
       length
         (List.filter (Player.has_role Role.imposter)
            (List.filter Player.participating
               (Game.players (startRound g e)))) = 1))
  /\ (Game.currentRound g <> 0 ->
      Game.wordPair (startRound g e) = Game.wordPair g
      /\ Forall2
           (fun p p' =>
              Player.id p' = Player.id p
              /\ Player.role p' = Player.role p
              /\ Player.word p' = Player.word p
              /\ Player.status p' = Player.status p)
           (Game.players g) (Game.players (startRound g e))).
Proof.
  split.
  - intros Hr. split_and!.
    + by rewrite startRound_currentRound, Hr.
    + by rewrite startRound_wordPair, Hr.
    + by apply round_one_players.
    + rewrite startRound_players, prepareRound_players, Hr. cbn [Nat.eqb].
      intros Hne.
      rewrite filter_map_comm by done. rewrite filter_map_comm by done.
      rewrite length_map, assign_roles_imposters. cbn [Nat.leb andb Nat.add].
      destruct (List.filter Player.participating (Game.players g)) eqn:Hf;
        [done|].
      rewrite <- Hf.
      replace (_ <? _)%nat with true; [done|].
      symmetry. apply Nat.ltb_lt, random_index_lt. rewrite Hf. simpl. lia.
  - intros Hr. rewrite startRound_players, prepareRound_players,
      startRound_wordPair.
    destruct (Game.currentRound g) as [|n]; [done|].
    cbn [Nat.eqb]. split; [done|]. apply Forall2_fmap_r.
    induction (Game.players g); constructor; auto.
Qed.

(** C7 as the specification states it fails when nobody takes part: Alice
    creates a room and leaves, her lobby timeout empties the roster, and a
    'start-new-game' for that room starts round 1 without an imposter. *)
Lemma round_one_without_imposter :
  (Game.currentRound <$> Scenario.room 0 (Server.run Scenario.empty_rematch))
  = Some 1
  /\ (Game.status <$> Scenario.room 0 (Server.run Scenario.empty_rematch))
     = Some RoomStatus.playing
  /\ (Game.imposterId <$> Scenario.room 0 (Server.run Scenario.empty_rematch))
     = Some None
  /\ (List.filter (Player.has_role Role.imposter)
      <$> (Game.players
           <$> Scenario.room 0 (Server.run Scenario.empty_rematch)))
     = Some [].
Proof. vm_compute. done. Qed.

Lemma round_start_roles_witness :
  (Game.currentRound (Scenario.the_room Scenario.lobby3) = 0
   /\ List.filter Player.participating
        (Game.players (Scenario.the_room Scenario.lobby3)) <> []
   /\ length
        (List.filter (Player.has_role Role.imposter)
           (List.filter Player.participating
              (Game.players
                 (startRound (Scenario.the_room Scenario.lobby3)
                    Scenario.zero)))) = 1)
  /\ (Game.currentRound (Scenario.the_room Scenario.bob_out) <> 0
      /\ Game.wordPair
           (startRound (Scenario.the_room Scenario.bob_out) Scenario.zero)
         = Game.wordPair (Scenario.the_room Scenario.bob_out)).
Proof.
  split.
  - assert (Game.currentRound (Scenario.the_room Scenario.lobby3) = 0) as H0
      by (vm_compute; reflexivity).
    assert (List.filter Player.participating
              (Game.players (Scenario.the_room Scenario.lobby3)) <> []) as H1
      by (vm_compute; discriminate).
    split_and!; [done..|].
    exact (proj2 (proj2 (proj2
             (proj1 (round_start_roles (Scenario.the_room Scenario.lobby3)
                       Scenario.zero) H0))) H1).
  - assert (Game.currentRound (Scenario.the_room Scenario.bob_out) <> 0) as H0
      by (vm_compute; discriminate).
    split; [done|].
    exact (proj1 (proj2 (round_start_roles
                           (Scenario.the_room Scenario.bob_out)
                           Scenario.zero) H0)).
Defined.

(** ** Rematch (C10) *)

Lemma startRound_flags g e :
  Forall (fun p => Player.hasDescribed p = false /\ Player.hasVoted p = false)
    (Game.players (startRound g e)).
Proof.
  rewrite startRound_players, prepareRound_players.
  apply Forall_fmap, Forall_true. done.
Qed.

(** A round start only appends system messages to the chat. *)
Lemma startRound_chat g e :
  exists extra,
    Game.chatHistory (startRound g e) = Game.chatHistory g ++ extra
    /\ Forall (fun c => Chat.type c = Chat.system) extra.
Proof.
  rewrite startRound_eq.
  rewrite addSystemMessage_chatHistory.
  destruct (advanceTurn_chat_system (prepareRound g e))
    as (extra & -> & Hextra).
  rewrite prepareRound_chatHistory, <- app_assoc.
  eexists. split; [reflexivity|].
  apply Forall_app. split; [done|]. by repeat constructor.
Qed.

(** C10.  For a room that exists, [startNewGame] never fails and ignores the
    requester: whoever asks, every player is reset to active without role
    or word and with cleared flags, the chat is emptied, the round counter
    goes to 0, and round start runs on that room, making the round 1.  After
    it every player is active with cleared flags and the chat holds only
    the system messages of that round start. *)
Theorem startNewGame_any_requester (m : GameManager.t) (gameCode : string)
  (a : nat) (g : Game.t) (e : Entropy) :
  GameManager.get m gameCode = Some (a, g) ->
  exists g0 : Game.t,
    Forall2
      (fun p p0 =>
         Player.id p0 = Player.id p /\ Player.name p0 = Player.name p
         /\ Player.points p0 = Player.points p
         /\ Player.isCreator p0 = Player.isCreator p
         /\ Player.status p0 = PlayerStatus.active
         /\ Player.role p0 = None /\ Player.word p0 = None
         /\ Player.hasDescribed p0 = false /\ Player.hasVoted p0 = false)
      (Game.players g) (Game.players g0)
    /\ Game.chatHistory g0 = []
    /\ Game.currentRound g0 = 0
    /\ Game.status g0 = RoomStatus.playing
    /\ (Game.gameCode g0, Game.creatorId g0, Game.maxRounds g0,
        Game.turnOrder g0, Game.currentTurnIndex g0, Game.votes g0,
        Game.gamePhase g0, Game.wordPair g0, Game.imposterId g0,
        Game.lastRoundResult g0)
       = (Game.gameCode g, Game.creatorId g, Game.maxRounds g,
          Game.turnOrder g, Game.currentTurnIndex g, Game.votes g,
          Game.gamePhase g, Game.wordPair g, Game.imposterId g,
          Game.lastRoundResult g)
    /\ Game.currentRound (startRound g0 e) = 1
    /\ Game.status (startRound g0 e) = RoomStatus.playing
    /\ Forall
         (fun p => Player.status p = PlayerStatus.active
                   /\ Player.hasDescribed p = false
                   /\ Player.hasVoted p = false)
         (Game.players (startRound g0 e))
    /\ Forall (fun c => Chat.type c = Chat.system)
         (Game.chatHistory (startRound g0 e))
    /\ forall requester : option string,
         GameManager.startNewGame m gameCode requester e
         = (GameManager.put a (startRound g0 e) m, RoundStarted).
Proof.
  intros Hget.
  exists (Game.set_players (List.map rematch (Game.players g))
            (Game.set_chatHistory []
               (Game.set_currentRound 0
                  (Game.set_status RoomStatus.playing g)))).
  split_and!; [|reflexivity..| | | | |].
  - apply Forall2_fmap_r.
    induction (Game.players g); constructor; [|done].
    unfold compose. by destruct a0.
  - by rewrite startRound_currentRound.
  - by rewrite startRound_status.
  - pose proof (startRound_flags
      (Game.set_players (List.map rematch (Game.players g))
         (Game.set_chatHistory []
            (Game.set_currentRound 0
               (Game.set_status RoomStatus.playing g)))) e) as Hflags.
    pose proof (round_one_players
      (Game.set_players (List.map rematch (Game.players g))
         (Game.set_chatHistory []
            (Game.set_currentRound 0
               (Game.set_status RoomStatus.playing g)))) e eq_refl)
      as Hroles.
    cbn [Game.players Game.set_players] in Hroles.
    apply Forall_lookup. intros i p Hp.
    destruct (Forall2_lookup_r _ _ _ _ _ Hroles Hp) as (q & Hq & _ & Hst).
    rewrite Forall_lookup in Hflags. specialize (Hflags i p Hp).
    change (List.map rematch (Game.players g))
      with (rematch <$> Game.players g) in Hq.
    rewrite list_lookup_fmap in Hq.
    destruct (Game.players g !! i); [|done]. injection Hq as <-.
    simpl in Hst. tauto.
  - destruct (startRound_chat
      (Game.set_players (List.map rematch (Game.players g))
         (Game.set_chatHistory []
            (Game.set_currentRound 0
               (Game.set_status RoomStatus.playing g)))) e)
      as (extra & -> & Hextra).
    done.
  - intros requester. unfold GameManager.startNewGame, GameManager.on_room.
    by rewrite Hget.
Qed.

Lemma startNewGame_any_requester_witness :
  GameManager.get (Scenario.manager Scenario.civilians_win) Scenario.code
  = Some (0, Scenario.the_room Scenario.civilians_win)
  /\ snd (GameManager.startNewGame
            (Scenario.manager Scenario.civilians_win) Scenario.code
            (Some "d") Scenario.zero) = RoundStarted
  /\ snd (GameManager.startNewGame
            (Scenario.manager Scenario.civilians_win) Scenario.code
            None Scenario.zero) = RoundStarted.
Proof.
  assert (GameManager.get (Scenario.manager Scenario.civilians_win)
            Scenario.code
          = Some (0, Scenario.the_room Scenario.civilians_win)) as Hget
    by (vm_compute; reflexivity).
  split; [exact Hget|].
  destruct (startNewGame_any_requester _ _ _ _ Scenario.zero Hget)
    as (g0 & _ & _ & _ & _ & _ & _ & _ & _ & _ & Hany).
  split; rewrite Hany; reflexivity.
Defined.

(** ** Reconnection (C9) *)

Lemma find_update_player i f ps :
  (forall p, Player.id (f p) = Player.id p) ->
  find_player (Some i) (update_player i f ps) = f <$> find_player (Some i) ps.
Proof.
  intros Hf. induction ps as [|p r IH]; [done|]. simpl.
  destruct (Player.id p =? i) eqn:Hp; simpl.
  - by rewrite Hf, Hp.
  - by rewrite Hp.
Qed.

Lemma reconnect_id g p : Player.id (reconnect g p) = Player.id p.
Proof. unfold reconnect. by destruct (Player.is_disconnected p). Qed.

Lemma get_put m gameCode a g g' :
  GameManager.get m gameCode = Some (a, g) ->
  GameManager.get (GameManager.put a g' m) gameCode = Some (a, g').
Proof.
  unfold GameManager.get, GameManager.put. simpl.
  destruct (GameManager.games m !! gameCode) as [a'|]; [|done]. simpl.
  destruct (GameManager.rooms m !! a') as [g0|] eqn:Hg0; [|done].
  intros [= -> ->]. apply lookup_lt_Some in Hg0.
  by rewrite list_lookup_insert_eq.
Qed.

(** C9, as the code has it.  When [previousPlayerId] is non-empty and names
    a player of the room: if the stored name equals [playerName] the join
    is a reconnection, which adds no player, binds the connection to that
    player id, and touches only that player's status, and only when it is
    disconnected: then it becomes active in a lobby or ended room, and in a
    playing room active if the player has a role and waiting otherwise.  If
    the stored name differs the join appends a new player. *)
Theorem joinGame_reconnect_or_new (m : GameManager.t)
  (gameCode socketId playerName previousPlayerId playerId : string)
  (a : nat) (g : Game.t) (existingPlayer : Player.t) :
  GameManager.get m gameCode = Some (a, g) ->
  truthy previousPlayerId = true ->
  find_player (Some previousPlayerId) (Game.players g) = Some existingPlayer ->
  exists (m' : GameManager.t) (g' : Game.t) (joinedId : string),
    GameManager.joinGame m gameCode socketId playerName
      (Some previousPlayerId) playerId = (m', Joined joinedId)
    /\ GameManager.get m' gameCode = Some (a, g')
    /\ GameManager.playerSessions m' !! socketId
       = Some (Session.mk gameCode joinedId)
    /\ (Player.name existingPlayer = playerName ->
        joinedId = previousPlayerId
        /\ length (Game.players g') = length (Game.players g)
        /\ List.map Player.id (Game.players g')
           = List.map Player.id (Game.players g)
        /\ Forall2
             (fun p p' => p' = p \/ Player.id p = previousPlayerId)
             (Game.players g) (Game.players g')
        /\ exists p',
             find_player (Some previousPlayerId) (Game.players g') = Some p'
             /\ Player.status p'
                = match Player.status existingPlayer with
                  | PlayerStatus.disconnected =>
                      match Game.status g with
                      | RoomStatus.lobby | RoomStatus.ended =>
                          PlayerStatus.active
                      | RoomStatus.playing =>
                          match Player.role existingPlayer with
                          | Some _ => PlayerStatus.active
                          | None => PlayerStatus.waiting
                          end
                      end
                  | kept => kept
                  end)
    /\ (Player.name existingPlayer <> playerName ->
        joinedId = playerId
        /\ exists newPlayer,
             Game.players g' = Game.players g ++ [newPlayer]
             /\ Player.id newPlayer = playerId
             /\ Player.role newPlayer = None
             /\ Player.status newPlayer
                = match Game.status g with
                  | RoomStatus.playing => PlayerStatus.waiting
                  | _ => PlayerStatus.active
                  end).
Proof.
  intros Hget Htruthy Hfind.
  unfold GameManager.joinGame. rewrite Hget.
  unfold joinGame, reconnecting. rewrite Htruthy, Hfind.
  pose proof (find_player_id _ _ _ Hfind) as Hid.
  destruct (Player.name existingPlayer =? playerName) eqn:Hname.
  - apply String.eqb_eq in Hname. rewrite Hid.
    eexists _, _, previousPlayerId. split_and!; [reflexivity| | | |done].
    + exact (get_put m gameCode a g _ Hget).
    + simpl. by rewrite lookup_insert_eq.
    + intros _. split_and!; [done| | | |].
      * apply update_player_length.
      * apply update_player_map, reconnect_id.
      * clear Hfind. induction (Game.players g) as [|p r IH];
          simpl; [constructor|].
        destruct (Player.id p =? previousPlayerId) eqn:Hp.
        -- constructor; [right; by apply String.eqb_eq|].
           clear. induction r; constructor; auto.
        -- constructor; auto.
      * cbn [Game.players Game.set_players].
        rewrite (find_update_player _ _ _ (reconnect_id g)), Hfind.
        eexists. split; [reflexivity|].
        unfold reconnect, restored_status, Player.is_disconnected.
        destruct (Player.status existingPlayer) eqn:Hst; simpl;
          rewrite ?Hst; try done;
          by destruct (Game.status g), (Player.role existingPlayer).
  - apply String.eqb_neq in Hname.
    replace (negb (joinable g)) with false
      by (unfold joinable; by destruct (Game.status g)).
    eexists _, _, playerId. split_and!; [reflexivity| | |done|].
    + exact (get_put m gameCode a g _ Hget).
    + simpl. by rewrite lookup_insert_eq.
    + intros _. split; [done|]. eexists.
      cbn [addSystemMessage addChatMessage Game.players Game.set_chatHistory
           Game.set_players].
      split.
      * f_equal. by destruct (length (Game.players g) =? 0)%nat.
      * split_and!; [reflexivity..|].
        simpl. by destruct (Game.status g).
Qed.

(** C9 as the specification states it fails for a player who is not
    disconnected: Bob, voted out in round 1 and still connected, opens a
    second tab.  The join is a reconnection (same roster, the new socket is
    bound to "b") in a playing room, Bob has a role, and his status stays
    [eliminated] instead of becoming [active]. *)
Lemma second_tab_keeps_status :
  (Scenario.statuses <$> Scenario.room 0 (Server.run Scenario.bob_out))
  = Some [("a", PlayerStatus.active); ("b", PlayerStatus.eliminated);
          ("c", PlayerStatus.active); ("d", PlayerStatus.active)]
  /\ (Game.status <$> Scenario.room 0 (Server.run Scenario.bob_out))
     = Some RoomStatus.playing
  /\ (Scenario.roles <$> Scenario.room 0 (Server.run Scenario.bob_out))
     = Some [("a", Some Role.imposter); ("b", Some Role.civilian);
             ("c", Some Role.civilian); ("d", Some Role.civilian)]
  /\ GameManager.getPlayerId (Scenario.manager Scenario.second_tab) "s5"
     = Some "b"
  /\ (Scenario.statuses <$> Scenario.room 0 (Server.run Scenario.second_tab))
     = Some [("a", PlayerStatus.active); ("b", PlayerStatus.eliminated);
             ("c", PlayerStatus.active); ("d", PlayerStatus.active)].
Proof. vm_compute. repeat split; reflexivity. Qed.

Lemma joinGame_reconnect_or_new_witness :
  GameManager.get (Scenario.manager Scenario.dropped3) Scenario.code
  = Some (0, Scenario.the_room Scenario.dropped3)
  /\ truthy "c" = true
  /\ (exists existingPlayer,
        find_player (Some "c")
          (Game.players (Scenario.the_room Scenario.dropped3))
        = Some existingPlayer
        /\ Player.name existingPlayer = "Carol"
        /\ Player.status existingPlayer = PlayerStatus.disconnected)
  /\ exists m' g' joinedId,
       GameManager.joinGame (Scenario.manager Scenario.dropped3) Scenario.code
         "s5" "Carol" (Some "c") "e" = (m', Joined joinedId)
       /\ GameManager.get m' Scenario.code = Some (0, g')
       /\ joinedId = "c"
       /\ length (Game.players g') = 3.
Proof.
  assert (GameManager.get (Scenario.manager Scenario.dropped3) Scenario.code
          = Some (0, Scenario.the_room Scenario.dropped3)) as Hget
    by (vm_compute; reflexivity).
  assert (find_player (Some "c")
            (Game.players (Scenario.the_room Scenario.dropped3))
          = Some (Player.mk "c" "Carol" (Some Role.civilian) (Some "cat")
                    PlayerStatus.disconnected 0 false false false)) as Hfind
    by (vm_compute; reflexivity).
  split; [exact Hget|]. split; [reflexivity|].
  split; [eexists; split; [exact Hfind|split; reflexivity]|].
  destruct (joinGame_reconnect_or_new
              (Scenario.manager Scenario.dropped3) Scenario.code "s5" "Carol"
              "c" "e" 0 _ _ Hget eq_refl Hfind)
    as (m' & g' & joinedId & Hjoin & Hget' & _ & Hsame & _).
  exists m', g', joinedId.
  destruct (Hsame eq_refl) as (-> & Hlen & _).
  split; [exact Hjoin|]. split; [exact Hget'|]. split; [reflexivity|].
  rewrite Hlen. vm_compute. reflexivity.
Defined.

(** ** Failures and the room state (C1) *)

Lemma put_same m gameCode a g :
  GameManager.get m gameCode = Some (a, g) -> GameManager.put a g m = m.
Proof.
  unfold GameManager.get, GameManager.put, GameManager.set_rooms.
  destruct (GameManager.games m !! gameCode) as [a'|]; [|done]. simpl.
  destruct (GameManager.rooms m !! a') as [g0|] eqn:Hg0; [|done].
  intros [= -> ->]. rewrite list_insert_id by done. by destruct m.
Qed.

Lemma update_player_fixed i f ps p :
  find_player (Some i) ps = Some p -> f p = p -> update_player i f ps = ps.
Proof.
  induction ps as [|q r IH]; [done|]. simpl.
  destruct (Player.id q =? i).
  - intros [= ->] ->. done.
  - intros H1 H2. by rewrite IH.
Qed.

(** C1, as the code has it.  A failed operation leaves the manager as it
    was, with three exceptions that the methods make before they fail:
    [startGame] failing with [NotEnoughPlayers] has removed the disconnected
    players from the roster; [submitDescription] failing with [WrongPhase],
    [NotYourTurn] or [AlreadyDescribed] and [submitVote] failing with
    [AlreadyVoted] have set the requester's status to active if it was
    disconnected.  Nothing else of the room changes. *)
Theorem failure_leaves_room (m m' : GameManager.t) (gameCode : string)
  (f : Failure) :
  (forall playerId e,
     GameManager.startGame m gameCode playerId e = (m', Error f) ->
     ((f = RoomNotFound \/ f = NotHost) /\ m' = m)
     \/ (f = NotEnoughPlayers
         /\ exists a g,
              GameManager.get m gameCode = Some (a, g)
              /\ m' = GameManager.put a
                        (Game.set_players
                           (List.filter
                              (fun p => negb (Player.is_disconnected p))
                              (Game.players g)) g) m))
  /\ (forall playerId description,
        GameManager.submitDescription m gameCode playerId description
        = (m', Error f) ->
        ((f = RoomNotFound \/ f = PlayerNotFound) /\ m' = m)
        \/ ((f = WrongPhase \/ f = NotYourTurn \/ f = AlreadyDescribed)
            /\ exists a g player,
                 GameManager.get m gameCode = Some (a, g)
                 /\ find_player playerId (Game.players g) = Some player
                 /\ m' = GameManager.put a
                           (Game.set_players
                              (update_player (Player.id player) auto_reconnect
                                 (Game.players g)) g) m))
  /\ (forall voterId candidateId,
        GameManager.submitVote m gameCode voterId candidateId
        = GameManager.Ok m' (Error f) ->
        ((f = RoomNotFound \/ f = WrongPhase \/ f = PlayerNotFound
          \/ f = CannotVote) /\ m' = m)
        \/ (f = AlreadyVoted
            /\ exists a g voter,
                 GameManager.get m gameCode = Some (a, g)
                 /\ find_player voterId (Game.players g) = Some voter
                 /\ m' = GameManager.put a
                           (Game.set_players
                              (update_player (Player.id voter) auto_reconnect
                                 (Game.players g)) g) m))
  /\ (forall socketId playerName previousPlayerId playerId,
        GameManager.joinGame m gameCode socketId playerName previousPlayerId
          playerId = (m', Error f) ->
        f = RoomNotFound /\ m' = m)
  /\ (forall playerId e,
        GameManager.startNewGame m gameCode playerId e = (m', Error f) ->
        f = RoomNotFound /\ m' = m)
  /\ (forall playerId newName,
        GameManager.updatePlayerName m gameCode playerId newName
        = (m', Error f) ->
        (f = RoomNotFound \/ f = PlayerNotFound \/ f = EmptyName) /\ m' = m).
Proof.
  split_and!.
  - intros playerId e. unfold GameManager.startGame, GameManager.on_room.
    destruct (GameManager.get m gameCode) as [[a g]|] eqn:Hget;
      [|intros [= <- <-]; auto].
    unfold startGame.
    destruct (negb (bool_decide (Some (Game.creatorId g) = playerId))).
    { intros [= <- <-]. left. split; [auto|]. by eapply put_same. }
    cbn [Game.players Game.set_players].
    destruct (length _ <? 3)%nat; [|done].
    intros [= <- <-]. right. split; [done|]. by exists a, g.
  - intros playerId description.
    unfold GameManager.submitDescription, GameManager.on_room.
    destruct (GameManager.get m gameCode) as [[a g]|] eqn:Hget;
      [|intros [= <- <-]; auto].
    unfold submitDescription.
    destruct (find_player playerId (Game.players g)) as [player|] eqn:Hfind.
    2:{ intros [= <- <-]. left. split; [auto|]. by eapply put_same. }
    destruct (negb (phase_is _ _)).
    { intros [= <- <-]. right. split; [auto|]. by exists a, g, player. }
    destruct (negb (bool_decide _)).
    { intros [= <- <-]. right. split; [auto|]. by exists a, g, player. }
    destruct (Player.hasDescribed player); [|done].
    intros [= <- <-]. right. split; [auto|]. by exists a, g, player.
  - intros voterId candidateId. unfold GameManager.submitVote.
    destruct (GameManager.get m gameCode) as [[a g]|] eqn:Hget;
      [|intros [= <- <-]; auto].
    unfold submitVote.
    destruct (negb (phase_is _ _)).
    { intros [= <- <-]. left. split; [auto|]. by eapply put_same. }
    destruct (find_player voterId (Game.players g)) as [voter|] eqn:Hfind.
    2:{ intros [= <- <-]. left. split; [auto|]. by eapply put_same. }
    destruct (negb (Player.is_active (auto_reconnect voter))) eqn:Hact.
    { intros [= <- <-]. left. split; [auto 6|].
      destruct voterId as [v|]; [|done].
      rewrite (update_player_fixed _ _ _ voter).
      - destruct g. by eapply put_same.
      - by rewrite (find_player_id _ _ _ Hfind).
      - unfold auto_reconnect, Player.is_active, Player.is_disconnected,
          Player.set_status in *.
        by destruct (Player.status voter). }
    destruct (Player.hasVoted voter).
    { intros [= <- <-]. right. split; [done|]. by exists a, g, voter. }
    destruct (_ <=? _)%nat.
    + destruct (processVotingResults _) as [g' r|g'] eqn:Hp; [|done].
      unfold processVotingResults in Hp.
      destruct (eliminate _) as [[g1 el] w1].
      destruct (settle _ _) as [g2 w2].
      destruct (eliminated_player _ _); [|done].
      injection Hp as _ <-. done.
    + done.
  - intros socketId playerName previousPlayerId playerId.
    unfold GameManager.joinGame.
    destruct (GameManager.get m gameCode) as [[a g]|] eqn:Hget;
      [|intros [= <- <-]; auto].
    unfold joinGame.
    destruct (reconnecting _ _ _); [done|].
    replace (negb (joinable g)) with false
      by (unfold joinable; by destruct (Game.status g)).
    done.
  - intros playerId e. unfold GameManager.startNewGame, GameManager.on_room.
    destruct (GameManager.get m gameCode) as [[a g]|] eqn:Hget;
      [done|intros [= <- <-]; auto].
  - intros playerId newName.
    unfold GameManager.updatePlayerName, GameManager.on_room.
    destruct (GameManager.get m gameCode) as [[a g]|] eqn:Hget;
      [|intros [= <- <-]; auto].
    unfold updatePlayerName.
    destruct (find_player playerId (Game.players g)) as [player|].
    2:{ intros [= <- <-]. split; [auto|]. by eapply put_same. }
    destruct (_ || _); [|done].
    intros [= <- <-]. split; [auto|]. by eapply put_same.
Qed.

(** C1 as the specification states it fails.  Carol's connection has
    dropped in the lobby: the host's [startGame] fails with
    [NotEnoughPlayers] and Carol is gone from the roster.  Carol's
    connection has dropped in round 1: her [submitDescription] fails with
    [NotYourTurn] and her status is active again. *)
Lemma failure_changes_room :
  (snd (GameManager.startGame (Scenario.manager Scenario.short_lobby)
          Scenario.code (Some "a") Scenario.zero)
   = Error NotEnoughPlayers
   /\ Scenario.roster (Scenario.the_room Scenario.short_lobby)
      = ["a"; "b"; "c"]
   /\ (Scenario.roster
       <$> GameManager.rooms
             (fst (GameManager.startGame
                     (Scenario.manager Scenario.short_lobby)
                     Scenario.code (Some "a") Scenario.zero)) !! 0)
      = Some ["a"; "b"])
  /\ (snd (GameManager.submitDescription (Scenario.manager Scenario.dropped3)
             Scenario.code (Some "c") "purrs")
      = Error NotYourTurn
      /\ Scenario.statuses (Scenario.the_room Scenario.dropped3)
         = [("a", PlayerStatus.active); ("b", PlayerStatus.active);
            ("c", PlayerStatus.disconnected)]
      /\ (Scenario.statuses
          <$> GameManager.rooms
                (fst (GameManager.submitDescription
                        (Scenario.manager Scenario.dropped3)
                        Scenario.code (Some "c") "purrs")) !! 0)
         = Some [("a", PlayerStatus.active); ("b", PlayerStatus.active);
                 ("c", PlayerStatus.active)]).
Proof. vm_compute. repeat split; reflexivity. Qed.

Lemma failure_leaves_room_witness :
  GameManager.startGame (Scenario.manager Scenario.lobby3) Scenario.code
    (Some "b") Scenario.zero
  = (Scenario.manager Scenario.lobby3, Error NotHost)
  /\ GameManager.updatePlayerName (Scenario.manager Scenario.lobby3)
       Scenario.code (Some "b") "   "
     = (Scenario.manager Scenario.lobby3, Error EmptyName).
Proof.
  assert (GameManager.startGame (Scenario.manager Scenario.lobby3)
            Scenario.code (Some "b") Scenario.zero
          = (fst (GameManager.startGame (Scenario.manager Scenario.lobby3)
                    Scenario.code (Some "b") Scenario.zero), Error NotHost))
    as H1 by (vm_compute; reflexivity).
  assert (GameManager.updatePlayerName (Scenario.manager Scenario.lobby3)
            Scenario.code (Some "b") "   "
          = (fst (GameManager.updatePlayerName
                    (Scenario.manager Scenario.lobby3)
                    Scenario.code (Some "b") "   "), Error EmptyName))
    as H2 by (vm_compute; reflexivity).
  split.
  - destruct (proj1 (failure_leaves_room _ _ _ _) _ _ H1)
      as [[_ Hm]|[Hf _]]; [|discriminate Hf].
    etransitivity; [exact H1|].
    exact (f_equal (fun x => (x, Error NotHost)) Hm).
  - destruct (proj2 (proj2 (proj2 (proj2 (proj2
                (failure_leaves_room _ _ _ _))))) _ _ H2) as [_ Hm].
    etransitivity; [exact H2|].
    exact (f_equal (fun x => (x, Error EmptyName)) Hm).
Defined.

(** ** Runs *)

Lemma run_reachable evs m0 m :
  Server.reachable m0 -> Server.run_from m0 evs = Server.Running m ->
  Server.reachable m.
Proof.
  revert m0. induction evs as [|ev rest IH]; intros m0 H0; simpl.
  - by intros [= <-].
  - destruct (Server.step m0 ev) as [m1| |] eqn:Hstep; [|done..].
    apply IH. by eapply Server.reachable_step.
Qed.

(** ** Votes and the trigger of resolution (C8) *)

Lemma replace_length {V} k (v : V) o :
  length (JsObject.replace k v o) = length o.
Proof.
  induction o as [|[k' v'] r IH]; [done|]. simpl.
  destruct (k' =? k); simpl; congruence.
Qed.

Lemma place_length {V} n k (v : V) o :
  length (JsObject.place n k v o) = S (length o).
Proof.
  induction o as [|[k' v'] r IH]; [done|]. simpl.
  destruct (JsObject.array_index k') as [n'|]; [|done].
  destruct (n' <? n)%N; simpl; congruence.
Qed.

(** An assignment adds one own property unless the key is already there
    (or is [__proto__]). *)
Lemma set_length {V} k (v : V) o :
  length (JsObject.keys (JsObject.set k v o))
  = if (k =? "__proto__") || JsObject.has k o
    then length (JsObject.keys o) else S (length (JsObject.keys o)).
Proof.
  unfold JsObject.keys, JsObject.set. rewrite !length_map.
  destruct (k =? "__proto__"); [done|]. simpl.
  destruct (JsObject.has k o); [apply replace_length|].
  destruct (JsObject.array_index k); [apply place_length|].
  rewrite length_app. simpl. lia.
Qed.

Lemma filter_length_map {A} (P : A -> bool) (l l' : list A) :
  List.map P l = List.map P l' ->
  length (List.filter P l) = length (List.filter P l').
Proof.
  revert l'. induction l as [|x l IH]; intros [|y l']; try done.
  simpl. intros [= Hxy Hl]. rewrite Hxy.
  destruct (P y); simpl; by rewrite (IH l').
Qed.

Lemma auto_reconnect_capable p :
  Player.capable (auto_reconnect p) = Player.capable p.
Proof.
  unfold auto_reconnect, Player.is_disconnected, Player.capable.
  by destruct (Player.status p) eqn:H; simpl; rewrite ?H.
Qed.

(** C8, as the code has it.  When [submitVote] accepts a vote (voting
    phase, the voter is found, is active or disconnected and has not voted)
    it records it and runs vote resolution exactly when the number of
    recorded votes is then at least the number of active-or-disconnected
    players; otherwise the votes stay fewer than that number. *)
Theorem vote_triggers_resolution (g : Game.t) (voterId : option string)
  (candidateId : string) (voter : Player.t) :
  phase_is Phase.voting g = true ->
  find_player voterId (Game.players g) = Some voter ->
  Player.capable voter = true ->
  Player.hasVoted voter = false ->
  exists g1 : Game.t,
    Game.votes g1
    = JsObject.set (Player.id voter) candidateId (Game.votes g)
    /\ activeCount g1 = activeCount g
    /\ Game.gamePhase g1 = Phase.voting
    /\ (activeCount g1 <= length (JsObject.keys (Game.votes g1)) ->
        submitVote g voterId candidateId = processVotingResults g1)
    /\ (length (JsObject.keys (Game.votes g1)) < activeCount g1 ->
        submitVote g voterId candidateId = Returned g1 VoteUpdate).
Proof.
  intros Hphase Hfind Hcap Hvoted. unfold submitVote.
  rewrite Hphase, Hfind, Hvoted. cbn [negb].
  replace (Player.is_active (auto_reconnect voter)) with true.
  2:{ unfold auto_reconnect, Player.is_active, Player.is_disconnected,
        Player.capable in *.
      by destruct (Player.status voter) eqn:H; simpl; rewrite ?H. }
  cbn [negb].
  exists (Game.set_players
            (update_player (Player.id voter) (Player.set_hasVoted true)
               (update_player (Player.id voter) auto_reconnect
                  (Game.players g)))
            (Game.set_votes
               (JsObject.set (Player.id voter) candidateId (Game.votes g))
               (Game.set_players
                  (update_player (Player.id voter) auto_reconnect
                     (Game.players g)) g))).
  split; [reflexivity|].
  split; [|split].
  - unfold activeCount. cbn [Game.players Game.set_players Game.set_votes].
    apply filter_length_map.
    rewrite update_player_map by done.
    apply update_player_map, auto_reconnect_capable.
  - unfold phase_is in Hphase. cbn [Game.gamePhase Game.set_players
      Game.set_votes]. by destruct (Game.gamePhase g).
  - split; intros H.
    + apply Nat.leb_le in H. unfold activeCount in *.
      cbn [Game.players Game.set_players Game.votes Game.set_votes] in *.
      by rewrite H.
    + apply Nat.leb_gt in H. unfold activeCount in *.
      cbn [Game.players Game.set_players Game.votes Game.set_votes] in *.
      by rewrite H.
Qed.

(** C8 as the specification states it fails: after three of four votes,
    Carol and Dave drop and the host emits 'start-game'; the call prunes
    them and fails, leaving three recorded votes for two
    active-or-disconnected players, in the voting phase, unresolved. *)
Lemma votes_exceed_active_count :
  (Game.votes
   <$> Scenario.room 0
         (Server.run
            (Scenario.three_votes
             ++ [Server.start_game "s1" Scenario.code Scenario.zero])))
  = Some [("a", "none"); ("b", "none"); ("c", "none")]
  /\ (activeCount
      <$> Scenario.room 0
            (Server.run
               (Scenario.three_votes
                ++ [Server.start_game "s1" Scenario.code Scenario.zero])))
     = Some 2
  /\ (Game.gamePhase
      <$> Scenario.room 0
            (Server.run
               (Scenario.three_votes
                ++ [Server.start_game "s1" Scenario.code Scenario.zero])))
     = Some Phase.voting
  /\ Server.reachable
       (Scenario.manager
          (Scenario.three_votes
           ++ [Server.start_game "s1" Scenario.code Scenario.zero])).
Proof.
  split_and!; [vm_compute; reflexivity..|].
  apply (run_reachable
           (Scenario.three_votes
            ++ [Server.start_game "s1" Scenario.code Scenario.zero])
           GameManager.empty); [constructor|].
  vm_compute. reflexivity.
Qed.

Lemma vote_triggers_resolution_witness :
  phase_is Phase.voting (Scenario.the_room Scenario.described4) = true
  /\ (exists voter,
        find_player (Some "a")
          (Game.players (Scenario.the_room Scenario.described4)) = Some voter
        /\ Player.capable voter = true
        /\ Player.hasVoted voter = false)
  /\ exists g1,
       submitVote (Scenario.the_room Scenario.described4) (Some "a") "none"
       = Returned g1 VoteUpdate
       /\ Game.votes g1 = [("a", "none")]
       /\ activeCount g1 = 4.
Proof.
  assert (find_player (Some "a")
            (Game.players (Scenario.the_room Scenario.described4))
          = Some (Player.mk "a" "Alice" (Some Role.imposter) (Some "dog")
                    PlayerStatus.active 0 true false true)) as Hfind
    by (vm_compute; reflexivity).
  split; [vm_compute; reflexivity|].
  split; [eexists; split; [exact Hfind|split; reflexivity]|].
  destruct (vote_triggers_resolution
              (Scenario.the_room Scenario.described4) (Some "a") "none" _
              eq_refl Hfind eq_refl eq_refl)
    as (g1 & Hvotes & Hcount & _ & _ & Hlt).
  exists g1. split; [|split].
  - apply Hlt. rewrite Hvotes, Hcount. vm_compute. lia.
  - rewrite Hvotes. vm_compute. reflexivity.
  - rewrite Hcount. vm_compute. reflexivity.
Defined.

(** The other trigger: the grace timeout of an in-game disconnect, firing
    in the voting phase of a playing room for a player still disconnected,
    runs resolution exactly when the votes are at least the number of
    active-or-disconnected players and that number is positive. *)
Lemma grace_timeout_resolution (g : Game.t) (playerId : string)
  (p : Player.t) :
  find_player (Some playerId) (Game.players g) = Some p ->
  Player.is_disconnected p = true ->
  Game.status g = RoomStatus.playing ->
  Game.gamePhase g = Phase.voting ->
  gameGraceExpired g playerId
  = if (activeCount g <=? length (JsObject.keys (Game.votes g)))%nat
       && (0 <? activeCount g)%nat
    then match processVotingResults
                 (addSystemMessage g (Player.name p +:+ " disconnected")) with
         | Returned g1 _ => Returned (grace_win_check g1 p) ()
         | Thrown g1 => Thrown g1
         end
    else Returned
           (grace_win_check
              (addSystemMessage g (Player.name p +:+ " disconnected")) p) ().
Proof.
  intros Hfind Hdis Hst Hph. unfold gameGraceExpired.
  rewrite Hfind, Hdis.
  assert (forall t, Game.status (addSystemMessage g t) = RoomStatus.playing)
    as Hst' by (intros; exact Hst).
  assert (forall t, Game.gamePhase (addSystemMessage g t) = Phase.voting)
    as Hph' by (intros; exact Hph).
  rewrite Hst'. unfold phase_is. rewrite !Hph'. cbn [andb].
  rewrite !Hph'. reflexivity.
Qed.

(** ** Turn order (C4) *)

Lemma insert_head_Permutation {A} (r : list A) (j : nat) (b x : A) :
  r !! j = Some b -> b :: <[j := x]> r ≡ₚ x :: r.
Proof.
  revert j. induction r as [|y r IH]; intros [|j]; try done; simpl.
  - intros [= ->]. apply perm_swap.
  - intros H. rewrite perm_swap, (IH _ H). apply perm_swap.
Qed.

Lemma swap_Permutation {A} (i j : nat) (l : list A) : swap i j l ≡ₚ l.
Proof.
  unfold swap.
  destruct (l !! i) as [a|] eqn:Ha; [|done].
  destruct (l !! j) as [b|] eqn:Hb; [|done].
  revert i j Ha Hb. induction l as [|x r IH]; intros [|i] [|j]; try done; simpl.
  - by intros [= ->] [= ->].
  - intros [= ->] H. by apply insert_head_Permutation.
  - intros H [= ->]. by apply insert_head_Permutation.
  - intros H1 H2. by rewrite (IH _ _ H1 H2).
Qed.

(** The shuffle reorders its argument. *)
Lemma shuffle_Permutation {A} draws (l : list A) : shuffle draws l ≡ₚ l.
Proof.
  unfold shuffle. generalize (length l - 1). intros i. revert l.
  induction i as [|i IH]; intros l; [done|]. simpl.
  by rewrite IH, swap_Permutation.
Qed.

(** C4, as the code has it.  Round start leaves a turn order that is a
    reordering of the ids of the players then active or disconnected, and
    leaves the turn either in the description phase on an entry whose
    player is active or disconnected, or in the voting phase at -1.  Each
    [advanceTurn] leaves the turn in the same way (keeping the phase when
    it finds a player).  Nothing re-establishes this when the roster or a
    status changes afterwards. *)
Theorem turn_order_after_round_start (g : Game.t) (e : Entropy) :
  (Game.turnOrder (startRound g e)
   ≡ₚ List.map Player.id
        (List.filter Player.capable (Game.players (startRound g e)))
   /\ ((Game.gamePhase (startRound g e) = Phase.voting
        /\ Game.currentTurnIndex (startRound g e) = (-1)%Z)
       \/ (Game.gamePhase (startRound g e) = Phase.description
           /\ exists (i : nat) (pid : string) (p : Player.t),
                Game.currentTurnIndex (startRound g e) = Z.of_nat i
                /\ Game.turnOrder (startRound g e) !! i = Some pid
                /\ find_player (Some pid) (Game.players (startRound g e))
                   = Some p
                /\ Player.capable p = true)))
  /\ (Game.turnOrder (advanceTurn g) = Game.turnOrder g
      /\ Game.players (advanceTurn g) = Game.players g
      /\ ((Game.gamePhase (advanceTurn g) = Phase.voting
           /\ Game.currentTurnIndex (advanceTurn g) = (-1)%Z)
          \/ (Game.gamePhase (advanceTurn g) = Game.gamePhase g
              /\ exists (i : nat) (pid : string) (p : Player.t),
                   Game.currentTurnIndex (advanceTurn g) = Z.of_nat i
                   /\ Game.turnOrder (advanceTurn g) !! i = Some pid
                   /\ find_player (Some pid) (Game.players (advanceTurn g))
                      = Some p
                   /\ Player.capable p = true))).
Proof.
  split; [split|].
  - rewrite startRound_turnOrder.
    apply Permutation_map, shuffle_Permutation.
  - rewrite startRound_players, startRound_eq.
    autorewrite with announcement. rewrite advanceTurn_turnOrder.
    destruct (advanceTurn_settled (prepareRound g e)) as [Hv|[Hph Hi]];
      [by left|right].
    by rewrite Hph, prepareRound_gamePhase.
  - rewrite advanceTurn_turnOrder, advanceTurn_players.
    split; [done|]. split; [done|]. apply advanceTurn_settled.
Qed.

(** C4 as the specification states it fails: Carol's connection drops in
    round 1 and the host emits 'start-game' again; the call prunes Carol and
    fails for lack of players, and the turn order still lists her id. *)
Lemma turn_order_keeps_pruned_player :
  (Game.turnOrder
   <$> Scenario.room 0
         (Server.run
            (Scenario.dropped3
             ++ [Server.start_game "s1" Scenario.code Scenario.zero])))
  = Some ["b"; "c"; "a"]
  /\ (Scenario.roster
      <$> Scenario.room 0
            (Server.run
               (Scenario.dropped3
                ++ [Server.start_game "s1" Scenario.code Scenario.zero])))
     = Some ["a"; "b"]
  /\ (Game.gamePhase
      <$> Scenario.room 0
            (Server.run
               (Scenario.dropped3
                ++ [Server.start_game "s1" Scenario.code Scenario.zero])))
     = Some Phase.description
  /\ Server.reachable
       (Scenario.manager
          (Scenario.dropped3
           ++ [Server.start_game "s1" Scenario.code Scenario.zero])).
Proof.
  split_and!; [vm_compute; reflexivity..|].
  apply (run_reachable
           (Scenario.dropped3
            ++ [Server.start_game "s1" Scenario.code Scenario.zero])
           GameManager.empty); [constructor|].
  vm_compute. reflexivity.
Qed.

(** The timeout of a lobby disconnect can fire after the game has started:
    Bob refreshes in the lobby, the game starts, Bob's connection drops and
    the first timeout removes him from a playing room, where the turn is
    his. *)
Lemma lobby_timeout_fires_in_game :
  (Game.status <$> Scenario.room 0 (Server.run Scenario.late_lobby_timeout))
  = Some RoomStatus.playing
  /\ (Scenario.roster
      <$> Scenario.room 0 (Server.run Scenario.late_lobby_timeout))
     = Some ["a"; "c"]
  /\ (Game.turnOrder
      <$> Scenario.room 0 (Server.run Scenario.late_lobby_timeout))
     = Some ["b"; "c"; "a"]
  /\ (Game.currentTurnIndex
      <$> Scenario.room 0 (Server.run Scenario.late_lobby_timeout))
     = Some 0%Z.
Proof. vm_compute. repeat split; reflexivity. Qed.

(** ** Who leaves the roster (C3) *)

Lemma Forall2_same_map {A B} (f : A -> B) (l l' : list A) :
  Forall2 (fun x y => f y = f x) l l' -> List.map f l' = List.map f l.
Proof. induction 1; simpl; congruence. Qed.

Lemma map_id_map f ps :
  (forall p, Player.id (f p) = Player.id p) ->
  List.map Player.id (List.map f ps) = List.map Player.id ps.
Proof. intros Hf. rewrite map_map. apply map_ext. done. Qed.

Lemma add_bonus_id w p : Player.id (add_bonus w p) = Player.id p.
Proof. unfold add_bonus. by destruct (wins_bonus w p). Qed.

Lemma roster_kept_refl g : Scenario.roster_kept g g.
Proof. exists []. by rewrite app_nil_r. Qed.

Lemma roster_kept_same g g' :
  Scenario.roster g' = Scenario.roster g -> Scenario.roster_kept g g'.
Proof. intros H. exists []. by rewrite app_nil_r. Qed.

Lemma advanceTurn_roster g :
  Scenario.roster (advanceTurn g) = Scenario.roster g.
Proof. unfold Scenario.roster. by rewrite advanceTurn_players. Qed.

Lemma assign_roles_roster pr k s ps :
  List.map Player.id (assign_roles pr k s ps) = List.map Player.id ps.
Proof.
  apply Forall2_same_map.
  eapply Forall2_impl; [apply assign_roles_Forall2|]. by intros p q [H _].
Qed.

Lemma startRound_roster g e :
  Scenario.roster (startRound g e) = Scenario.roster g.
Proof.
  unfold Scenario.roster.
  rewrite startRound_players, prepareRound_players, map_id_map by done.
  destruct (Game.currentRound g =? 0)%nat; [|done].
  apply assign_roles_roster.
Qed.

Lemma processVotingResults_roster g :
  Scenario.roster (room_of (processVotingResults g)) = Scenario.roster g.
Proof.
  unfold processVotingResults.
  pose proof (eliminate_Forall2
    (fun p p' => Player.id p' = Player.id p)
    (Game.set_gamePhase Phase.results g) ltac:(done) ltac:(done)) as Hel.
  apply Forall2_same_map in Hel.
  destruct (eliminate _) as [[g1 elimId] w1]. simpl in Hel.
  assert (Scenario.roster (settle g1 w1).1 = Scenario.roster g) as Hs.
  { unfold settle, Scenario.roster. destruct w1; [done|].
    match goal with |- context [if ?c then _ else _] => destruct c end;
      [done|].
    cbn [fst Game.players Game.set_players].
    by rewrite map_id_map by apply award_id. }
  destruct (settle g1 w1) as [g2 w2]. simpl in Hs.
  destruct (eliminated_player g2 elimId); [|done].
  cbn [room_of]. unfold conclude. destruct w2; [|done].
  rewrite <- Hs. unfold Scenario.roster.
  rewrite addSystemMessage_players. cbn [Game.players Game.set_players
    Game.set_status Game.set_gamePhase Game.set_lastRoundResult].
  by rewrite map_id_map by apply add_bonus_id.
Qed.

Lemma update_player_roster i f ps :
  (forall p, Player.id (f p) = Player.id p) ->
  List.map Player.id (update_player i f ps) = List.map Player.id ps.
Proof. apply update_player_map. Qed.

Lemma auto_reconnect_id p : Player.id (auto_reconnect p) = Player.id p.
Proof. unfold auto_reconnect. by destruct (Player.is_disconnected p). Qed.

Lemma joinGame_roster g playerName previousPlayerId playerId :
  Scenario.roster_kept g
    (joinGame g playerName previousPlayerId playerId).1.
Proof.
  unfold joinGame. destruct (reconnecting _ _ _).
  - apply roster_kept_same. unfold Scenario.roster. simpl.
    apply update_player_roster, reconnect_id.
  - destruct (negb (joinable g)); [apply roster_kept_refl|].
    eexists. unfold Scenario.roster.
    cbn [fst]. rewrite addSystemMessage_players.
    cbn [Game.players Game.set_players]. rewrite map_app.
    f_equal. by destruct (length (Game.players g) =? 0)%nat.
Qed.

(** [startGame] keeps the roster when the requester is not the creator;
    otherwise the roster it leaves, failed or not, is the players that were
    not disconnected. *)
Lemma startGame_roster g playerId e :
  Scenario.roster (startGame g playerId e).1 = Scenario.roster g
  \/ (playerId = Some (Game.creatorId g)
      /\ Scenario.roster (startGame g playerId e).1
         = List.map Player.id
             (List.filter (fun p => negb (Player.is_disconnected p))
                (Game.players g))).
Proof.
  unfold startGame.
  destruct (bool_decide (Some (Game.creatorId g) = playerId)) eqn:Hc;
    cbn [negb]; [|by left].
  apply bool_decide_eq_true in Hc. right. split; [done|].
  cbn [Game.players Game.set_players].
  destruct (length _ <? 3)%nat; [done|].
  cbn [fst]. by rewrite startRound_roster.
Qed.

Lemma submitDescription_roster g playerId description :
  Scenario.roster (submitDescription g playerId description).1
  = Scenario.roster g.
Proof.
  unfold submitDescription.
  destruct (find_player playerId (Game.players g)) as [player|]; [|done].
  assert (Scenario.roster
            (Game.set_players
               (update_player (Player.id player) auto_reconnect
                  (Game.players g)) g) = Scenario.roster g) as H1
    by apply update_player_roster, auto_reconnect_id.
  destruct (negb (phase_is _ _)); [done|].
  destruct (negb (bool_decide _)); [done|].
  destruct (Player.hasDescribed player); [done|].
  cbn [fst]. rewrite advanceTurn_roster. unfold Scenario.roster.
  cbn [addChatMessage Game.players Game.set_chatHistory Game.set_players].
  rewrite update_player_roster by done.
  apply update_player_roster, auto_reconnect_id.
Qed.

Lemma submitVote_roster g voterId candidateId :
  Scenario.roster (room_of (submitVote g voterId candidateId))
  = Scenario.roster g.
Proof.
  unfold submitVote.
  destruct (negb (phase_is _ _)); [done|].
  destruct (find_player voterId (Game.players g)) as [voter|]; [|done].
  assert (Scenario.roster
            (Game.set_players
               (update_player (Player.id voter) auto_reconnect
                  (Game.players g)) g) = Scenario.roster g) as H1
    by apply update_player_roster, auto_reconnect_id.
  destruct (negb (Player.is_active _)); [done|].
  destruct (Player.hasVoted voter); [done|].
  match goal with |- context [if ?c then _ else _] => destruct c end.
  - rewrite processVotingResults_roster. unfold Scenario.roster.
    cbn [Game.players Game.set_players Game.set_votes].
    rewrite update_player_roster by done.
    apply update_player_roster, auto_reconnect_id.
  - cbn [room_of]. unfold Scenario.roster.
    cbn [Game.players Game.set_players Game.set_votes].
    rewrite update_player_roster by done.
    apply update_player_roster, auto_reconnect_id.
Qed.

Lemma startNewGame_roster g playerId e :
  Scenario.roster (startNewGame g playerId e).1 = Scenario.roster g.
Proof.
  unfold startNewGame. cbn [fst]. rewrite startRound_roster.
  unfold Scenario.roster. cbn [Game.players Game.set_players].
  by apply map_id_map.
Qed.

Lemma updatePlayerName_roster g playerId newName :
  Scenario.roster (updatePlayerName g playerId newName).1
  = Scenario.roster g.
Proof.
  unfold updatePlayerName.
  destruct (find_player playerId (Game.players g)) as [player|]; [|done].
  destruct (_ || _); [done|].
  cbn [fst]. unfold Scenario.roster. rewrite addSystemMessage_players.
  cbn [Game.players Game.set_players]. by apply update_player_roster.
Qed.

Lemma mark_disconnected_roster g playerId :
  Scenario.roster (mark_disconnected g playerId) = Scenario.roster g.
Proof. unfold mark_disconnected. by apply update_player_roster. Qed.

Lemma send_chat_roster g playerId message :
  Scenario.roster (Server.send_chat_room g playerId message)
  = Scenario.roster g.
Proof.
  unfold Server.send_chat_room.
  destruct (_ || _); [done|].
  by destruct (find_player _ _).
Qed.

(** The lobby timeout removes the player it was scheduled for, if that
    player is there and disconnected, and nobody else. *)
Lemma lobbyGraceExpired_roster g playerId :
  Scenario.roster (lobbyGraceExpired g playerId) = Scenario.roster g
  \/ exists p,
       find_player (Some playerId) (Game.players g) = Some p
       /\ Player.is_disconnected p = true
       /\ Scenario.roster (lobbyGraceExpired g playerId)
          = List.map Player.id (remove_player playerId (Game.players g)).
Proof.
  unfold lobbyGraceExpired.
  destruct (find_player (Some playerId) (Game.players g)) as [p|] eqn:Hfind;
    [|by left].
  destruct (Player.is_disconnected p) eqn:Hdis; [|by left].
  right. exists p. split; [done|]. split; [done|].
  destruct (Player.isCreator p); [|done].
  rewrite addSystemMessage_players. cbn [Game.players Game.set_players].
  by destruct (remove_player playerId (Game.players g)).
Qed.

Lemma grace_win_check_roster g p :
  Scenario.roster (grace_win_check g p) = Scenario.roster g.
Proof.
  unfold grace_win_check. destruct (Player.role p) as [[]|]; [|done..].
  by match goal with |- context [if ?c then _ else _] => destruct c end.
Qed.

Lemma gameGraceExpired_roster g playerId :
  Scenario.roster (room_of (gameGraceExpired g playerId)) = Scenario.roster g.
Proof.
  unfold gameGraceExpired.
  destruct (find_player (Some playerId) (Game.players g)) as [p|]; [|done].
  destruct (Player.is_disconnected p); [|done].
  rewrite addSystemMessage_status.
  destruct (Game.status g); [done| |done].
  match goal with
  | |- context [processVotingResults ?x] =>
      pose proof (processVotingResults_roster x) as Hp;
      assert (Scenario.roster x = Scenario.roster g) as Hx
  end.
  { match goal with |- context [if ?c then _ else _] => destruct c end;
      [|done]. by rewrite advanceTurn_roster. }
  match goal with |- context [if ?c then _ else _] => destruct c end.
  - destruct (processVotingResults _); cbn [room_of] in *.
    + rewrite grace_win_check_roster. congruence.
    + congruence.
  - cbn [room_of]. by rewrite grace_win_check_roster.
Qed.

Create HintDb roster.
#[local] Hint Resolve roster_kept_refl roster_kept_same joinGame_roster
  submitDescription_roster submitVote_roster startNewGame_roster
  updatePlayerName_roster mark_disconnected_roster send_chat_roster
  gameGraceExpired_roster startRound_roster : roster.

(** *** What one event does to the room objects *)

Lemma get_rooms m gameCode a g :
  GameManager.get m gameCode = Some (a, g) -> GameManager.rooms m !! a = Some g.
Proof.
  unfold GameManager.get.
  destruct (GameManager.games m !! gameCode) as [a'|]; [|done]. simpl.
  destruct (GameManager.rooms m !! a') as [g0|] eqn:Hg0; [|done].
  by intros [= <- <-].
Qed.

Lemma on_room_rooms m gameCode body :
  GameManager.rooms (GameManager.on_room m gameCode body).1
  = match GameManager.get m gameCode with
    | Some (a, g) => <[a := (body g).1]> (GameManager.rooms m)
    | None => GameManager.rooms m
    end.
Proof.
  unfold GameManager.on_room.
  destruct (GameManager.get m gameCode) as [[a g]|]; [|done].
  by destruct (body g).
Qed.

(** An event leaves the room objects alone, allocates one more, or
    replaces one room by the result of the room operation it runs. *)
Lemma step_rooms (m m' : GameManager.t) (ev : Server.Event) :
  Server.step m ev = Server.Running m'
  \/ Server.step m ev = Server.Crashed m' ->
  GameManager.rooms m' = GameManager.rooms m
  \/ (exists new, GameManager.rooms m' = GameManager.rooms m ++ [new])
  \/ exists (a : nat) (g g' : Game.t),
       GameManager.rooms m !! a = Some g
       /\ GameManager.rooms m' = <[a := g']> (GameManager.rooms m)
       /\ match ev with
          | Server.join_game _ _ playerName previousPlayerId playerId =>
              g' = (joinGame g playerName previousPlayerId playerId).1
          | Server.start_game socket _ e =>
              g' = (startGame g (GameManager.getPlayerId m socket) e).1
          | Server.submit_description socket _ description =>
              g' = (submitDescription g (GameManager.getPlayerId m socket)
                      description).1
          | Server.submit_vote socket _ votedPlayerId =>
              g' = room_of (submitVote g (GameManager.getPlayerId m socket)
                              votedPlayerId)
          | Server.send_chat socket _ message =>
              exists playerId, g' = Server.send_chat_room g playerId message
          | Server.start_new_game socket _ e =>
              g' = (startNewGame g (GameManager.getPlayerId m socket) e).1
          | Server.update_player_name socket _ newName =>
              g' = (updatePlayerName g (GameManager.getPlayerId m socket)
                      newName).1
          | Server.disconnect _ =>
              exists playerId, g' = mark_disconnected g playerId
          | Server.timeout k e =>
              match GameManager.timers m !! k with
              | Some (LobbyGrace _ playerId) =>
                  g' = lobbyGraceExpired g playerId
              | Some (GameGrace _ playerId) =>
                  g' = room_of (gameGraceExpired g playerId)
              | Some (NextRound _) => g' = startRound g e
              | None => False
              end
          | _ => False
          end.
Proof.
  intros Hstep. destruct ev; unfold Server.step in Hstep.
  - (* create-game *)
    destruct (GameManager.games m !! gameCode); [by destruct Hstep|].
    destruct Hstep as [[= <-]|[=]]. right. left. by eexists.
  - (* join-game *)
    destruct Hstep as [[= <-]|[=]]. unfold GameManager.joinGame.
    destruct (GameManager.get m gameCode) as [[a g]|] eqn:Hget; [|by left].
    right. right.
    exists a, g, (joinGame g playerName previousPlayerId playerId).1.
    split; [by eapply get_rooms|]. split; [|done].
    by destruct (joinGame g playerName previousPlayerId playerId) as [g' []].
  - (* start-game *)
    destruct Hstep as [[= <-]|[=]]. unfold GameManager.startGame.
    rewrite on_room_rooms.
    destruct (GameManager.get m gameCode) as [[a g]|] eqn:Hget; [|by left].
    right. right. exists a, g. eexists. split; [by eapply get_rooms|]. done.
  - (* submit-description *)
    destruct Hstep as [[= <-]|[=]]. unfold GameManager.submitDescription.
    rewrite on_room_rooms.
    destruct (GameManager.get m gameCode) as [[a g]|] eqn:Hget; [|by left].
    right. right. exists a, g. eexists. split; [by eapply get_rooms|]. done.
  - (* submit-vote *)
    unfold GameManager.submitVote in Hstep.
    destruct (GameManager.get m gameCode) as [[a g]|] eqn:Hget.
    2:{ destruct Hstep as [[= <-]|[=]]. by left. }
    right. right. exists a, g. eexists. split; [by eapply get_rooms|].
    split; [|reflexivity].
    destruct (submitVote g _ votedPlayerId) as [g1 r|g1]; cbn [room_of].
    + destruct r as [| | | | |[w|]|]; try by destruct Hstep as [[= <-]|[=]].
      destruct (GameManager.games _ !! gameCode);
        by destruct Hstep as [[= <-]|[=]].
    + by destruct Hstep as [[=]|[= <-]].
  - (* send-chat *)
    destruct (GameManager.get m gameCode) as [[a g]|] eqn:Hget;
      [|destruct Hstep as [[= <-]|[=]]; by left].
    destruct (GameManager.getPlayerId m socket) as [playerId|];
      [|destruct Hstep as [[= <-]|[=]]; by left].
    destruct (truthy playerId); destruct Hstep as [[= <-]|[=]]; [|by left].
    right. right. exists a, g. eexists. split; [by eapply get_rooms|].
    split; [reflexivity|]. by exists playerId.
  - (* start-new-game *)
    destruct Hstep as [[= <-]|[=]]. unfold GameManager.startNewGame.
    rewrite on_room_rooms.
    destruct (GameManager.get m gameCode) as [[a g]|] eqn:Hget; [|by left].
    right. right. exists a, g. eexists. split; [by eapply get_rooms|]. done.
  - (* update-player-name *)
    destruct Hstep as [[= <-]|[=]]. unfold GameManager.updatePlayerName.
    rewrite on_room_rooms.
    destruct (GameManager.get m gameCode) as [[a g]|] eqn:Hget; [|by left].
    right. right. exists a, g. eexists. split; [by eapply get_rooms|]. done.
  - (* disconnect *)
    destruct Hstep as [[= <-]|[=]]. unfold GameManager.leaveGame.
    destruct (GameManager.playerSessions m !! socket) as [session|];
      [|by left].
    destruct (GameManager.get _ _) as [[a g]|] eqn:Hget; [|by left].
    destruct (find_player _ _); [|by left].
    right. right. exists a, g. eexists.
    split; [exact (get_rooms _ _ _ _ Hget)|]. split; [|by eexists].
    by destruct (hasConnectedPlayers _).
  - (* a timeout fires *)
    destruct (GameManager.timers m !! k) as [timer|]; [|by destruct Hstep].
    unfold GameManager.expire in Hstep. destruct timer as [c i|c i|a].
    + destruct (GameManager.get _ c) as [[a g]|] eqn:Hget;
        destruct Hstep as [[= <-]|[=]]; [|by left].
      right. right. exists a, g. eexists.
      split; [exact (get_rooms _ _ _ _ Hget)|]. done.
    + destruct (GameManager.get _ c) as [[a g]|] eqn:Hget;
        [|destruct Hstep as [[= <-]|[=]]; by left].
      right. right. exists a, g. eexists.
      split; [exact (get_rooms _ _ _ _ Hget)|]. split; [|reflexivity].
      destruct (gameGraceExpired g i); cbn [room_of].
      * by destruct Hstep as [[= <-]|[=]].
      * by destruct Hstep as [[=]|[= <-]].
    + destruct (GameManager.rooms _ !! a) as [g|] eqn:Hg;
        destruct Hstep as [[= <-]|[=]]; [|by left].
      right. right. exists a, g. eexists. split; [exact Hg|]. done.
  - (* the deletion timeout fires *)
    destruct (bool_decide _); destruct Hstep as [[= <-]|[=]]. by left.
Qed.

(** C3, as the code has it.  Whatever the event, every room object keeps its
    roster (a join may extend it), with two exceptions: a 'start-game' from
    the creator's connection leaves exactly the players that were not
    disconnected, failed or not and whatever the room's status; and the
    timeout scheduled by a disconnect in the lobby removes the player it was
    scheduled for, if that player is disconnected when it fires.  No other
    operation or timeout removes a player. *)
Theorem roster_removal (m m' : GameManager.t) (ev : Server.Event) (a : nat)
  (g : Game.t) :
  Server.step m ev = Server.Running m'
  \/ Server.step m ev = Server.Crashed m' ->
  GameManager.rooms m !! a = Some g ->
  exists g' : Game.t,
    GameManager.rooms m' !! a = Some g'
    /\ (Scenario.roster_kept g g'
        \/ (exists socket gameCode e,
              ev = Server.start_game socket gameCode e
              /\ GameManager.getPlayerId m socket = Some (Game.creatorId g)
              /\ Scenario.roster g'
                 = List.map Player.id
                     (List.filter (fun p => negb (Player.is_disconnected p))
                        (Game.players g)))
        \/ (exists k e gameCode playerId p,
              ev = Server.timeout k e
              /\ GameManager.timers m !! k = Some (LobbyGrace gameCode playerId)
              /\ find_player (Some playerId) (Game.players g) = Some p
              /\ Player.is_disconnected p = true
              /\ Scenario.roster g'
                 = List.map Player.id
                     (remove_player playerId (Game.players g)))).
Proof.
  intros Hstep Hg.
  destruct (step_rooms m m' ev Hstep)
    as [->|[[new ->]|(a0 & g0 & g0' & Hg0 & -> & Hev)]].
  - exists g. split; [done|]. left. apply roster_kept_refl.
  - exists g. split; [by apply lookup_app_l_Some|]. left.
    apply roster_kept_refl.
  - destruct (decide (a = a0)) as [->|Hne].
    2:{ exists g. rewrite list_lookup_insert_ne by done.
        split; [done|]. left. apply roster_kept_refl. }
    rewrite Hg in Hg0. injection Hg0 as <-.
    exists g0'. split.
    { apply list_lookup_insert_eq. by eapply lookup_lt_Some. }
    destruct ev; try done;
      try (left; subst g0'; auto with roster; fail);
      try (left;
           match type of Hev with
           | ex _ => destruct Hev as [playerId ->]
           end; auto with roster; fail).
    + (* start-game *)
      subst g0'.
      destruct (startGame_roster g (GameManager.getPlayerId m socket) e)
        as [H|[H1 H2]]; [left; auto with roster|].
      right. left. by exists socket, gameCode, e.
    + (* a timeout fires *)
      destruct (GameManager.timers m !! k) as [[c i|c i|a']|] eqn:Hk;
        [| | |done]; subst g0'; [|left; auto with roster..].
      destruct (lobbyGraceExpired_roster g i) as [H|(p & H1 & H2 & H3)];
        [left; auto with roster|].
      right. right. by exists k, e, c, i, p.
Qed.

(** C3 as the specification states it fails: Dave's connection drops in
    round 1 and the host emits 'start-game' again; Dave is removed from the
    roster of a playing room, with no grace period expired. *)
Lemma start_game_prunes_in_game :
  (Game.status <$> Scenario.room 0 (Server.run Scenario.restart4))
  = Some RoomStatus.playing
  /\ (Scenario.roster <$> Scenario.room 0 (Server.run Scenario.restart4))
     = Some ["a"; "b"; "c"; "d"]
  /\ GameManager.timers (Scenario.manager Scenario.restart4)
     = [GameGrace Scenario.code "d"]
  /\ (Scenario.roster
      <$> Scenario.room 0
            (Server.run
               (Scenario.restart4
                ++ [Server.start_game "s1" Scenario.code Scenario.zero])))
     = Some ["a"; "b"; "c"]
  /\ Server.reachable
       (Scenario.manager
          (Scenario.restart4
           ++ [Server.start_game "s1" Scenario.code Scenario.zero])).
Proof.
  split_and!; [vm_compute; reflexivity..|].
  apply (run_reachable
           (Scenario.restart4
            ++ [Server.start_game "s1" Scenario.code Scenario.zero])
           GameManager.empty); [constructor|].
  vm_compute. reflexivity.
Qed.

Lemma roster_removal_witness :
  Server.step (Scenario.manager Scenario.restart4)
    (Server.start_game "s1" Scenario.code Scenario.zero)
  = Server.Running
      (Scenario.manager
         (Scenario.restart4
          ++ [Server.start_game "s1" Scenario.code Scenario.zero]))
  /\ GameManager.rooms (Scenario.manager Scenario.restart4) !! 0
     = Some (Scenario.the_room Scenario.restart4)
  /\ exists g',
       GameManager.rooms
         (Scenario.manager
            (Scenario.restart4
             ++ [Server.start_game "s1" Scenario.code Scenario.zero])) !! 0
       = Some g'
       /\ Scenario.roster g' = ["a"; "b"; "c"].
Proof.
  assert (Server.step (Scenario.manager Scenario.restart4)
            (Server.start_game "s1" Scenario.code Scenario.zero)
          = Server.Running
              (Scenario.manager
                 (Scenario.restart4
                  ++ [Server.start_game "s1" Scenario.code Scenario.zero])))
    as Hstep by (vm_compute; reflexivity).
  assert (GameManager.rooms (Scenario.manager Scenario.restart4) !! 0
          = Some (Scenario.the_room Scenario.restart4)) as Hroom
    by (vm_compute; reflexivity).
  split; [exact Hstep|]. split; [exact Hroom|].
  destruct (roster_removal _ _ _ 0 _ (or_introl Hstep) Hroom)
    as (g' & Hg' & _).
  exists g'. split; [exact Hg'|].
  revert Hg'. vm_compute. intros [= <-]. reflexivity.
Defined.

(** ** Objects as dictionaries *)

Section Dictionary.
Context {V : Type}.
Implicit Types (o : JsObject.t V) (k : string) (v : V).

Lemma has_keys k o : JsObject.has k o = true <-> In k (JsObject.keys o).
Proof.
  unfold JsObject.has. induction o as [|[k' v'] r IH]; simpl; [done|].
  destruct (String.eqb_spec k' k) as [->|Hne]; [tauto|].
  rewrite IH. split; [tauto|]. by intros [?|?].
Qed.

Lemma get_replace k v o k' :
  JsObject.get k' (JsObject.replace k v o)
  = if k =? k' then (fun _ => v) <$> JsObject.get k o else JsObject.get k' o.
Proof.
  induction o as [|[k0 v0] r IH]; simpl; [by destruct (k =? k')|].
  destruct (String.eqb_spec k0 k) as [->|Hne]; simpl.
  - by destruct (k =? k').
  - rewrite IH. destruct (String.eqb_spec k k') as [->|Hne'].
    + by destruct (String.eqb_spec k0 k').
    + done.
Qed.

Lemma get_place n k v o k' :
  JsObject.has k o = false ->
  JsObject.get k' (JsObject.place n k v o)
  = if k =? k' then Some v else JsObject.get k' o.
Proof.
  unfold JsObject.has.
  induction o as [|[k0 v0] r IH]; simpl; [done|].
  destruct (String.eqb_spec k0 k) as [->|Hne]; [done|]. intros Hk.
  destruct (JsObject.array_index k0) as [n0|]; [|done].
  destruct (n0 <? n)%N; [|done]. simpl. rewrite (IH Hk).
  destruct (String.eqb_spec k0 k') as [->|?]; [|done].
  by destruct (String.eqb_spec k k').
Qed.

Lemma get_append k v o k' :
  JsObject.has k o = false ->
  JsObject.get k' (o ++ [(k, v)])
  = if k =? k' then Some v else JsObject.get k' o.
Proof.
  unfold JsObject.has.
  induction o as [|[k0 v0] r IH]; simpl; [done|].
  destruct (String.eqb_spec k0 k) as [->|Hne]; [done|]. intros Hk.
  rewrite (IH Hk). destruct (String.eqb_spec k0 k') as [->|?]; [|done].
  by destruct (String.eqb_spec k k').
Qed.

(** Reading after writing. *)
Lemma get_set k v o k' :
  k <> "__proto__" ->
  JsObject.get k' (JsObject.set k v o)
  = if k =? k' then Some v else JsObject.get k' o.
Proof.
  intros Hk. unfold JsObject.set. apply String.eqb_neq in Hk. rewrite Hk.
  destruct (JsObject.has k o) eqn:Hhas.
  - rewrite get_replace. unfold JsObject.has in Hhas.
    by destruct (JsObject.get k o).
  - destruct (JsObject.array_index k); [by apply get_place|].
    by apply get_append.
Qed.

Lemma keys_replace k v o :
  JsObject.keys (JsObject.replace k v o) = JsObject.keys o.
Proof.
  induction o as [|[k0 v0] r IH]; simpl; [done|].
  destruct (String.eqb_spec k0 k) as [->|Hne]; simpl; [done|].
  f_equal. apply IH.
Qed.

Lemma keys_place n k v o :
  JsObject.keys (JsObject.place n k v o) ≡ₚ k :: JsObject.keys o.
Proof.
  induction o as [|[k0 v0] r IH]; simpl; [done|].
  destruct (JsObject.array_index k0) as [n0|]; [|done].
  destruct (n0 <? n)%N; [|done]. simpl.
  unfold JsObject.keys in IH. rewrite IH. apply perm_swap.
Qed.

(** Writing keeps the keys distinct. *)
Lemma keys_set_NoDup k v o :
  NoDup (JsObject.keys o) -> NoDup (JsObject.keys (JsObject.set k v o)).
Proof.
  intros Ho. unfold JsObject.set. destruct (k =? "__proto__"); [done|].
  destruct (JsObject.has k o) eqn:Hhas; [by rewrite keys_replace|].
  assert (~ In k (JsObject.keys o)) as Hk.
  { rewrite <- has_keys. by rewrite Hhas. }
  destruct (JsObject.array_index k).
  - rewrite keys_place. constructor; [|done]. by rewrite list_elem_of_In.
  - unfold JsObject.keys in *. rewrite map_app. simpl.
    apply NoDup_app. split; [done|]. split; [|apply NoDup_singleton].
    intros x Hx ->%list_elem_of_singleton. by apply Hk, list_elem_of_In.
Qed.

(** With distinct keys, the entries are what lookup returns. *)
Lemma get_entry k v o :
  NoDup (JsObject.keys o) -> In (k, v) o <-> JsObject.get k o = Some v.
Proof.
  induction o as [|[k0 v0] r IH]; simpl; [done|].
  intros [Hk0 Hr]%NoDup_cons. specialize (IH Hr).
  destruct (String.eqb_spec k0 k) as [->|Hne].
  - split.
    + intros [[= ->]|Hin]; [done|]. exfalso. apply Hk0.
      apply list_elem_of_In. by apply (in_map fst) in Hin.
    + intros [= ->]. by left.
  - rewrite <- IH. split; [|by right]. by intros [[= ? ?]|?].
Qed.

End Dictionary.

(** ** The tally and the plurality loop *)

Lemma inherited_proto k : JsObject.inherited k = false -> k <> "__proto__".
Proof. by intros H ->. Qed.

(** After the targets [seen], [voteCounts] holds exactly the number of
    occurrences of every target that occurs, provided no target is a name
    inherited from [Object.prototype]. *)
Lemma tally_counts (vals seen : list string) (o : JsObject.t cell) :
  Forall (fun t => JsObject.inherited t = false) vals ->
  NoDup (JsObject.keys o) ->
  (forall t, JsObject.get t o
             = match length (List.filter (String.eqb t) seen) with
               | 0 => None
               | S n => Some (Count (S n))
               end) ->
  NoDup (JsObject.keys (fold_left bump vals o))
  /\ forall t, JsObject.get t (fold_left bump vals o)
               = match length (List.filter (String.eqb t) (seen ++ vals)) with
                 | 0 => None
                 | S n => Some (Count (S n))
                 end.
Proof.
  revert seen o. induction vals as [|x vals IH]; intros seen o Hok Hnd Hget.
  - by rewrite app_nil_r.
  - apply Forall_cons in Hok as [Hx Hok]. simpl.
    replace (seen ++ x :: vals) with ((seen ++ [x]) ++ vals)
      by by rewrite <- app_assoc.
    pose proof (inherited_proto x Hx) as Hproto.
    apply IH; [done|..].
    + unfold bump. destruct (JsObject.get x o) as [[n|]|];
        [| |rewrite Hx]; by apply keys_set_NoDup.
    + intros t. unfold bump. rewrite List.filter_app, length_app. simpl.
      pose proof (Hget x) as Hgx. pose proof (Hget t) as Hgt.
      destruct (String.eqb_spec t x) as [->|Hne].
      * rewrite Hgx.
        destruct (length (List.filter (String.eqb x) seen)) as [|n]; simpl.
        -- rewrite Hx, get_set by done. by rewrite String.eqb_refl.
        -- rewrite get_set by done. rewrite String.eqb_refl.
           do 2 f_equal; lia.
      * assert ((x =? t) = false) as Hxt by (apply String.eqb_neq; congruence).
        rewrite Nat.add_0_r.
        destruct (JsObject.get x o) as [[n|]|]; [| |rewrite Hx];
          by rewrite get_set, Hxt.
Qed.

Lemma plurality_step_count max0 c0 k n :
  plurality_step (max0, c0) (k, Count n)
  = if (max0 <? n)%nat then (n, [k])
    else if (n =? max0)%nat then (max0, c0 ++ [k]) else (max0, c0).
Proof. reflexivity. Qed.

(** The loop over the entries: the maximum only grows, it is the initial
    one or a count of some entry, no entry counts more, and the candidates
    are the initial ones if the maximum stayed, plus the keys whose count is
    the maximum. *)
Lemma plurality_loop (l : JsObject.t cell) (max0 : nat) (c0 : list string) :
  let result := fold_left plurality_step l (max0, c0) in
  max0 <= result.1
  /\ (forall k n, In (k, Count n) l -> n <= result.1)
  /\ (result.1 = max0 \/ exists k, In (k, Count result.1) l)
  /\ (forall t, In t result.2
                <-> (In t c0 /\ result.1 = max0) \/ In (t, Count result.1) l).
Proof.
  revert max0 c0.
  induction l as [|[k [n|]] r IH]; intros max0 c0; cbn [fold_left In].
  - split_and!; [done|done|by left|]. intros t. simpl. tauto.
  - rewrite plurality_step_count.
    destruct (Nat.ltb_spec max0 n) as [Hlt|Hge].
    + destruct (IH n [k]) as (H1 & H2 & H3 & H4). split_and!.
      * lia.
      * intros k' n' [[= <- <-]|Hin]; [done|]. by eapply H2.
      * right. destruct H3 as [->|[k' Hk']]; [by exists k; left|].
        exists k'. by right.
      * intros t. rewrite H4. simpl. split.
        -- intros [[[<-|[]] ->]|Hin]; right; [by left|by right].
        -- intros [[_ Heq]|[[= -> Heq]|Hin]]; [lia| |by right].
           left. split; [by left|done].
    + destruct (Nat.eqb_spec n max0) as [->|Hne].
      * destruct (IH max0 (c0 ++ [k])) as (H1 & H2 & H3 & H4). split_and!.
        -- done.
        -- intros k' n' [[= <- <-]|Hin]; [done|]. by eapply H2.
        -- destruct H3 as [H3|[k' Hk']]; [by left|]. right.
           exists k'. by right.
        -- intros t. rewrite H4, in_app_iff. simpl. split.
           ++ intros [[[Hin|[<-|[]]] Heq]|Hin]; [by left| |by right; right].
              right. left. by rewrite Heq.
           ++ intros [[Hin Heq]|[[= -> Heq]|Hin]]; [left; tauto| |by right].
              left. split; [right; by left|done].
      * destruct (IH max0 c0) as (H1 & H2 & H3 & H4). split_and!.
        -- done.
        -- intros k' n' [[= <- <-]|Hin]; [lia|]. by eapply H2.
        -- destruct H3 as [H3|[k' Hk']]; [by left|]. right.
           exists k'. by right.
        -- intros t. rewrite H4. split; [tauto|].
           intros [?|[[= -> Heq]|?]]; [tauto|lia|tauto].
  - destruct (IH max0 c0) as (H1 & H2 & H3 & H4). split_and!.
    + done.
    + intros k' n' [[=]|Hin]. by eapply H2.
    + destruct H3 as [H3|[k' Hk']]; [by left|]. right. exists k'. by right.
    + intros t. rewrite H4. split; [tauto|]. by intros [?|[[=]|?]]; tauto.
Qed.

(** The candidates come out without repetition. *)
Lemma plurality_NoDup (l : JsObject.t cell) (max0 : nat) (c0 : list string) :
  NoDup (c0 ++ JsObject.keys l) ->
  NoDup (fold_left plurality_step l (max0, c0)).2.
Proof.
  revert max0 c0.
  induction l as [|[k [n|]] r IH]; intros max0 c0;
    cbn [fold_left JsObject.keys List.map fst].
  - by rewrite app_nil_r.
  - intros Hnd. rewrite plurality_step_count.
    destruct (max0 <? n)%nat.
    + apply IH. simpl. apply NoDup_app in Hnd as (_ & _ & Hnd). done.
    + destruct (n =? max0)%nat.
      * apply IH. by rewrite <- app_assoc.
      * apply IH. apply NoDup_app in Hnd as (H1 & H2 & H3).
        apply NoDup_cons in H3 as [_ H3]. apply NoDup_app. split; [done|].
        split; [|done]. intros x Hx Hin. apply (H2 x Hx). by right.
  - intros Hnd. apply IH. apply NoDup_app in Hnd as (H1 & H2 & H3).
    apply NoDup_cons in H3 as [_ H3]. apply NoDup_app. split; [done|].
    split; [|done]. intros x Hx Hin. apply (H2 x Hx). by right.
Qed.

(** The candidates are the plurality targets: the ids with at least one
    vote that no id beats, each listed once, as long as no vote names a
    property inherited from [Object.prototype]. *)
Lemma candidates_plurality (g : Game.t) :
  Forall (fun t => JsObject.inherited t = false)
    (JsObject.values (Game.votes g)) ->
  NoDup (candidates g)
  /\ forall t,
       In t (candidates g)
       <-> 0 < Scenario.votes_for t g
           /\ forall u, Scenario.votes_for u g <= Scenario.votes_for t g.
Proof.
  intros Hok. unfold candidates, plurality, tally, Scenario.votes_for.
  destruct (tally_counts (JsObject.values (Game.votes g)) [] [] Hok)
    as [Hnd Hget]; [constructor|done|].
  simpl in Hget.
  set (o := fold_left bump (JsObject.values (Game.votes g)) []) in *.
  assert (forall k n, In (k, Count n) o
            <-> length (List.filter (String.eqb k)
                          (JsObject.values (Game.votes g))) = n /\ 0 < n)
    as Hentry.
  { intros k n. rewrite (get_entry k (Count n) o Hnd), Hget.
    destruct (length _) as [|c]; split; try done.
    - intros [? ?]. lia.
    - intros [= <-]. split; [done|lia].
    - intros [<- _]. done. }
  destruct (plurality_loop o 0 []) as (_ & Hmax & Hsome & Hin).
  split; [by apply plurality_NoDup|].
  intros t. rewrite Hin, Hentry. split.
  - intros [[[] _]|[Ht Hpos]]. split; [lia|]. intros u.
    destruct (length (List.filter (String.eqb u) _)) as [|c] eqn:Hu; [lia|].
    rewrite Ht. apply (Hmax u). apply Hentry. split; [done|lia].
  - intros [Hpos Htop]. right.
    assert (In (t, Count (length (List.filter (String.eqb t)
                                    (JsObject.values (Game.votes g))))) o)
      as Ht by by apply Hentry.
    apply Hmax in Ht.
    destruct Hsome as [H0|[k Hk]]; [lia|].
    apply Hentry in Hk as [Hk _]. specialize (Htop k). split; lia.
Qed.

Lemma award_status p : Player.status (award p) = Player.status p.
Proof. unfold award. by destruct (Player.capable p). Qed.

Lemma add_bonus_status w p : Player.status (add_bonus w p) = Player.status p.
Proof. unfold add_bonus. by destruct (wins_bonus w p). Qed.

(** After the elimination branch no status changes any more. *)
Lemma processVotingResults_statuses g :
  List.map Player.status (Game.players (room_of (processVotingResults g)))
  = List.map Player.status
      (Game.players (eliminate (Game.set_gamePhase Phase.results g)).1.1).
Proof.
  unfold processVotingResults.
  destruct (eliminate _) as [[g1 elimId] w1]. cbn [fst].
  assert (List.map Player.status (Game.players (settle g1 w1).1)
          = List.map Player.status (Game.players g1)) as Hs.
  { unfold settle. destruct w1; [done|].
    match goal with |- context [if ?c then _ else _] => destruct c end;
      [done|].
    cbn [fst Game.players Game.set_players]. rewrite map_map.
    apply map_ext, award_status. }
  destruct (settle g1 w1) as [g2 w2]. cbn [fst] in Hs.
  destruct (eliminated_player g2 elimId); [|done].
  cbn [room_of]. unfold conclude. destruct w2; [|done].
  rewrite addSystemMessage_players. cbn [Game.players Game.set_players
    Game.set_status Game.set_gamePhase Game.set_lastRoundResult].
  rewrite <- Hs, map_map. apply map_ext, add_bonus_status.
Qed.

(** What the candidates decide: a single candidate other than 'none' has
    its player, if there is one, eliminated and nobody else's status
    changes; any other outcome changes no status. *)
Lemma resolution_statuses g :
  List.map Player.status (Game.players (room_of (processVotingResults g)))
  = match candidates g with
    | [t] =>
        if t =? "none" then List.map Player.status (Game.players g)
        else List.map Player.status
               (update_player t (Player.set_status PlayerStatus.eliminated)
                  (Game.players g))
    | _ => List.map Player.status (Game.players g)
    end.
Proof.
  rewrite processVotingResults_statuses. unfold eliminate.
  change (candidates (Game.set_gamePhase Phase.results g)) with (candidates g).
  destruct (candidates g) as [|t [|]]; [done| |done].
  destruct (t =? "none"); [done|].
  cbn [Game.players Game.set_gamePhase].
  destruct (find_player (Some t) (Game.players g)) eqn:Hfind; [done|].
  by rewrite update_player_absent.
Qed.

(** A single candidate who is the imposter ends the game for the
    civilians. *)
Lemma imposter_voted_out g t p :
  candidates g = [t] ->
  t <> "none" ->
  find_player (Some t) (Game.players g) = Some p ->
  Player.role p = Some Role.imposter ->
  exists g',
    processVotingResults g = Returned g' (RoundResults (Some Winner.civilians)).
Proof.
  intros Hc Hnone Hfind Hrole. unfold processVotingResults, eliminate.
  change (candidates (Game.set_gamePhase Phase.results g)) with (candidates g).
  rewrite Hc. apply String.eqb_neq in Hnone. rewrite Hnone.
  cbn [Game.players Game.set_gamePhase]. rewrite Hfind.
  unfold Player.has_role at 1. rewrite Hrole. cbn [settle].
  unfold eliminated_player. rewrite addSystemMessage_players.
  cbn [Game.players Game.set_players].
  rewrite find_update_player by done. rewrite Hfind. cbn [fmap option_fmap
    option_map]. destruct (truthy t); eauto.
Qed.

Lemma NoDup_only {A} (l : list A) (t : A) :
  NoDup l -> In t l -> (forall u, In u l -> u = t) -> l = [t].
Proof.
  intros Hnd Ht Hall. destruct l as [|x [|y r]]; [done| |].
  - f_equal. apply Hall. by left.
  - exfalso. apply NoDup_cons in Hnd as [Hx _].
    apply Hx. rewrite (Hall x), (Hall y); [by left|right; by left|by left].
Qed.

(** ** Vote resolution (C5) *)

(** X1.  What C5 states holds whenever no vote names a property that
    every object inherits from [Object.prototype]: if one id has more votes than
    every other id and it is not 'none', the first player with that id
    becomes eliminated, nobody else's status changes, and the civilians win
    if that player is the imposter; if two ids tie at the top, or 'none'
    alone is at the top, no status changes. *)
Lemma resolution_follows_plurality (g : Game.t) :
  Forall (fun t => JsObject.inherited t = false)
    (JsObject.values (Game.votes g)) ->
  (forall t,
     0 < Scenario.votes_for t g ->
     (forall u, u <> t -> Scenario.votes_for u g < Scenario.votes_for t g) ->
     t <> "none" ->
     List.map Player.status (Game.players (room_of (processVotingResults g)))
     = List.map Player.status
         (update_player t (Player.set_status PlayerStatus.eliminated)
            (Game.players g))
     /\ forall p,
          find_player (Some t) (Game.players g) = Some p ->
          Player.role p = Some Role.imposter ->
          exists g',
            processVotingResults g
            = Returned g' (RoundResults (Some Winner.civilians)))
  /\ (forall t u,
        t <> u ->
        0 < Scenario.votes_for t g ->
        Scenario.votes_for u g = Scenario.votes_for t g ->
        (forall x, Scenario.votes_for x g <= Scenario.votes_for t g) ->
        List.map Player.status
          (Game.players (room_of (processVotingResults g)))
        = List.map Player.status (Game.players g))
  /\ (0 < Scenario.votes_for "none" g ->
      (forall u, u <> "none" ->
                 Scenario.votes_for u g < Scenario.votes_for "none" g) ->
      List.map Player.status
        (Game.players (room_of (processVotingResults g)))
      = List.map Player.status (Game.players g)).
Proof.
  intros Hok. destruct (candidates_plurality g Hok) as [Hnd Hin].
  assert (forall t,
            0 < Scenario.votes_for t g ->
            (forall u, u <> t ->
                       Scenario.votes_for u g < Scenario.votes_for t g) ->
            candidates g = [t]) as Hsingle.
  { intros t Hpos Htop. apply NoDup_only; [done| |].
    - apply Hin. split; [done|]. intros u.
      destruct (decide (u = t)) as [->|Hne]; [done|].
      specialize (Htop u Hne). lia.
    - intros u Hu. apply Hin in Hu as [_ Hu].
      destruct (decide (u = t)) as [->|Hne]; [done|].
      specialize (Htop u Hne). specialize (Hu t). lia. }
  split_and!.
  - intros t Hpos Htop Hnone. pose proof (Hsingle t Hpos Htop) as Hc. split.
    + rewrite resolution_statuses, Hc.
      apply String.eqb_neq in Hnone. by rewrite Hnone.
    + intros p Hfind Hrole. by eapply imposter_voted_out.
  - intros t u Hne Hpos Heq Htop. rewrite resolution_statuses.
    assert (In t (candidates g)) as Ht by by apply Hin.
    assert (In u (candidates g)) as Hu.
    { apply Hin. rewrite Heq. done. }
    destruct (candidates g) as [|x [|y r]]; [done| |done].
    exfalso. apply Hne. destruct Ht as [<-|[]], Hu as [<-|[]]. done.
  - intros Hpos Htop. rewrite resolution_statuses.
    by rewrite (Hsingle "none" Hpos Htop).
Qed.

(** C5.  Four players vote: Alice and Dave name Bob, Bob and Carol name
    "toString".  Two ids tie at two votes each, so no elimination should
    follow; [voteCounts["toString"]] reads a function inherited from
    [Object.prototype], the two votes for it are never counted, and Bob is
    eliminated as the only candidate. *)
Theorem inherited_vote_eliminates :
  (Game.votes <$> Scenario.room 0 (Server.run Scenario.inherited_vote))
  = Some [("a", "b"); ("b", "toString"); ("c", "toString"); ("d", "b")]
  /\ (Scenario.votes_for "b"
      <$> Scenario.room 0 (Server.run Scenario.inherited_vote)) = Some 2
  /\ (Scenario.votes_for "toString"
      <$> Scenario.room 0 (Server.run Scenario.inherited_vote)) = Some 2
  /\ (candidates <$> Scenario.room 0 (Server.run Scenario.inherited_vote))
     = Some ["b"]
  /\ (Scenario.statuses <$> Scenario.room 0 (Server.run Scenario.described4))
     = Some [("a", PlayerStatus.active); ("b", PlayerStatus.active);
             ("c", PlayerStatus.active); ("d", PlayerStatus.active)]
  /\ (Scenario.statuses
      <$> Scenario.room 0 (Server.run Scenario.inherited_vote))
     = Some [("a", PlayerStatus.active); ("b", PlayerStatus.eliminated);
             ("c", PlayerStatus.active); ("d", PlayerStatus.active)].
Proof. vm_compute. repeat split; reflexivity. Qed.

(** ** The renaming loop finds a free name *)

Lemma length_append (s t : string) :
  String.length (s +:+ t) = String.length s + String.length t.
Proof. induction s as [|a s IH]; simpl; [done|]. by rewrite IH. Qed.

Lemma append_cancel_r (s1 s2 t : string) : s1 +:+ t = s2 +:+ t -> s1 = s2.
Proof.
  revert s2. induction s1 as [|a s1 IH]; intros [|b s2] H; [done|..].
  - apply (f_equal String.length) in H.
    rewrite !length_append in H. simpl in H. lia.
  - apply (f_equal String.length) in H.
    rewrite !length_append in H. simpl in H. lia.
  - simpl in H. injection H as -> H. f_equal. by apply IH.
Qed.

(** The numbered names are pairwise distinct and differ from the base. *)
Lemma numbered_inj (base : string) (i j : nat) :
  base +:+ " (" +:+ pretty i +:+ ")" = base +:+ " (" +:+ pretty j +:+ ")" ->
  i = j.
Proof.
  intros H. apply String.app_inj in H. apply String.app_inj in H.
  apply append_cancel_r in H. by apply (inj pretty).
Qed.

Lemma numbered_ne_base (base : string) (i : nat) :
  base +:+ " (" +:+ pretty i +:+ ")" <> base.
Proof.
  intros H. apply (f_equal String.length) in H.
  rewrite !length_append in H. simpl in H. lia.
Qed.

(** The loop, entered with [tried] already found taken: with more fuel
    left than free slots in the set [T] of taken names, it stops at a free
    name. *)
Lemma dedup_loop_free (taken : string -> bool) (base : string)
  (T tried : list string) (fuel counter : nat) (current : string) :
  (forall n, taken n = true -> In n T) ->
  NoDup (current :: tried) ->
  (forall n, In n tried -> taken n = true) ->
  (forall j, counter <= j ->
             ~ In (base +:+ " (" +:+ pretty j +:+ ")") (current :: tried)) ->
  length T < length tried + fuel ->
  taken (dedup_loop taken base fuel counter current) = false.
Proof.
  intros HT. revert tried counter current.
  induction fuel as [|fuel IH];
    intros tried counter current Hnd Htried Hnew Hlen.
  - exfalso. apply NoDup_cons in Hnd as [_ Hnd].
    assert (length tried <= length T); [|lia].
    apply NoDup_incl_length; [by apply NoDup_ListNoDup|].
    intros n Hn. auto.
  - simpl. destruct (taken current) eqn:Hcur; [|done].
    apply (IH (current :: tried)).
    + constructor; [|done]. rewrite list_elem_of_In. apply Hnew. lia.
    + intros n [<-|Hn]; auto.
    + intros j Hj [Heq|Hin].
      * apply numbered_inj in Heq. lia.
      * apply (Hnew j); [lia|done].
    + simpl. lia.
Qed.

(** [S (length ps)] tests are enough when at most [length ps] names are
    taken. *)
Lemma dedup_name_free (taken : string -> bool) (base : string)
  (ps : list Player.t) (T : list string) :
  (forall n, taken n = true -> In n T) ->
  length T <= length ps ->
  taken (dedup_name taken base ps) = false.
Proof.
  intros HT Hlen. unfold dedup_name.
  apply (dedup_loop_free taken base T []); [done|..].
  - apply NoDup_singleton.
  - by intros n [].
  - intros j _ [Heq|[]]. symmetry in Heq. by apply numbered_ne_base in Heq.
  - simpl. lia.
Qed.

(** The name a new player gets is the name of nobody in the room. *)
Lemma joinGame_name_free (ps : list Player.t) (playerName : string) :
  existsb
    (fun p =>
       Player.name p
       =? dedup_name (fun n => existsb (fun q => Player.name q =? n) ps)
            playerName ps)
    ps = false.
Proof.
  apply (dedup_name_free
           (fun n => existsb (fun q => Player.name q =? n) ps)
           playerName ps (List.map Player.name ps)).
  - intros n Hn. apply existsb_exists in Hn as (q & Hq & Heq).
    apply String.eqb_eq in Heq as <-. by apply in_map.
  - by rewrite length_map.
Qed.

(** * Further properties of the room operations *)

(** ** Vote resolution runs to completion *)

Lemma find_player_is_Some (t : string) (ps : list Player.t) :
  is_Some (find_player (Some t) ps) <-> In t (List.map Player.id ps).
Proof.
  unfold find_player. induction ps as [|p r IH]; simpl.
  - split; [by intros [? ?]|done].
  - destruct (String.eqb_spec (Player.id p) t) as [->|Hne].
    + split; [by left|eauto].
    + rewrite IH. split; [by right|]. by intros [?|?].
Qed.

Lemma keys_set_incl {V} (k k0 : string) (v : V) (o : JsObject.t V) :
  In k (JsObject.keys (JsObject.set k0 v o)) ->
  k = k0 \/ In k (JsObject.keys o).
Proof.
  unfold JsObject.set. destruct (k0 =? "__proto__"); [by right|].
  destruct (JsObject.has k0 o); [rewrite keys_replace; by right|].
  destruct (JsObject.array_index k0).
  - intros H. apply (Permutation_in _ (keys_place _ _ _ _)) in H.
    destruct H as [<-|?]; auto.
  - unfold JsObject.keys. rewrite map_app, in_app_iff. simpl.
    intros [?|[<-|[]]]; auto.
Qed.

(** [voteCounts] has no other keys than the targets of the votes. *)
Lemma tally_keys (vals : list string) (o : JsObject.t cell) (k : string) :
  In k (JsObject.keys (fold_left bump vals o)) ->
  In k vals \/ In k (JsObject.keys o).
Proof.
  revert o. induction vals as [|x vals IH]; intros o; simpl; [by right|].
  intros H. apply IH in H as [H|H]; [left; by right|].
  assert (k = x \/ In k (JsObject.keys o)) as [->|?];
    [|left; by left|by right].
  unfold bump in H.
  destruct (JsObject.get x o) as [[n|]|];
    [| |destruct (JsObject.inherited x)]; by apply keys_set_incl in H.
Qed.

Lemma candidates_voted (g : Game.t) (t : string) :
  In t (candidates g) -> In t (JsObject.values (Game.votes g)).
Proof.
  unfold candidates, plurality, tally.
  destruct (plurality_loop
              (fold_left bump (JsObject.values (Game.votes g)) []) 0 [])
    as (_ & _ & _ & Hin).
  intros Ht. apply Hin in Ht as [[[] _]|Ht].
  apply (in_map fst) in Ht. by apply tally_keys in Ht as [?|[]].
Qed.

Lemma settle_roster (g : Game.t) (w : option Winner.t) :
  List.map Player.id (Game.players (settle g w).1)
  = List.map Player.id (Game.players g).
Proof.
  unfold settle. destruct w; [done|].
  match goal with |- context [if ?c then _ else _] => destruct c end;
    [done|].
  cbn [fst Game.players Game.set_players].
  by rewrite map_id_map by apply award_id.
Qed.

Lemma eliminate_gamePhase (g : Game.t) :
  Game.gamePhase (eliminate g).1.1 = Game.gamePhase g.
Proof.
  unfold eliminate. destruct (candidates g) as [|t [|]]; [done| |done].
  destruct (t =? "none"); [done|].
  by destruct (find_player (Some t) (Game.players g)).
Qed.

Lemma settle_gamePhase (g : Game.t) (w : option Winner.t) :
  Game.gamePhase (settle g w).1 = Game.gamePhase g.
Proof.
  unfold settle. destruct w; [done|].
  by match goal with |- context [if ?c then _ else _] => destruct c end.
Qed.

(** X2.  When every recorded vote names 'none' or the id of a player of
    the room, vote resolution returns: it stores a summary whose winner is
    the one it reports, and leaves the phase [ended] if there is a winner
    and [results] otherwise. *)
Theorem resolution_completes (g : Game.t) :
  (forall t, In t (JsObject.values (Game.votes g)) ->
             t = "none" \/ In t (List.map Player.id (Game.players g))) ->
  exists (g' : Game.t) (w : option Winner.t) (r : RoundResult.t),
    processVotingResults g = Returned g' (RoundResults w)
    /\ Game.lastRoundResult g' = Some r
    /\ RoundResult.winner r = w
    /\ Game.gamePhase g'
       = match w with Some _ => Phase.ended | None => Phase.results end.
Proof.
  intros Hvotes. unfold processVotingResults.
  pose proof (eliminate_Forall2
    (fun p p' => Player.id p' = Player.id p)
    (Game.set_gamePhase Phase.results g) ltac:(done) ltac:(done)) as Hel.
  apply Forall2_same_map in Hel.
  assert (forall t,
            (eliminate (Game.set_gamePhase Phase.results g)).1.2 = Some t ->
            In t (List.map Player.id (Game.players g))) as Hin.
  { unfold eliminate.
    change (candidates (Game.set_gamePhase Phase.results g))
      with (candidates g).
    destruct (candidates g) as [|t0 [|]] eqn:Hc; [done| |done].
    destruct (String.eqb_spec t0 "none") as [->|Hne]; [done|].
    assert (In t0 (candidates g)) as Ht0 by (rewrite Hc; by left).
    apply candidates_voted, Hvotes in Ht0 as [?|Ht0]; [done|].
    cbn [Game.players Game.set_gamePhase].
    destruct (find_player _ _) as [q|]; by intros t [= <-]. }
  pose proof (eliminate_gamePhase (Game.set_gamePhase Phase.results g))
    as Hph.
  destruct (eliminate _) as [[g1 elimId] w1]. cbn [fst snd] in Hel, Hin, Hph.
  pose proof (settle_roster g1 w1) as Hs.
  pose proof (settle_gamePhase g1 w1) as Hph'. rewrite Hph in Hph'.
  destruct (settle g1 w1) as [g2 w2]. cbn [fst] in Hs, Hph'.
  assert (is_Some (eliminated_player g2 elimId)) as [elim Helim].
  { unfold eliminated_player. destruct elimId as [t|]; [|done].
    destruct (truthy t); [|done].
    destruct (find_player (Some t) (Game.players g2)) eqn:Hf; [done|].
    exfalso. specialize (Hin t eq_refl).
    cbn [Game.players Game.set_gamePhase] in Hel.
    rewrite <- Hel, <- Hs in Hin.
    apply find_player_is_Some in Hin. rewrite Hf in Hin. by destruct Hin. }
  rewrite Helim. eexists _, w2, _. split; [reflexivity|].
  unfold conclude. destruct w2; split_and!; try reflexivity. exact Hph'.
Qed.

(** The ballot of round 2: every vote names Alice, a player of the
    room. *)
Lemma resolution_completes_witness :
  exists (g' : Game.t) (w : option Winner.t) (r : RoundResult.t),
    processVotingResults Scenario.ballot = Returned g' (RoundResults w)
    /\ Game.lastRoundResult g' = Some r
    /\ RoundResult.winner r = w.
Proof.
  destruct (resolution_completes Scenario.ballot)
    as (g' & w & r & H1 & H2 & H3 & _).
  - intros t Ht. right. vm_compute in Ht. vm_compute. tauto.
  - by exists g', w, r.
Defined.

(** ** The outcome of a resolution *)

Lemma eliminate_winner (g : Game.t) (w : Winner.t) :
  (eliminate g).2 = Some w ->
  w = Winner.civilians
  /\ exists (t : string) (p : Player.t),
       candidates g = [t] /\ t <> "none"
       /\ find_player (Some t) (Game.players g) = Some p
       /\ Player.role p = Some Role.imposter.
Proof.
  unfold eliminate. destruct (candidates g) as [|t [|]]; [done| |done].
  destruct (String.eqb_spec t "none") as [->|Hne]; [done|].
  destruct (find_player (Some t) (Game.players g)) as [p|] eqn:Hf; [|done].
  cbn [snd]. unfold Player.has_role.
  destruct (Player.role p) as [[]|] eqn:Hr; try done.
  intros [= <-]. split; [done|]. by exists t, p.
Qed.

Lemma civilians_left_map (f : Player.t -> Player.t) (ps : list Player.t) :
  (forall p, Player.role (f p) = Player.role p) ->
  (forall p, Player.status (f p) = Player.status p) ->
  length (List.filter
            (fun p => Player.has_role Role.civilian p && Player.capable p)
            (List.map f ps))
  = length (List.filter
              (fun p => Player.has_role Role.civilian p && Player.capable p)
              ps).
Proof.
  intros Hrole Hstatus. apply filter_length_map.
  rewrite map_map. apply map_ext. intros p.
  unfold Player.has_role, Player.capable. by rewrite Hrole, Hstatus.
Qed.

Lemma award_role (p : Player.t) : Player.role (award p) = Player.role p.
Proof. unfold award. by destruct (Player.capable p). Qed.

Lemma add_bonus_role (w : Winner.t) (p : Player.t) :
  Player.role (add_bonus w p) = Player.role p.
Proof. unfold add_bonus. by destruct (wins_bonus w p). Qed.

(** X4.  What a resolution that returns reports: the civilians win only
    when a single plurality target other than 'none' is the id of a player
    whose role is imposter; otherwise the imposter wins when at most one
    civilian is left active or disconnected after the elimination, and the
    game goes on when at least two are. *)
Theorem resolution_outcome (g g' : Game.t) (w : option Winner.t) :
  processVotingResults g = Returned g' (RoundResults w) ->
  match w with
  | Some Winner.civilians =>
      exists (t : string) (p : Player.t),
        candidates g = [t] /\ t <> "none"
        /\ find_player (Some t) (Game.players g) = Some p
        /\ Player.role p = Some Role.imposter
  | Some Winner.imposter => Scenario.civilians_left g' <= 1
  | None => 2 <= Scenario.civilians_left g'
  end.
Proof.
  unfold processVotingResults.
  pose proof (eliminate_winner (Game.set_gamePhase Phase.results g)) as Hw.
  destruct (eliminate _) as [[g1 elimId] w1]. cbn [snd] in Hw.
  destruct (settle g1 w1) as [g2 w2] eqn:Hs.
  destruct (eliminated_player g2 elimId) as [elim|]; [|done].
  intros [= <- <-]. unfold settle in Hs. destruct w1 as [w1|].
  - injection Hs as <- <-. destruct (Hw w1 eq_refl) as [-> H]. exact H.
  - match type of Hs with
    | context [if ?c then _ else _] => destruct c eqn:Hc
    end; injection Hs as <- <-.
    + apply Nat.leb_le in Hc. unfold conclude, Scenario.civilians_left.
      rewrite addSystemMessage_players.
      cbn [Game.players Game.set_players Game.set_status Game.set_gamePhase
           Game.set_lastRoundResult].
      rewrite civilians_left_map;
        [done|apply add_bonus_role|apply add_bonus_status].
    + apply Nat.leb_gt in Hc. unfold conclude, Scenario.civilians_left.
      cbn [Game.players Game.set_players Game.set_lastRoundResult].
      rewrite civilians_left_map; [lia|apply award_role|apply award_status].
Qed.

(** Three abstentions in round 2: no winner, and Carol and Dave are the
    two civilians left. *)
Lemma resolution_outcome_witness :
  processVotingResults Scenario.abstentions
  = Returned (room_of (processVotingResults Scenario.abstentions))
      (RoundResults None)
  /\ 2 <= Scenario.civilians_left
            (room_of (processVotingResults Scenario.abstentions)).
Proof.
  assert (processVotingResults Scenario.abstentions
          = Returned (room_of (processVotingResults Scenario.abstentions))
              (RoundResults None)) as H by (vm_compute; reflexivity).
  split; [exact H|]. exact (resolution_outcome _ _ None H).
Defined.

(** ** The points of a round that decides nothing *)

(** X3.  When a resolution returns without a winner, every player who is
    active or disconnected after the elimination gains 10 points, 15 if
    the player's role is imposter; nobody else's points change, and ids and
    roles stay as they are. *)
Theorem round_award (g g' : Game.t) :
  processVotingResults g = Returned g' (RoundResults None) ->
  Forall2
    (fun p p' =>
       Player.id p' = Player.id p
       /\ Player.role p' = Player.role p
       /\ Player.points p'
          = Player.points p
            + if Player.capable p'
              then if Player.has_role Role.imposter p then 15 else 10
              else 0)
    (Game.players g) (Game.players g').
Proof.
  unfold processVotingResults.
  pose proof (eliminate_Forall2
    (fun p p' => Player.id p' = Player.id p /\ Player.role p' = Player.role p
                 /\ Player.points p' = Player.points p)
    (Game.set_gamePhase Phase.results g) ltac:(done) ltac:(done)) as Hel.
  destruct (eliminate _) as [[g1 elimId] w1]. cbn [fst] in Hel.
  destruct (settle g1 w1) as [g2 w2] eqn:Hs.
  destruct (eliminated_player g2 elimId); [|done].
  intros [= <- ->]. unfold settle in Hs. destruct w1; [done|].
  match type of Hs with
  | context [if ?c then _ else _] => destruct c
  end; [done|].
  injection Hs as <-.
  cbn [conclude Game.players Game.set_players Game.set_lastRoundResult
       Game.set_gamePhase] in *.
  apply Forall2_fmap_r. eapply Forall2_impl; [exact Hel|].
  intros p q (Hid & Hrole & Hpts).
  unfold award, Player.capable, Player.has_role.
  destruct p, q; simpl in *; subst.
  by repeat case_match; simpl; auto with lia.
Qed.

(** Three abstentions in round 2: Alice, the imposter, gains 15 points,
    Carol and Dave 10 each, and Bob, voted out before, none. *)
Lemma round_award_witness :
  Scenario.scores Scenario.abstentions
  = [("a", 15); ("b", 0); ("c", 10); ("d", 10)]
  /\ Scenario.scores (room_of (processVotingResults Scenario.abstentions))
     = [("a", 30); ("b", 0); ("c", 20); ("d", 20)]
  /\ Forall2
       (fun p p' => Player.id p' = Player.id p
                    /\ Player.role p' = Player.role p)
       (Game.players Scenario.abstentions)
       (Game.players (room_of (processVotingResults Scenario.abstentions))).
Proof.
  split; [vm_compute; reflexivity|]. split; [vm_compute; reflexivity|].
  eapply Forall2_impl.
  - apply (round_award Scenario.abstentions). vm_compute. reflexivity.
  - intros p p' (Hid & Hrole & _). by split.
Defined.

(** The plurality rule on the ballot of round 2, where the three votes
    name Alice: she is eliminated and nobody else's status changes. *)
Lemma resolution_follows_plurality_witness :
  Forall (fun t => JsObject.inherited t = false)
    (JsObject.values (Game.votes Scenario.ballot))
  /\ Scenario.votes_for "a" Scenario.ballot = 3
  /\ List.map Player.status
       (Game.players (room_of (processVotingResults Scenario.ballot)))
     = [PlayerStatus.eliminated; PlayerStatus.eliminated;
        PlayerStatus.active; PlayerStatus.active].
Proof.
  assert (Forall (fun t => JsObject.inherited t = false)
            (JsObject.values (Game.votes Scenario.ballot))) as Hok
    by (repeat constructor).
  split; [exact Hok|]. split; [reflexivity|].
  destruct (resolution_follows_plurality Scenario.ballot Hok) as (H & _ & _).
  destruct (H "a") as [-> _]; [vm_compute; lia| |done|reflexivity].
  intros u Hu. apply String.eqb_neq in Hu.
  unfold Scenario.votes_for. simpl. rewrite Hu. simpl. lia.
Defined.

(** ** One vote for each voter *)

Lemma processVotingResults_reply (g g' : Game.t) (r : Reply) :
  processVotingResults g = Returned g' r -> exists w, r = RoundResults w.
Proof.
  unfold processVotingResults.
  destruct (eliminate _) as [[g1 elimId] w1].
  destruct (settle g1 w1) as [g2 w2].
  destruct (eliminated_player g2 elimId); [|done].
  intros [= _ <-]. by exists w2.
Qed.

Lemma set_hasVoted_id (v : bool) (p : Player.t) :
  Player.id (Player.set_hasVoted v p) = Player.id p.
Proof. done. Qed.

Lemma is_active_auto_reconnect (p : Player.t) :
  Player.is_active p = true -> auto_reconnect p = p.
Proof.
  unfold auto_reconnect, Player.is_active, Player.is_disconnected.
  by destruct (Player.status p).
Qed.

(** X5.  A vote that is accepted without closing the round is recorded
    under the voter's id, leaves the votes of the others as they are, and
    closes the door: a second vote of the same voter in that round, for
    whatever target, is refused with 'Already voted' and changes nothing. *)
Theorem one_vote_per_voter (g g1 : Game.t) (voterId : option string)
  (target again : string) :
  submitVote g voterId target = Returned g1 VoteUpdate ->
  submitVote g1 voterId again = Returned g1 (Error AlreadyVoted)
  /\ exists i : string,
       voterId = Some i
       /\ (i <> "__proto__" -> JsObject.get i (Game.votes g1) = Some target)
       /\ forall j : string,
            j <> i ->
            JsObject.get j (Game.votes g1) = JsObject.get j (Game.votes g).
Proof.
  unfold submitVote at 1.
  destruct (phase_is Phase.voting g) eqn:Hph; [|done]. cbn [negb].
  destruct (find_player voterId (Game.players g)) as [voter|] eqn:Hfind;
    [|done].
  destruct voterId as [i|]; [|done].
  pose proof (find_player_id _ _ _ Hfind) as Hid. rewrite Hid.
  destruct (Player.is_active (auto_reconnect voter)) eqn:Hact; [|done].
  cbn [negb]. destruct (Player.hasVoted voter) eqn:Hv; [done|].
  match goal with |- context [if ?c then _ else _] => destruct c end.
  { intros H. by apply processVotingResults_reply in H as [w [=]]. }
  intros [= <-].
  assert (find_player (Some i)
            (update_player i (Player.set_hasVoted true)
               (update_player i auto_reconnect (Game.players g)))
          = Some (Player.set_hasVoted true (auto_reconnect voter))) as Hfind1.
  { rewrite find_update_player by apply set_hasVoted_id.
    rewrite find_update_player by apply auto_reconnect_id.
    by rewrite Hfind. }
  split.
  - unfold submitVote.
    replace (phase_is Phase.voting _) with true by (symmetry; exact Hph).
    cbn [negb Game.players Game.set_players Game.set_votes].
    rewrite Hfind1. cbn [Player.id Player.set_hasVoted Player.hasVoted].
    rewrite auto_reconnect_id, Hid.
    rewrite (update_player_fixed i auto_reconnect _ _ Hfind1)
      by (apply is_active_auto_reconnect; exact Hact).
    rewrite (is_active_auto_reconnect
               (Player.set_hasVoted true (auto_reconnect voter)))
      by exact Hact.
    replace (Player.is_active
               (Player.set_hasVoted true (auto_reconnect voter)))
      with true by (symmetry; exact Hact).
    reflexivity.
  - exists i. split; [done|]. cbn [Game.votes Game.set_votes Game.set_players].
    split.
    + intros Hi. rewrite get_set by done. by rewrite String.eqb_refl.
    + intros j Hj. destruct (String.eqb_spec i "__proto__") as [->|Hp]; [done|].
      rewrite get_set by done.
      apply not_eq_sym, String.eqb_neq in Hj. by rewrite Hj.
Qed.

(** After the three descriptions Alice votes for Bob; her second vote, for
    Carol, is refused. *)
Lemma one_vote_per_voter_witness :
  submitVote (Scenario.the_room Scenario.described3) (Some "a") "b"
  = Returned
      (room_of
         (submitVote (Scenario.the_room Scenario.described3) (Some "a") "b"))
      VoteUpdate
  /\ submitVote
       (room_of
          (submitVote (Scenario.the_room Scenario.described3) (Some "a") "b"))
       (Some "a") "c"
     = Returned
         (room_of
            (submitVote (Scenario.the_room Scenario.described3)
               (Some "a") "b"))
         (Error AlreadyVoted).
Proof.
  assert (submitVote (Scenario.the_room Scenario.described3) (Some "a") "b"
          = Returned
              (room_of
                 (submitVote (Scenario.the_room Scenario.described3)
                    (Some "a") "b"))
              VoteUpdate) as H by (vm_compute; reflexivity).
  split; [exact H|].
  exact (proj1 (one_vote_per_voter _ _ (Some "a") "b" "c" H)).
Defined.

(** ** Whose turn comes next *)

Lemma scan_turn_first (g : Game.t) (rest : list string) (s : nat) :
  match scan_turn (Game.players g) rest s with
  | Some i =>
      s <= i
      /\ (exists pid, rest !! (i - s) = Some pid
                      /\ Scenario.takes_turn g pid = true)
      /\ forall k pid, k < i - s -> rest !! k = Some pid ->
                       Scenario.takes_turn g pid = false
  | None =>
      forall k pid, rest !! k = Some pid -> Scenario.takes_turn g pid = false
  end.
Proof.
  revert s. induction rest as [|pid r IH]; intros s; [done|].
  cbn [scan_turn]. specialize (IH (S s)).
  assert (Scenario.takes_turn g pid = false ->
          match scan_turn (Game.players g) r (S s) with
          | Some i =>
              s <= i
              /\ (exists pid0, (pid :: r) !! (i - s) = Some pid0
                               /\ Scenario.takes_turn g pid0 = true)
              /\ forall k pid0, k < i - s -> (pid :: r) !! k = Some pid0 ->
                                Scenario.takes_turn g pid0 = false
          | None =>
              forall k pid0, (pid :: r) !! k = Some pid0 ->
                             Scenario.takes_turn g pid0 = false
          end) as Hskip.
  { intros Hpid. destruct (scan_turn (Game.players g) r (S s)) as [i|].
    - destruct IH as (Hle & (pid0 & Hl & Hcan) & Hbefore).
      split; [lia|]. split.
      + exists pid0. by replace (i - s) with (S (i - S s)) by lia.
      + intros [|k] pid1 Hk; [by intros [= <-]|].
        apply Hbefore. lia.
    - intros [|k] pid1; [by intros [= <-]|]. apply IH. }
  unfold Scenario.takes_turn in Hskip at 1.
  destruct (find_player (Some pid) (Game.players g)) as [p|] eqn:Hfind;
    [|by apply Hskip].
  destruct (Player.capable p) eqn:Hcap; [|by apply Hskip].
  split; [lia|]. rewrite Nat.sub_diag. split; [|intros k pid0 Hk; lia].
  exists pid. split; [done|]. unfold Scenario.takes_turn. by rewrite Hfind.
Qed.

(** X7.  [advanceTurn] gives the turn to the first entry of [turnOrder]
    after the current one whose player is active or disconnected, leaving
    the phase alone, and skips only entries whose player is not; when no
    entry is left it opens the voting phase with the sentinel -1. *)
Theorem advanceTurn_next (g : Game.t) :
  let start := Z.to_nat (Game.currentTurnIndex g + 1) in
  (exists (i : nat) (pid : string),
     Game.currentTurnIndex (advanceTurn g) = Z.of_nat i
     /\ Game.gamePhase (advanceTurn g) = Game.gamePhase g
     /\ start <= i
     /\ Game.turnOrder g !! i = Some pid
     /\ Scenario.takes_turn g pid = true
     /\ forall (j : nat) (skipped : string),
          start <= j < i ->
          Game.turnOrder g !! j = Some skipped ->
          Scenario.takes_turn g skipped = false)
  \/ (Game.currentTurnIndex (advanceTurn g) = (-1)%Z
      /\ Game.gamePhase (advanceTurn g) = Phase.voting
      /\ forall (j : nat) (skipped : string),
           start <= j ->
           Game.turnOrder g !! j = Some skipped ->
           Scenario.takes_turn g skipped = false).
Proof.
  intros start. unfold advanceTurn. fold start.
  pose proof (scan_turn_first g (drop start (Game.turnOrder g)) start) as H.
  destruct (scan_turn _ _ _) as [i|].
  - destruct H as (Hle & (pid & Hl & Hcan) & Hbefore). left.
    exists i, pid. rewrite lookup_drop in Hl.
    replace (start + (i - start)) with i in Hl by lia.
    split_and!; [reflexivity|reflexivity|done|done|done|].
    intros j skipped Hj Hs. apply (Hbefore (j - start)); [lia|].
    rewrite lookup_drop. by replace (start + (j - start)) with j by lia.
  - right. split_and!; [reflexivity|reflexivity|].
    intros j skipped Hj Hs. apply (H (j - start)).
    rewrite lookup_drop. by replace (start + (j - start)) with j by lia.
Qed.

(** ** One description for each turn *)

Lemma set_players_same (g : Game.t) : Game.set_players (Game.players g) g = g.
Proof. by destruct g. Qed.

Lemma auto_reconnect_connected (p : Player.t) :
  Player.is_disconnected (auto_reconnect p) = false.
Proof.
  unfold auto_reconnect, Player.is_disconnected.
  by destruct (Player.status p) eqn:H; simpl; rewrite ?H.
Qed.

Lemma connected_auto_reconnect (p : Player.t) :
  Player.is_disconnected p = false -> auto_reconnect p = p.
Proof. unfold auto_reconnect. by intros ->. Qed.

(** The player whose turn it was finds the door closed after the turn has
    moved on. *)
Lemma turn_moved_on (g : Game.t) (i again : string) (p : Player.t) :
  NoDup (Game.turnOrder g) ->
  turn_at g = Some i ->
  find_player (Some i) (Game.players g) = Some p ->
  Player.is_disconnected p = false ->
  submitDescription (advanceTurn g) (Some i) again
  = (advanceTurn g, Error WrongPhase)
  \/ submitDescription (advanceTurn g) (Some i) again
     = (advanceTurn g, Error NotYourTurn).
Proof.
  intros Hnd Hturn Hfind Hcon. unfold submitDescription.
  rewrite advanceTurn_players, Hfind.
  rewrite (find_player_id _ _ _ Hfind).
  rewrite (update_player_fixed i auto_reconnect _ _ Hfind)
    by (by apply connected_auto_reconnect).
  assert (Game.set_players (Game.players g) (advanceTurn g) = advanceTurn g)
    as Hsame.
  { rewrite <- (advanceTurn_players g). apply set_players_same. }
  rewrite !Hsame.
  destruct (phase_is Phase.description (advanceTurn g)) eqn:Hph;
    [|by left].
  right. cbn [negb].
  replace (bool_decide (turn_at (advanceTurn g) = Some i)) with false;
    [done|].
  symmetry. apply bool_decide_eq_false. intros Hnext.
  unfold turn_at in Hturn, Hnext.
  destruct (Z.ltb_spec (Game.currentTurnIndex g) 0) as [|Hge]; [done|].
  revert Hnext Hph. unfold advanceTurn.
  destruct (scan_turn _ _ _) as [i'|] eqn:Hscan; [|by intros _ Hph].
  apply scan_turn_found in Hscan as (Hle & _).
  cbn [Game.currentTurnIndex Game.set_currentTurnIndex Game.turnOrder].
  intros Hnext _. destruct (Z.ltb_spec (Z.of_nat i') 0) as [|_]; [lia|].
  rewrite Nat2Z.id in Hnext.
  pose proof (NoDup_lookup _ _ _ _ Hnd Hturn Hnext). lia.
Qed.

(** X8.  A description that is accepted goes to the chat under the
    player's name; when the turn order lists no id twice, the turn has then
    left that player: a second description from the same player is refused,
    with 'Not description phase' or 'Not your turn', and changes nothing. *)
Theorem describes_once (g g1 : Game.t) (playerId : option string)
  (text again : string) :
  NoDup (Game.turnOrder g) ->
  submitDescription g playerId text = (g1, TurnUpdate) ->
  (exists (p : Player.t) (notices : list Chat.t),
     find_player playerId (Game.players g) = Some p
     /\ Game.chatHistory g1
        = Game.chatHistory g
            ++ Chat.mk (Player.name p) text Chat.description :: notices
     /\ Forall (fun c => Chat.type c = Chat.system) notices)
  /\ (submitDescription g1 playerId again = (g1, Error WrongPhase)
      \/ submitDescription g1 playerId again = (g1, Error NotYourTurn)).
Proof.
  intros Hnd. unfold submitDescription at 1.
  destruct (find_player playerId (Game.players g)) as [player|] eqn:Hfind;
    [|done].
  destruct playerId as [i|]; [|done].
  pose proof (find_player_id _ _ _ Hfind) as Hid. rewrite Hid.
  destruct (phase_is Phase.description _) eqn:Hph; [|done]. cbn [negb].
  destruct (bool_decide (turn_at _ = Some i)) eqn:Hturn; [|done].
  cbn [negb]. destruct (Player.hasDescribed player) eqn:Hd; [done|].
  intros [= <-]. apply bool_decide_eq_true in Hturn. split.
  - exists player. 
    match goal with
    | |- context [advanceTurn ?G] =>
        destruct (advanceTurn_chat_system G) as (notices & -> & Hsys)
    end.
    exists notices. split; [done|]. split; [|done].
    cbn [addChatMessage Game.chatHistory Game.set_chatHistory
         Game.set_players].
    by rewrite <- app_assoc.
  - apply (turn_moved_on _ i again
             (Player.set_hasDescribed true (auto_reconnect player))).
    + exact Hnd.
    + exact Hturn.
    + cbn [addChatMessage Game.players Game.set_chatHistory Game.set_players].
      rewrite find_update_player by done.
      rewrite find_update_player by apply auto_reconnect_id.
      by rewrite Hfind.
    + exact (auto_reconnect_connected player).
Qed.

(** Bob opens round 1 of the three-player game; his second description is
    out of turn. *)
Lemma describes_once_witness :
  NoDup (Game.turnOrder (Scenario.the_room (Scenario.lobby3
           ++ [Server.start_game "s1" Scenario.code Scenario.zero])))
  /\ submitDescription
       (submitDescription
          (Scenario.the_room
             (Scenario.lobby3
              ++ [Server.start_game "s1" Scenario.code Scenario.zero]))
          (Some "b") "furry").1
       (Some "b") "soft"
     = ((submitDescription
           (Scenario.the_room
              (Scenario.lobby3
               ++ [Server.start_game "s1" Scenario.code Scenario.zero]))
           (Some "b") "furry").1,
        Error NotYourTurn).
Proof.
  assert (NoDup (Game.turnOrder (Scenario.the_room (Scenario.lobby3
            ++ [Server.start_game "s1" Scenario.code Scenario.zero]))))
    as Hnd by (apply (bool_decide_unpack _); vm_compute; exact I).
  split; [exact Hnd|].
  destruct (describes_once _
              (submitDescription
                 (Scenario.the_room
                    (Scenario.lobby3
                     ++ [Server.start_game "s1" Scenario.code Scenario.zero]))
                 (Some "b") "furry").1
              (Some "b") "furry" "soft" Hnd) as [_ [H|H]];
    [vm_compute; reflexivity| |exact H].
  exfalso. revert H. vm_compute. discriminate.
Defined.

(** ** Names stay distinct *)

Lemma reconnect_name (g : Game.t) (p : Player.t) :
  Player.name (reconnect g p) = Player.name p.
Proof. unfold reconnect. by destruct (Player.is_disconnected p). Qed.

(** The loop returns the base name or a numbered one. *)
Lemma dedup_loop_shape (taken : string -> bool) (base : string)
  (fuel counter : nat) (current : string) :
  current = base
  \/ (exists k : nat, current = base +:+ " (" +:+ pretty k +:+ ")") ->
  dedup_loop taken base fuel counter current = base
  \/ exists k : nat,
       dedup_loop taken base fuel counter current
       = base +:+ " (" +:+ pretty k +:+ ")".
Proof.
  revert counter current.
  induction fuel as [|fuel IH]; intros counter current Hcur; [done|].
  simpl. destruct (taken current); [|done]. apply IH. right. by exists counter.
Qed.

(** X9.  Joining keeps the names of a room pairwise distinct: a
    reconnection changes no name, and a new player is stored under the
    requested name or a numbered variant of it that nobody in the room
    has. *)
Theorem joinGame_names_distinct (g : Game.t) (playerName : string)
  (previousPlayerId : option string) (playerId : string) :
  NoDup (List.map Player.name (Game.players g)) ->
  NoDup (List.map Player.name
           (Game.players
              (joinGame g playerName previousPlayerId playerId).1))
  /\ (reconnecting g playerName previousPlayerId = None ->
      exists newPlayer,
        Game.players (joinGame g playerName previousPlayerId playerId).1
        = Game.players g ++ [newPlayer]
        /\ (Player.name newPlayer = playerName
            \/ exists k : nat,
                 Player.name newPlayer
                 = playerName +:+ " (" +:+ pretty k +:+ ")")).
Proof.
  intros Hnd. unfold joinGame.
  destruct (reconnecting g playerName previousPlayerId) as [p|].
  - split; [|done]. cbn [fst Game.players Game.set_players].
    by rewrite update_player_map by apply reconnect_name.
  - replace (negb (joinable g)) with false
      by (unfold joinable; by destruct (Game.status g)).
    cbn [fst addSystemMessage addChatMessage Game.players
         Game.set_chatHistory Game.set_players].
    assert (forall v, Game.players
              (if (length (Game.players g) =? 0)%nat
               then Game.set_creatorId v g else g) = Game.players g) as Hps
      by (intros; by destruct (length (Game.players g) =? 0)%nat).
    rewrite !Hps. split.
    + rewrite map_app. apply NoDup_app. split; [done|].
      split; [|apply NoDup_singleton].
      intros n Hn ->%list_elem_of_singleton.
      apply list_elem_of_In, in_map_iff in Hn as (q & Hq & Hin).
      pose proof (joinGame_name_free (Game.players g) playerName) as Hfree.
      apply not_true_iff_false in Hfree. apply Hfree, existsb_exists.
      exists q. split; [done|]. by apply String.eqb_eq.
    + intros _. eexists. split; [reflexivity|].
      cbn [Player.name]. by apply dedup_loop_shape; left.
Qed.

(** A second Bob joins the lobby of Alice, Bob and Carol. *)
Lemma joinGame_names_distinct_witness :
  NoDup (List.map Player.name
           (Game.players (Scenario.the_room Scenario.lobby3)))
  /\ List.map Player.name
       (Game.players
          (joinGame (Scenario.the_room Scenario.lobby3) "Bob" None "e").1)
     = ["Alice"; "Bob"; "Carol"; "Bob (1)"]
  /\ NoDup (List.map Player.name
              (Game.players
                 (joinGame (Scenario.the_room Scenario.lobby3)
                    "Bob" None "e").1)).
Proof.
  assert (NoDup (List.map Player.name
                   (Game.players (Scenario.the_room Scenario.lobby3))))
    as Hnd by (apply (bool_decide_unpack _); vm_compute; exact I).
  split; [exact Hnd|]. split; [vm_compute; reflexivity|].
  exact (proj1 (joinGame_names_distinct _ "Bob" None "e" Hnd)).
Defined.






(** ** A refresh within the grace period *)

Lemma update_player_twice (i : string) (f h : Player.t -> Player.t)
  (ps : list Player.t) :
  (forall p, Player.id (h p) = Player.id p) ->
  update_player i f (update_player i h ps)
  = update_player i (fun p => f (h p)) ps.
Proof.
  intros Hh. induction ps as [|p r IH]; [done|]. simpl.
  destruct (Player.id p =? i) eqn:Hp; simpl.
  - by rewrite Hh, Hp.
  - rewrite Hp. f_equal. apply IH.
Qed.

Lemma update_player_ext (i : string) (f h : Player.t -> Player.t)
  (ps : list Player.t) (p : Player.t) :
  find_player (Some i) ps = Some p -> f p = h p ->
  update_player i f ps = update_player i h ps.
Proof.
  unfold find_player. induction ps as [|q r IH]; [done|]. simpl.
  destruct (Player.id q =? i).
  - by intros [= ->] ->.
  - intros Hfind Hp. f_equal. by apply IH.
Qed.

Lemma set_players_twice (a b : list Player.t) (g : Game.t) :
  Game.set_players a (Game.set_players b g) = Game.set_players a g.
Proof. done. Qed.

(** A drop followed by a join under the stored id and name leaves the
    player with the status a reconnection restores, whatever the status
    was before the drop. *)
Lemma rejoin_room (g : Game.t) (i fresh : string) (p : Player.t) :
  find_player (Some i) (Game.players g) = Some p ->
  truthy i = true ->
  joinGame (mark_disconnected g i) (Player.name p) (Some i) fresh
  = (Game.set_players
       (update_player i (Player.set_status (restored_status g p))
          (Game.players g)) g,
     Joined i).
Proof.
  intros Hfind Htruthy.
  pose proof (find_player_id _ _ _ Hfind) as Hid.
  assert (reconnecting (mark_disconnected g i) (Player.name p) (Some i)
          = Some (Player.set_status PlayerStatus.disconnected p)) as Hrec.
  { unfold reconnecting, mark_disconnected. rewrite Htruthy.
    cbn [Game.players Game.set_players].
    rewrite find_update_player by done. rewrite Hfind.
    cbn [fmap option_fmap option_map Player.name Player.set_status].
    by rewrite String.eqb_refl. }
  unfold joinGame. rewrite Hrec.
  cbn [Player.id Player.set_status]. rewrite Hid. f_equal.
  unfold mark_disconnected. cbn [Game.players Game.set_players].
  rewrite update_player_twice, set_players_twice by done. f_equal.
  by apply (update_player_ext i _ _ _ p).
Qed.

(** Marking a player disconnected and joining again under the stored id
    and name gives the room back, when the player's status is the one a
    reconnection restores. *)
Lemma reconnect_after_disconnect (g : Game.t) (i fresh : string)
  (p : Player.t) :
  find_player (Some i) (Game.players g) = Some p ->
  truthy i = true ->
  Player.status p = restored_status g p ->
  joinGame (mark_disconnected g i) (Player.name p) (Some i) fresh
  = (g, Joined i).
Proof.
  intros Hfind Htruthy Hstatus.
  rewrite (rejoin_room g i fresh p Hfind Htruthy). f_equal.
  rewrite (update_player_fixed i _ _ _ Hfind).
  - apply set_players_same.
  - rewrite <- Hstatus. by destruct p.
Qed.

Lemma restored_connected (g : Game.t) (p : Player.t) :
  Player.status p = restored_status g p -> Player.is_disconnected p = false.
Proof.
  unfold Player.is_disconnected, restored_status. intros ->.
  by destruct (Game.status g), (Player.role p).
Qed.

(** The grace callbacks leave the room alone when the player is found
    and is not disconnected. *)
Lemma grace_after_reconnect (g : Game.t) (i : string) (p : Player.t) :
  find_player (Some i) (Game.players g) = Some p ->
  Player.is_disconnected p = false ->
  lobbyGraceExpired g i = g /\ gameGraceExpired g i = Returned g ().
Proof.
  intros Hfind Hcon. unfold lobbyGraceExpired, gameGraceExpired.
  by rewrite Hfind, Hcon.
Qed.

(** X11.  A player whose connection drops, who joins again on a new
    connection under the stored id and name, and whose grace timeout then
    fires, is back where they were: the rooms, the codes and the pending
    timeouts are as before the drop, no deletion of the room is pending, and
    the new connection holds the session.  This is for a player whose status
    is the one a reconnection restores: active in a lobby or ended room,
    and in a playing room active with a role or waiting without one. *)
Theorem refresh_round_trip (m : GameManager.t)
  (socket socket' gameCode i fresh : string) (a : nat) (g : Game.t)
  (p : Player.t) (e : Entropy) :
  GameManager.playerSessions m !! socket = Some (Session.mk gameCode i) ->
  GameManager.get m gameCode = Some (a, g) ->
  find_player (Some i) (Game.players g) = Some p ->
  truthy i = true ->
  Player.status p = restored_status g p ->
  exists m' : GameManager.t,
    Server.run_from m
      [ Server.disconnect socket;
        Server.join_game socket' gameCode (Player.name p) (Some i) fresh;
        Server.timeout (length (GameManager.timers m)) e ]
    = Server.Running m'
    /\ GameManager.rooms m' = GameManager.rooms m
    /\ GameManager.games m' = GameManager.games m
    /\ GameManager.timers m' = GameManager.timers m
    /\ (gameCode ∉ GameManager.deletionTimers m')
    /\ GameManager.playerSessions m'
       = <[socket' := Session.mk gameCode i]>
           (delete socket (GameManager.playerSessions m)).
Proof.
  intros Hsess Hget Hfind Htruthy Hstatus.
  pose proof (restored_connected _ _ Hstatus) as Hcon.
  destruct (grace_after_reconnect g i p Hfind Hcon) as [Hlobby Hgame].
  set (timer := match Game.status g with
                | RoomStatus.lobby => LobbyGrace gameCode i
                | _ => GameGrace gameCode i
                end).
  assert (exists D,
            GameManager.leaveGame m socket
            = GameManager.mk
                (<[a := mark_disconnected g i]> (GameManager.rooms m))
                (GameManager.games m)
                (delete socket (GameManager.playerSessions m))
                D (GameManager.timers m ++ [timer])) as [D Hleave].
  { unfold GameManager.leaveGame. rewrite Hsess.
    cbn [Session.gameCode Session.playerId].
    change (GameManager.get (GameManager.set_playerSessions
                               (delete socket (GameManager.playerSessions m))
                               m) gameCode)
      with (GameManager.get m gameCode).
    rewrite Hget, Hfind.
    destruct (hasConnectedPlayers _); eexists; reflexivity. }
  cbn [Server.run_from Server.step]. rewrite Hleave.
  set (m1 := GameManager.mk _ _ _ D _).
  assert (GameManager.get m1 gameCode = Some (a, mark_disconnected g i))
    as Hget1 by exact (get_put m gameCode a g _ Hget).
  unfold GameManager.joinGame. rewrite Hget1.
  rewrite (reconnect_after_disconnect g i fresh p Hfind Htruthy Hstatus).
  cbn [fst].
  assert (forall m0, GameManager.timers
            (GameManager.bind_session socket' gameCode i
               (GameManager.put a g
                  (GameManager.set_deletionTimers m0 m1)))
          = GameManager.timers m ++ [timer]) as -> by done.
  rewrite (list_lookup_middle _ [] timer _ eq_refl).
  rewrite (delete_middle _ [] timer), app_nil_r.
  assert (<[a := g]> (GameManager.rooms m) = GameManager.rooms m) as Hrooms.
  { unfold GameManager.get in Hget.
    destruct (GameManager.games m !! gameCode) as [a'|]; [|done].
    simpl in Hget.
    destruct (GameManager.rooms m !! a') as [g0|] eqn:Hg0; [|done].
    injection Hget as -> ->. by apply list_insert_id. }
  match goal with
  | |- context [GameManager.expire ?m2 _ _] =>
      assert (GameManager.get m2 gameCode = Some (a, g)) as Hget2
        by exact (get_put m1 gameCode a _ g Hget1);
      assert (GameManager.expire m2 timer e
              = GameManager.Ok (GameManager.put a g m2) ()) as Hexpire
  end.
  { unfold timer, GameManager.expire.
    destruct (Game.status g); by rewrite Hget2, ?Hlobby, ?Hgame. }
  rewrite Hexpire. eexists. split; [reflexivity|].
  cbn [GameManager.rooms GameManager.games GameManager.timers
       GameManager.deletionTimers GameManager.playerSessions
       GameManager.bind_session GameManager.put
       GameManager.set_playerSessions GameManager.set_rooms
       GameManager.set_deletionTimers GameManager.set_timers m1].
  rewrite !list_insert_insert_eq, Hrooms.
  split_and!; [done..| |done].
  rewrite elem_of_difference, elem_of_singleton. by intros [_ ?].
Qed.

(** Carol refreshes in the lobby of Alice, Bob and Carol. *)
Lemma refresh_round_trip_witness :
  exists m' : GameManager.t,
    Server.run_from (Scenario.manager Scenario.lobby3)
      [ Server.disconnect "s3";
        Server.join_game "s5" Scenario.code "Carol" (Some "c") "e";
        Server.timeout 0 Scenario.zero ]
    = Server.Running m'
    /\ GameManager.rooms m'
       = GameManager.rooms (Scenario.manager Scenario.lobby3)
    /\ GameManager.getPlayerId m' "s5" = Some "c".
Proof.
  destruct (refresh_round_trip (Scenario.manager Scenario.lobby3)
              "s3" "s5" Scenario.code "c" "e" 0
              (Scenario.the_room Scenario.lobby3)
              (Player.mk "c" "Carol" None None PlayerStatus.active 0
                 false false false)
              Scenario.zero)
    as (m' & Hrun & Hrooms & _ & _ & _ & Hsess);
    [vm_compute; reflexivity..|].
  exists m'. split; [exact Hrun|]. split; [exact Hrooms|].
  unfold GameManager.getPlayerId. rewrite Hsess.
  by rewrite lookup_insert_eq.
Defined.

(** ** Leaving and joining again *)

(** X12.  Being voted out does not survive a reconnection: when a player
    who is eliminated and has a role drops and joins again under the
    stored id and name, the first player with that id becomes active,
    nothing else in the room changes, and the player counts again among
    those a vote waits for. *)
Theorem eliminated_rejoins_active (g : Game.t) (i fresh : string)
  (p : Player.t) :
  find_player (Some i) (Game.players g) = Some p ->
  truthy i = true ->
  Player.status p = PlayerStatus.eliminated ->
  is_Some (Player.role p) ->
  joinGame (mark_disconnected g i) (Player.name p) (Some i) fresh
  = (Game.set_players
       (update_player i (Player.set_status PlayerStatus.active)
          (Game.players g)) g,
     Joined i)
  /\ activeCount (joinGame (mark_disconnected g i) (Player.name p) (Some i)
                   fresh).1
     = S (activeCount g).
Proof.
  intros Hfind Htruthy Hstatus [r Hrole].
  rewrite (rejoin_room g i fresh p Hfind Htruthy).
  replace (restored_status g p) with PlayerStatus.active
    by (unfold restored_status; rewrite Hrole; by destruct (Game.status g)).
  split; [done|]. unfold activeCount. cbn [fst Game.players Game.set_players].
  revert Hfind. unfold find_player.
  induction (Game.players g) as [|q l IH]; [done|]. simpl.
  destruct (Player.id q =? i).
  - intros [= ->]. unfold Player.capable at 2. by rewrite Hstatus.
  - intros Hfind. specialize (IH Hfind).
    destruct (Player.capable q) eqn:Hq; simpl; rewrite Hq; simpl; lia.
Qed.

(** Bob, voted out in round 1, drops and rejoins. *)
Lemma eliminated_rejoins_active_witness :
  (Scenario.statuses (Scenario.the_room Scenario.bob_out)
   = [("a", PlayerStatus.active); ("b", PlayerStatus.eliminated);
      ("c", PlayerStatus.active); ("d", PlayerStatus.active)])
  /\ Scenario.statuses
       (joinGame (mark_disconnected (Scenario.the_room Scenario.bob_out) "b")
          "Bob" (Some "b") "e").1
     = [("a", PlayerStatus.active); ("b", PlayerStatus.active);
        ("c", PlayerStatus.active); ("d", PlayerStatus.active)].
Proof.
  split; [vm_compute; reflexivity|].
  destruct (eliminated_rejoins_active (Scenario.the_room Scenario.bob_out)
              "b" "e"
              (Player.mk "b" "Bob" (Some Role.civilian) (Some "cat")
                 PlayerStatus.eliminated 0 true true false))
    as [H _]; [vm_compute; reflexivity..|by eexists|].
  cbn [Player.name] in H. rewrite H. vm_compute. reflexivity.
Defined.

(** ** The registry of rooms *)

Lemma registry_kept_refl (m : GameManager.t) : Scenario.registry_kept m m.
Proof. split_and!; auto. Qed.

Lemma registry_kept_put (m m' : GameManager.t) (a : nat) (g : Game.t) :
  Scenario.registry_kept m m' ->
  Scenario.registry_kept m (GameManager.put a g m').
Proof.
  intros (Hg & Hl & Hd). split_and!; [done| |done].
  unfold GameManager.put. cbn [GameManager.rooms GameManager.set_rooms].
  by rewrite length_insert.
Qed.

Lemma registry_kept_on_room (m : GameManager.t) (gameCode : string)
  (body : Game.t -> Game.t * Reply) :
  Scenario.registry_kept m (GameManager.on_room m gameCode body).1.
Proof.
  unfold GameManager.on_room.
  destruct (GameManager.get m gameCode) as [[a g]|];
    [|apply registry_kept_refl].
  destruct (body g). apply registry_kept_put, registry_kept_refl.
Qed.

Lemma registry_kept_joinGame (m : GameManager.t)
  (gameCode socketId playerName : string) (previousPlayerId : option string)
  (playerId : string) :
  Scenario.registry_kept m
    (GameManager.joinGame m gameCode socketId playerName previousPlayerId
       playerId).1.
Proof.
  unfold GameManager.joinGame.
  destruct (GameManager.get m gameCode) as [[a g]|];
    [|apply registry_kept_refl].
  assert (Scenario.registry_kept m
            (GameManager.set_deletionTimers
               (GameManager.deletionTimers m ∖ {[gameCode]}) m)) as Hkept.
  { split_and!; [done..|]. intros c [Hc _]%elem_of_difference. by left. }
  destruct (joinGame g playerName previousPlayerId playerId) as [g' []];
    by apply registry_kept_put.
Qed.

Lemma registry_kept_leaveGame (m : GameManager.t) (socketId : string) :
  Scenario.registry_kept m (GameManager.leaveGame m socketId).
Proof.
  unfold GameManager.leaveGame.
  destruct (GameManager.playerSessions m !! socketId) as [session|];
    [|apply registry_kept_refl].
  destruct (GameManager.get _ _) as [[a g]|] eqn:Hget; [|by split_and!; auto].
  destruct (find_player _ _); [|by split_and!; auto].
  assert (is_Some (GameManager.games m !! Session.gameCode session)) as Hcode.
  { unfold GameManager.get in Hget.
    cbn [GameManager.games GameManager.set_playerSessions] in Hget.
    by destruct (GameManager.games m !! Session.gameCode session). }
  destruct (hasConnectedPlayers _).
  - split_and!; [done| |by auto].
    cbn [GameManager.rooms GameManager.set_timers GameManager.put
         GameManager.set_rooms GameManager.set_playerSessions].
    by rewrite length_insert.
  - split_and!; [done| |].
    + cbn [GameManager.rooms GameManager.set_timers GameManager.put
           GameManager.set_rooms GameManager.set_playerSessions
           GameManager.set_deletionTimers].
      by rewrite length_insert.
    + intros c [Hc| ->%elem_of_singleton]%elem_of_union; [by left|by right].
Qed.

Lemma registry_kept_sound (m m' : GameManager.t) :
  Scenario.registry_kept m m' ->
  Scenario.registry_sound m -> Scenario.registry_sound m'.
Proof.
  intros (Hg & Hl & Hd) (H1 & H2 & H3). unfold Scenario.registry_sound.
  rewrite Hg, Hl. split_and!; [done..|].
  intros c Hc. destruct (Hd c Hc); auto.
Qed.

(** What one event does to the registry: 'create-game' registers a fresh
    code for a new room object, the deletion timeout unregisters its code,
    and every other event keeps the registry. *)
Lemma step_registry (m m' : GameManager.t) (ev : Server.Event) :
  Server.step m ev = Server.Running m' ->
  match ev with
  | Server.create_game _ _ gameCode _ =>
      GameManager.games m !! gameCode = None
      /\ GameManager.games m'
         = <[gameCode := length (GameManager.rooms m)]> (GameManager.games m)
      /\ length (GameManager.rooms m') = S (length (GameManager.rooms m))
      /\ GameManager.deletionTimers m' = GameManager.deletionTimers m
  | Server.deletion_timeout gameCode =>
      GameManager.games m' = delete gameCode (GameManager.games m)
      /\ GameManager.rooms m' = GameManager.rooms m
      /\ GameManager.deletionTimers m'
         = GameManager.deletionTimers m ∖ {[gameCode]}
  | _ => Scenario.registry_kept m m'
  end.
Proof.
  destruct ev; cbn [Server.step].
  - destruct (GameManager.games m !! gameCode) eqn:Hcode; [done|].
    intros [= <-]. split_and!; [done..| |done].
    cbn [GameManager.createGame GameManager.rooms GameManager.bind_session
         GameManager.set_playerSessions GameManager.set_games
         GameManager.set_rooms].
    rewrite length_app. simpl. lia.
  - intros [= <-]. apply registry_kept_joinGame.
  - intros [= <-]. apply registry_kept_on_room.
  - intros [= <-]. apply registry_kept_on_room.
  - unfold GameManager.submitVote.
    destruct (GameManager.get m gameCode) as [[a g]|].
    + destruct (submitVote g _ votedPlayerId) as [g' r|g']; [|done].
      pose proof (registry_kept_put m m a g' (registry_kept_refl m)) as Hk.
      destruct r as [| | | | |[w|]|]; try by intros [= <-].
      destruct (GameManager.games _ !! gameCode); by intros [= <-].
    + intros [= <-]. apply registry_kept_refl.
  - destruct (GameManager.get m gameCode) as [[a g]|];
      [|intros [= <-]; apply registry_kept_refl].
    destruct (GameManager.getPlayerId m socket) as [playerId|];
      [|intros [= <-]; apply registry_kept_refl].
    destruct (truthy playerId); intros [= <-];
      [apply registry_kept_put|]; apply registry_kept_refl.
  - intros [= <-]. apply registry_kept_on_room.
  - intros [= <-]. apply registry_kept_on_room.
  - intros [= <-]. apply registry_kept_leaveGame.
  - destruct (GameManager.timers m !! k) as [timer|]; [|done].
    assert (Scenario.registry_kept m
              (GameManager.set_timers (delete k (GameManager.timers m)) m))
      as Hk by (split_and!; auto).
    unfold GameManager.expire. destruct timer as [c i|c i|a].
    + destruct (GameManager.get _ c) as [[a g]|]; intros [= <-];
        [by apply registry_kept_put|done].
    + destruct (GameManager.get _ c) as [[a g]|]; [|by intros [= <-]].
      destruct (gameGraceExpired g i); [|done].
      intros [= <-]. by apply registry_kept_put.
    + destruct (GameManager.rooms _ !! a); intros [= <-];
        [by apply registry_kept_put|done].
  - destruct (bool_decide _); [|done]. by intros [= <-].
Qed.

(** X17.  In every state the server reaches, every registered code leads
    to a room object, no two codes lead to the same room object, and a
    deletion is pending only for a registered code. *)
Theorem registry_invariant (m : GameManager.t) :
  Server.reachable m -> Scenario.registry_sound m.
Proof.
  induction 1 as [|m ev m' _ IH Hstep].
  - split_and!.
    + intros c a Hc. simpl in Hc. by rewrite lookup_empty in Hc.
    + intros c1 c2 a Hc. simpl in Hc. by rewrite lookup_empty in Hc.
    + intros c Hc. simpl in Hc. by apply elem_of_empty in Hc.
  - apply step_registry in Hstep. destruct IH as (H1 & H2 & H3).
    destruct ev;
      try by (eapply registry_kept_sound; [exact Hstep|by split_and!]).
    + destruct Hstep as (Hfresh & Hg & Hl & Hd).
      unfold Scenario.registry_sound. rewrite Hg, Hl, Hd. split_and!.
      * intros c a [[-> <-]|[_ Hc]]%lookup_insert_Some; [lia|].
        apply H1 in Hc. lia.
      * intros c1 c2 a [[-> <-]|[Hn1 Hc1]]%lookup_insert_Some
          [[-> Ha]|[Hn2 Hc2]]%lookup_insert_Some; [done| | |by eauto].
        -- apply H1 in Hc2. lia.
        -- apply H1 in Hc1. lia.
      * intros c Hc. apply lookup_insert_is_Some'. right. by apply H3.
    + destruct Hstep as (Hg & Hr & Hd).
      unfold Scenario.registry_sound. rewrite Hg, Hr, Hd. split_and!.
      * intros c a [_ Hc]%lookup_delete_Some. by eapply H1.
      * intros c1 c2 a [_ Hc1]%lookup_delete_Some [_ Hc2]%lookup_delete_Some.
        by eauto.
      * intros c [Hc Hne]%elem_of_difference.
        rewrite lookup_delete_ne
          by (intros ->; by apply Hne, elem_of_singleton).
        by apply H3.
Qed.

(** The lobby of Alice, Bob and Carol after Carol dropped. *)
Lemma registry_invariant_witness :
  Server.reachable (Scenario.manager Scenario.short_lobby)
  /\ GameManager.games (Scenario.manager Scenario.short_lobby)
     !! Scenario.code = Some 0
  /\ Scenario.registry_sound (Scenario.manager Scenario.short_lobby).
Proof.
  assert (Server.reachable (Scenario.manager Scenario.short_lobby)) as Hr.
  { apply (run_reachable Scenario.short_lobby GameManager.empty).
    - constructor.
    - vm_compute. reflexivity. }
  split; [exact Hr|]. split; [vm_compute; reflexivity|].
  exact (registry_invariant _ Hr).
Defined.


(** ** Room codes *)

Lemma get_in (i : nat) (s : string) (c : ascii) :
  String.get i s = Some c -> In c (String.list_ascii_of_string s).
Proof.
  revert i. induction s as [|c0 s IH]; intros [|i]; simpl; try done.
  - intros [= ->]. by left.
  - intros H. right. by eapply IH.
Qed.

Lemma get_lt (i : nat) (s : string) :
  i < String.length s -> is_Some (String.get i s).
Proof.
  revert i. induction s as [|c0 s IH]; intros [|i]; simpl; try lia; [eauto|].
  intros H. apply IH. lia.
Qed.

Lemma random_char_shape (d : draw) :
  exists c : ascii,
    GameManager.random_char d = String c ""
    /\ In c (String.list_ascii_of_string GameManager.chars).
Proof.
  unfold GameManager.random_char.
  destruct (get_lt (random_index d (String.length GameManager.chars))
              GameManager.chars) as [c Hc].
  { apply random_index_lt. simpl. lia. }
  rewrite Hc. exists c. split; [done|]. by eapply get_in.
Qed.

Lemma random_code_shape (ds : nat -> draw) :
  String.length (GameManager.random_code ds) = 6
  /\ Forall (fun c => In c (String.list_ascii_of_string GameManager.chars))
       (String.list_ascii_of_string (GameManager.random_code ds)).
Proof.
  unfold GameManager.random_code. cbn [seq fold_right].
  destruct (random_char_shape (ds 0)) as (c0 & -> & H0).
  destruct (random_char_shape (ds 1)) as (c1 & -> & H1).
  destruct (random_char_shape (ds 2)) as (c2 & -> & H2).
  destruct (random_char_shape (ds 3)) as (c3 & -> & H3).
  destruct (random_char_shape (ds 4)) as (c4 & -> & H4).
  destruct (random_char_shape (ds 5)) as (c5 & -> & H5).
  split; [done|]. cbn [String.append String.list_ascii_of_string].
  repeat (constructor; [assumption|]). constructor.
Qed.

(** X18.  [generateGameCode] returns the code of the first iteration whose
    code is not registered: six characters, each an upper-case letter or a
    digit, and a code that leads to no room.  Within its bound it fails
    only when the code of every iteration is registered. *)
Theorem generateGameCode_fresh (m : GameManager.t)
  (attempts : nat -> nat -> draw) (fuel n : nat) :
  match GameManager.generateGameCode m attempts fuel n with
  | Some code =>
      GameManager.get m code = None
      /\ String.length code = 6
      /\ Forall (fun c => In c (String.list_ascii_of_string GameManager.chars))
           (String.list_ascii_of_string code)
      /\ exists k : nat,
           k < fuel
           /\ code = GameManager.random_code (attempts (n + k))
           /\ forall j : nat,
                j < k ->
                is_Some (GameManager.games m
                         !! GameManager.random_code (attempts (n + j)))
  | None =>
      forall k : nat,
        k < fuel ->
        is_Some (GameManager.games m
                 !! GameManager.random_code (attempts (n + k)))
  end.
Proof.
  revert n. induction fuel as [|fuel IH]; intros n; simpl; [lia|].
  destruct (GameManager.games m !! GameManager.random_code (attempts n))
    as [a|] eqn:Hcode.
  - specialize (IH (S n)).
    destruct (GameManager.generateGameCode m attempts fuel (S n)) as [code|].
    + destruct IH as (Hfree & Hlen & Hchars & k & Hk & -> & Hbefore).
      split_and!; [done..|]. exists (S k). split; [lia|].
      split; [f_equal; f_equal; lia|].
      intros [|j] Hj; [by rewrite Nat.add_0_r, Hcode|].
      replace (n + S j) with (S n + j) by lia. apply Hbefore. lia.
    + intros [|k] Hk; [by rewrite Nat.add_0_r, Hcode|].
      replace (n + S k) with (S n + k) by lia. apply IH. lia.
  - destruct (random_code_shape (attempts n)) as [Hlen Hchars].
    split_and!; [|done..|].
    + unfold GameManager.get. by rewrite Hcode.
    + exists 0. split; [lia|]. rewrite Nat.add_0_r. split; [done|]. lia.
Qed.

(** ** The chat history only grows *)

Lemma chat_addSystemMessage (g : Game.t) (t : string) :
  Game.chatHistory g `prefix_of` Game.chatHistory (addSystemMessage g t).
Proof. by eexists. Qed.

Lemma chat_advanceTurn (g : Game.t) :
  Game.chatHistory g `prefix_of` Game.chatHistory (advanceTurn g).
Proof.
  destruct (advanceTurn_chat_system g) as (extra & -> & _). by eexists.
Qed.

Lemma chat_startRound (g : Game.t) (e : Entropy) :
  Game.chatHistory g `prefix_of` Game.chatHistory (startRound g e).
Proof. destruct (startRound_chat g e) as (extra & -> & _). by eexists. Qed.

Lemma chat_eliminate (g : Game.t) :
  Game.chatHistory g `prefix_of` Game.chatHistory (eliminate g).1.1.
Proof.
  unfold eliminate.
  destruct (candidates g) as [|t [|]]; [by eexists| |by eexists].
  destruct (t =? "none"); [by eexists|].
  destruct (find_player (Some t) (Game.players g)); [by eexists|done].
Qed.

Lemma chat_settle (g : Game.t) (w : option Winner.t) :
  Game.chatHistory (settle g w).1 = Game.chatHistory g.
Proof.
  unfold settle. destruct w; [done|].
  by match goal with |- context [if ?c then _ else _] => destruct c end.
Qed.

Lemma chat_conclude (g : Game.t) (w : option Winner.t) :
  Game.chatHistory g `prefix_of` Game.chatHistory (conclude g w).
Proof. unfold conclude. destruct w; [by eexists|done]. Qed.

Lemma chat_processVotingResults (g : Game.t) :
  Game.chatHistory g
  `prefix_of` Game.chatHistory (room_of (processVotingResults g)).
Proof.
  unfold processVotingResults.
  pose proof (chat_eliminate (Game.set_gamePhase Phase.results g)) as Hel.
  destruct (eliminate _) as [[g1 elimId] w1]. cbn [fst] in Hel.
  pose proof (chat_settle g1 w1) as Hs.
  destruct (settle g1 w1) as [g2 w2]. cbn [fst] in Hs.
  destruct (eliminated_player g2 elimId); cbn [room_of].
  - etrans; [exact Hel|]. rewrite <- Hs.
    match goal with |- _ `prefix_of` Game.chatHistory (conclude ?x w2) =>
      exact (chat_conclude x w2)
    end.
  - by rewrite Hs.
Qed.

Lemma chat_joinGame (g : Game.t) (playerName : string)
  (previousPlayerId : option string) (playerId : string) :
  Game.chatHistory g
  `prefix_of` Game.chatHistory
                (joinGame g playerName previousPlayerId playerId).1.
Proof.
  unfold joinGame. destruct (reconnecting _ _ _); [done|].
  destruct (negb (joinable g)); [done|].
  cbn [fst addSystemMessage addChatMessage Game.chatHistory
       Game.set_chatHistory Game.set_players].
  destruct (length (Game.players g) =? 0)%nat; by eexists.
Qed.

Lemma chat_submitDescription (g : Game.t) (playerId : option string)
  (description : string) :
  Game.chatHistory g
  `prefix_of` Game.chatHistory (submitDescription g playerId description).1.
Proof.
  unfold submitDescription. destruct (find_player _ _) as [player|]; [|done].
  destruct (negb (phase_is _ _)); [done|].
  destruct (negb (bool_decide _)); [done|].
  destruct (Player.hasDescribed player); [done|]. cbn [fst].
  etrans; [|apply chat_advanceTurn]. by eexists.
Qed.

Lemma chat_submitVote (g : Game.t) (voterId : option string)
  (candidateId : string) :
  Game.chatHistory g
  `prefix_of` Game.chatHistory (room_of (submitVote g voterId candidateId)).
Proof.
  unfold submitVote. destruct (negb (phase_is _ _)); [done|].
  destruct (find_player _ _) as [voter|]; [|done].
  destruct (negb (Player.is_active _)); [done|].
  destruct (Player.hasVoted voter); [done|].
  match goal with |- context [if ?c then _ else _] => destruct c end;
    [|done].
  match goal with |- context [processVotingResults ?x] =>
    exact (chat_processVotingResults x)
  end.
Qed.

Lemma chat_updatePlayerName (g : Game.t) (playerId : option string)
  (newName : string) :
  Game.chatHistory g
  `prefix_of` Game.chatHistory (updatePlayerName g playerId newName).1.
Proof.
  unfold updatePlayerName. destruct (find_player _ _); [|done].
  match goal with |- context [if ?c then _ else _] => destruct c end;
    [done|by eexists].
Qed.

Lemma chat_send_chat_room (g : Game.t) (playerId message : string) :
  Game.chatHistory g
  `prefix_of` Game.chatHistory (Server.send_chat_room g playerId message).
Proof.
  unfold Server.send_chat_room.
  match goal with |- context [if ?c then _ else _] => destruct c end;
    [done|].
  destruct (find_player _ _); [by eexists|done].
Qed.

Lemma chat_lobbyGraceExpired (g : Game.t) (playerId : string) :
  Game.chatHistory g
  `prefix_of` Game.chatHistory (lobbyGraceExpired g playerId).
Proof.
  unfold lobbyGraceExpired. destruct (find_player _ _) as [p|]; [|done].
  destruct (Player.is_disconnected p); [|done].
  destruct (Player.isCreator p); [|by eexists].
  cbn [addSystemMessage addChatMessage Game.players Game.set_chatHistory
       Game.set_players].
  destruct (remove_player playerId (Game.players g)); [by eexists|].
  etrans; [|apply chat_addSystemMessage]. by eexists.
Qed.

Lemma chat_grace_win_check (g : Game.t) (p : Player.t) :
  Game.chatHistory g `prefix_of` Game.chatHistory (grace_win_check g p).
Proof.
  unfold grace_win_check. destruct (Player.role p) as [[]|]; [|by eexists|done].
  match goal with |- context [if ?c then _ else _] => destruct c end;
    [by eexists|done].
Qed.

Lemma chat_gameGraceExpired (g : Game.t) (playerId : string) :
  Game.chatHistory g
  `prefix_of` Game.chatHistory (room_of (gameGraceExpired g playerId)).
Proof.
  unfold gameGraceExpired. destruct (find_player _ _) as [p|]; [|done].
  destruct (Player.is_disconnected p); [|done].
  destruct (Game.status _); [by eexists| |by eexists].
  match goal with
  | |- context [if ?c then advanceTurn ?x else ?y] =>
      assert (Game.chatHistory g
              `prefix_of` Game.chatHistory (if c then advanceTurn x else y))
        as Hturn;
      [destruct c;
         [do 2 (etrans; [apply chat_addSystemMessage|]);
          apply chat_advanceTurn
         |apply chat_addSystemMessage]|];
      generalize dependent (if c then advanceTurn x else y)
  end.
  intros g1 Hturn.
  match goal with |- context [if ?c then _ else _] => destruct c end.
  - pose proof (chat_processVotingResults g1) as Hp.
    destruct (processVotingResults g1) as [g2 r|g2]; cbn [room_of] in *.
    + etrans; [exact Hturn|]. etrans; [exact Hp|]. apply chat_grace_win_check.
    + by etrans.
  - cbn [room_of]. etrans; [exact Hturn|]. apply chat_grace_win_check.
Qed.

(** X20.  No event other than 'start-game' and 'start-new-game' drops or
    rewrites a chat message: whatever the server does with such an event,
    the chat history every room had before is the beginning of the one it
    has after. *)
Theorem chat_append_only (m m' : GameManager.t) (ev : Server.Event)
  (a : nat) (g g' : Game.t) :
  Server.step m ev = Server.Running m'
  \/ Server.step m ev = Server.Crashed m' ->
  Scenario.starts_game ev = false ->
  GameManager.rooms m !! a = Some g ->
  GameManager.rooms m' !! a = Some g' ->
  Game.chatHistory g `prefix_of` Game.chatHistory g'.
Proof.
  intros Hstep Hev Hg Hg'.
  destruct (step_rooms m m' ev Hstep)
    as [Hsame|[[new Hnew]|(a0 & g0 & g0' & Hg0 & Hins & Hop)]].
  - rewrite Hsame, Hg in Hg'. by injection Hg' as <-.
  - rewrite Hnew, (lookup_app_l_Some _ _ _ _ Hg) in Hg'.
    by injection Hg' as <-.
  - rewrite Hins in Hg'. destruct (decide (a = a0)) as [->|Hne].
    2:{ rewrite list_lookup_insert_ne, Hg in Hg' by done.
        by injection Hg' as <-. }
    rewrite list_lookup_insert_eq in Hg' by (by eapply lookup_lt_Some).
    injection Hg' as <-. rewrite Hg in Hg0. injection Hg0 as <-.
    destruct ev; try done; subst.
    + apply chat_joinGame.
    + apply chat_submitDescription.
    + apply chat_submitVote.
    + destruct Hop as [playerId ->]. apply chat_send_chat_room.
    + apply chat_updatePlayerName.
    + by destruct Hop as [playerId ->].
    + destruct (GameManager.timers m !! k) as [[c i|c i|a']|];
        [| | |done]; subst.
      * apply chat_lobbyGraceExpired.
      * apply chat_gameGraceExpired.
      * apply chat_startRound.
Qed.

(** Dave joins the lobby of Alice, Bob and Carol: the notices of the
    earlier joins stay in front. *)
Lemma chat_append_only_witness :
  Game.chatHistory (Scenario.the_room Scenario.lobby3)
  `prefix_of` Game.chatHistory (Scenario.the_room Scenario.lobby4).
Proof.
  apply (chat_append_only (Scenario.manager Scenario.lobby3)
           (Scenario.manager Scenario.lobby4)
           (Server.join_game "s4" Scenario.code "Dave" None "d") 0).
  - left. vm_compute. reflexivity.
  - reflexivity.
  - vm_compute. reflexivity.
  - vm_compute. reflexivity.
Defined.

(** ** Sessions *)

Lemma leaveGame_session (m : GameManager.t) (socketId : string) :
  GameManager.playerSessions (GameManager.leaveGame m socketId) !! socketId
  = None.
Proof.
  unfold GameManager.leaveGame.
  destruct (GameManager.playerSessions m !! socketId) as [session|] eqn:Hs;
    [|done].
  destruct (GameManager.get _ _) as [[a g]|]; [|apply lookup_delete_eq].
  destruct (find_player _ _); [|apply lookup_delete_eq].
  destruct (hasConnectedPlayers _); apply lookup_delete_eq.
Qed.

(** X13.  A connection leaves once: [leaveGame] ends with the connection
    holding no session, so a second 'disconnect' of the same connection
    changes nothing, marks nobody and schedules no timeout. *)
Theorem leaveGame_once (m : GameManager.t) (socketId : string) :
  GameManager.getPlayerId (GameManager.leaveGame m socketId) socketId = None
  /\ GameManager.leaveGame (GameManager.leaveGame m socketId) socketId
     = GameManager.leaveGame m socketId.
Proof.
  pose proof (leaveGame_session m socketId) as Hs. split.
  - unfold GameManager.getPlayerId. by rewrite Hs.
  - unfold GameManager.leaveGame at 1. by rewrite Hs.
Qed.

(** X14.  A connection that holds no session changes nothing with the
    events that act for a player: 'start-game', 'submit-description',
    'submit-vote', 'send-chat', 'update-player-name' and 'disconnect' leave
    the whole manager as it is. *)
Theorem stranger_changes_nothing (m : GameManager.t) (socket : string)
  (ev : Server.Event) :
  GameManager.playerSessions m !! socket = None ->
  Scenario.acts_for_player socket ev = true ->
  Server.step m ev = Server.Running m.
Proof.
  intros Hnone Hev.
  destruct ev; try done; cbn [Scenario.acts_for_player] in Hev;
    apply String.eqb_eq in Hev as ->; cbn [Server.step];
    unfold GameManager.getPlayerId; rewrite ?Hnone; cbn [fmap option_fmap
      option_map].
  - unfold GameManager.startGame, GameManager.on_room.
    destruct (GameManager.get m gameCode) as [[a g]|] eqn:Hget; [|done].
    unfold startGame. rewrite bool_decide_eq_false_2 by done.
    cbn [negb fst]. by rewrite (put_same _ _ _ _ Hget).
  - unfold GameManager.submitDescription, GameManager.on_room.
    destruct (GameManager.get m gameCode) as [[a g]|] eqn:Hget; [|done].
    cbn [submitDescription find_player fst].
    by rewrite (put_same _ _ _ _ Hget).
  - unfold GameManager.submitVote.
    destruct (GameManager.get m gameCode) as [[a g]|] eqn:Hget; [|done].
    unfold submitVote. cbn [find_player].
    destruct (negb (phase_is Phase.voting g));
      by rewrite (put_same _ _ _ _ Hget).
  - by destruct (GameManager.get m gameCode) as [[a g]|].
  - unfold GameManager.updatePlayerName, GameManager.on_room.
    destruct (GameManager.get m gameCode) as [[a g]|] eqn:Hget; [|done].
    cbn [updatePlayerName find_player fst].
    by rewrite (put_same _ _ _ _ Hget).
  - unfold GameManager.leaveGame. by rewrite Hnone.
Qed.

(** A connection that never joined tries to start Alice's game. *)
Lemma stranger_changes_nothing_witness :
  Server.step (Scenario.manager Scenario.lobby3)
    (Server.start_game "s9" Scenario.code Scenario.zero)
  = Server.Running (Scenario.manager Scenario.lobby3).
Proof.
  apply (stranger_changes_nothing _ "s9"); vm_compute; reflexivity.
Defined.

(** ** A room that was deleted *)

(** X15.  Once the deletion timeout has fired for a code, the room objects
    are still what they were and the other codes lead where they led, but
    the code leads nowhere: every operation on it answers that the game
    does not exist and changes nothing. *)
Theorem deleted_room_not_found (m : GameManager.t) (gameCode : string) :
  let m' := GameManager.deletionExpired m gameCode in
  GameManager.get m' gameCode = None
  /\ GameManager.rooms m' = GameManager.rooms m
  /\ (forall other : string,
        other <> gameCode ->
        GameManager.get m' other = GameManager.get m other)
  /\ (forall socketId playerName previousPlayerId playerId,
        GameManager.joinGame m' gameCode socketId playerName
          previousPlayerId playerId = (m', Error RoomNotFound))
  /\ (forall playerId e,
        GameManager.startGame m' gameCode playerId e
        = (m', Error RoomNotFound)
        /\ GameManager.startNewGame m' gameCode playerId e
           = (m', Error RoomNotFound))
  /\ (forall playerId text,
        GameManager.submitDescription m' gameCode playerId text
        = (m', Error RoomNotFound)
        /\ GameManager.submitVote m' gameCode playerId text
           = GameManager.Ok m' (Error RoomNotFound)
        /\ GameManager.updatePlayerName m' gameCode playerId text
           = (m', Error RoomNotFound)).
Proof.
  intros m'.
  assert (GameManager.get m' gameCode = None) as Hget.
  { unfold m', GameManager.get, GameManager.deletionExpired.
    cbn [GameManager.games GameManager.set_deletionTimers
         GameManager.set_games].
    by rewrite lookup_delete_eq. }
  split_and!; [done|done| | | |].
  - intros other Hne. unfold m', GameManager.get, GameManager.deletionExpired.
    cbn [GameManager.games GameManager.rooms GameManager.set_deletionTimers
         GameManager.set_games].
    by rewrite lookup_delete_ne.
  - intros. unfold GameManager.joinGame. by rewrite Hget.
  - intros. unfold GameManager.startGame, GameManager.startNewGame,
      GameManager.on_room. by rewrite Hget.
  - intros. unfold GameManager.submitDescription, GameManager.submitVote,
      GameManager.updatePlayerName, GameManager.on_room. by rewrite Hget.
Qed.

(** ** Joining a game that is under way *)





(** ** The grace period of the imposter *)

Lemma grace_win_check_imposter (g : Game.t) (p : Player.t) :
  Player.role p = Some Role.imposter ->
  Game.status (grace_win_check g p) = RoomStatus.ended
  /\ Game.gamePhase (grace_win_check g p) = Phase.ended
  /\ Game.players (grace_win_check g p) = Game.players g
  /\ Game.lastRoundResult (grace_win_check g p)
     = Some (RoundResult.mk None None None (Some Winner.civilians)
               (Player.name p +:+ " (Disconnected)")
               (word_or_unknown g WordPair.civilian)
               (word_or_unknown g WordPair.imposter)).
Proof. intros Hrole. unfold grace_win_check. by rewrite Hrole. Qed.

(** X21.  When the grace timeout of a player fires in a playing room and
    the player is still disconnected and is the imposter, then, unless a
    vote resolution run by the same timeout throws, the room ends: status
    and phase are [ended] and the stored summary names the civilians as
    winners and the player, marked as disconnected, as the imposter. *)
Theorem imposter_grace_expiry (g g' : Game.t) (playerId : string)
  (p : Player.t) :
  find_player (Some playerId) (Game.players g) = Some p ->
  Player.is_disconnected p = true ->
  Game.status g = RoomStatus.playing ->
  Player.role p = Some Role.imposter ->
  gameGraceExpired g playerId = Returned g' () ->
  Game.status g' = RoomStatus.ended
  /\ Game.gamePhase g' = Phase.ended
  /\ exists r : RoundResult.t,
       Game.lastRoundResult g' = Some r
       /\ RoundResult.winner r = Some Winner.civilians
       /\ RoundResult.imposterName r = Player.name p +:+ " (Disconnected)"
       /\ RoundResult.eliminatedId r = None.
Proof.
  intros Hfind Hdis Hplaying Hrole. unfold gameGraceExpired.
  rewrite Hfind, Hdis.
  replace (Game.status (addSystemMessage g (Player.name p +:+ " disconnected")))
    with RoomStatus.playing by (symmetry; exact Hplaying).
  match goal with
  | |- context [if ?c then advanceTurn ?x else ?y] =>
      generalize (if c then advanceTurn x else y)
  end.
  intros g1.
  destruct (grace_win_check_imposter g1 p Hrole) as (H1 & H2 & _ & H4).
  match goal with |- context [if ?c then _ else _] => destruct c end.
  - destruct (processVotingResults g1) as [g2 r|g2]; [|done].
    intros [= <-].
    destruct (grace_win_check_imposter g2 p Hrole) as (H1' & H2' & _ & H4').
    split; [done|]. split; [done|]. eexists. by split; [exact H4'|].
  - intros [= <-]. split; [done|]. split; [done|].
    eexists. by split; [exact H4|].
Qed.

(** Alice, the imposter, drops in round 1 of the three-player game and
    stays away. *)
Lemma imposter_grace_expiry_witness :
  Game.status
    (room_of
       (gameGraceExpired
          (mark_disconnected
             (Scenario.the_room
                (Scenario.lobby3
                 ++ [Server.start_game "s1" Scenario.code Scenario.zero]))
             "a")
          "a"))
  = RoomStatus.ended.
Proof.
  refine (proj1 (imposter_grace_expiry
                   (mark_disconnected
                      (Scenario.the_room
                         (Scenario.lobby3
                          ++ [Server.start_game "s1" Scenario.code
                                Scenario.zero]))
                      "a")
                   _ "a"
                   (Player.mk "a" "Alice" (Some Role.imposter) (Some "dog")
                      PlayerStatus.disconnected 0 false false true)
                   _ _ _ _ _));
    vm_compute; reflexivity.
Defined.

(** ** What a round start resets *)

(** X22.  Every round start counts the round, empties the votes, clears
    the summary of the last round, clears the described and voted marks of
    every player, eliminated ones included, keeps the room's status, and
    ends the chat with the notice of the round. *)
Theorem round_start_resets (g : Game.t) (e : Entropy) :
  Game.currentRound (startRound g e) = S (Game.currentRound g)
  /\ Game.votes (startRound g e) = []
  /\ Game.lastRoundResult (startRound g e) = None
  /\ Forall (fun p => Player.hasDescribed p = false
                      /\ Player.hasVoted p = false)
       (Game.players (startRound g e))
  /\ Game.status (startRound g e) = Game.status g
  /\ last (Game.chatHistory (startRound g e))
     = Some (Chat.mk "System"
               ("Round " +:+ pretty (S (Game.currentRound g)) +:+ " started!")
               Chat.system).
Proof.
  split_and!.
  - apply startRound_currentRound.
  - apply startRound_votes.
  - rewrite startRound_eq. unfold advanceTurn.
    by destruct (scan_turn _ _ _).
  - apply startRound_flags.
  - apply startRound_status.
  - rewrite startRound_eq, addSystemMessage_chatHistory, last_snoc.
    by rewrite advanceTurn_currentRound, prepareRound_currentRound.
Qed.

(** ** The client's session and its name generator *)

(** X23.  What [saveSession] stores is what [getSession] reads, whatever
    the storage held before; a later save replaces an earlier one, and
    after [clearSession] the three fields read as absent. *)
Theorem session_round_trip (st : gmap string string)
  (code id name code' id' name' : string) :
  Client.getSession (Client.saveSession st code id name)
  = Client.mk (Some code) (Some id) (Some name)
  /\ Client.getSession
       (Client.saveSession (Client.saveSession st code id name)
          code' id' name')
     = Client.mk (Some code') (Some id') (Some name')
  /\ Client.getSession
       (Client.clearSession (Client.saveSession st code id name))
     = Client.mk None None None.
Proof.
  unfold Client.getSession, Client.saveSession, Client.clearSession.
  split_and!.
  - by repeat (rewrite lookup_insert_eq || rewrite lookup_insert_ne by done).
  - by repeat (rewrite lookup_insert_eq || rewrite lookup_insert_ne by done).
  - by rewrite !lookup_empty.
Qed.

Lemma pick_listed (arr : list string) (d : draw) :
  0 < length arr -> In (Client.pick arr d) arr.
Proof.
  intros Hlen. unfold Client.pick.
  destruct (lookup_lt_is_Some_2 arr (random_index d (length arr)))
    as [s Hs]; [by apply random_index_lt|].
  rewrite Hs. by eapply list_elem_of_In, list_elem_of_lookup_2.
Qed.

(** X6.  [generateRandomName] always returns one of the listed adjectives
    followed by one of the listed nouns, a name of 7 to 18 characters. *)
Theorem generateRandomName_listed (adjective noun : draw) :
  (exists a n : string,
     In a Client.adjectives /\ In n Client.nouns
     /\ Client.generateRandomName adjective noun = a +:+ n)
  /\ 7 <= String.length (Client.generateRandomName adjective noun) <= 18.
Proof.
  pose proof (pick_listed Client.adjectives adjective ltac:(simpl; lia))
    as Ha.
  pose proof (pick_listed Client.nouns noun ltac:(simpl; lia)) as Hn.
  split; [by eexists _, _|].
  unfold Client.generateRandomName. rewrite length_append.
  assert (Forall (fun s => 4 <= String.length s <= 9) Client.adjectives)
    as Hadj by (repeat constructor; simpl; lia).
  assert (Forall (fun s => 3 <= String.length s <= 9) Client.nouns)
    as Hnoun by (repeat constructor; simpl; lia).
  rewrite Forall_forall in Hadj, Hnoun.
  apply list_elem_of_In, Hadj in Ha. apply list_elem_of_In, Hnoun in Hn. lia.
Qed.

(** ** Between two rounds *)







(** ** After the vote is closed *)

Lemma conclude_gamePhase (g : Game.t) (w : option Winner.t) :
  Game.gamePhase (conclude g w)
  = match w with Some _ => Phase.ended | None => Game.gamePhase g end.
Proof. unfold conclude. by destruct w. Qed.

(** Whether it returns or throws, a resolution leaves the room in the
    results phase or, with a winner, in the ended phase. *)
Lemma processVotingResults_phase (g : Game.t) :
  Game.gamePhase (room_of (processVotingResults g)) = Phase.results
  \/ Game.gamePhase (room_of (processVotingResults g)) = Phase.ended.
Proof.
  unfold processVotingResults.
  pose proof (eliminate_gamePhase (Game.set_gamePhase Phase.results g))
    as Hel.
  destruct (eliminate _) as [[g1 elimId] w1]. cbn [fst] in Hel.
  pose proof (settle_gamePhase g1 w1) as Hs. rewrite Hel in Hs.
  destruct (settle g1 w1) as [g2 w2]. cbn [fst] in Hs.
  destruct (eliminated_player g2 elimId); cbn [room_of]; [|by left].
  rewrite conclude_gamePhase. destruct w2; [by right|by left].
Qed.

(** X25.  The vote that closes the round closes the voting: once
    [submitVote] has run a resolution, every further vote, by anybody and
    for any target, is refused with 'Not in voting phase' and changes
    nothing. *)
Theorem vote_after_resolution (g g' : Game.t) (voterId : option string)
  (target : string) (w : option Winner.t) :
  submitVote g voterId target = Returned g' (RoundResults w) ->
  forall (late : option string) (other : string),
    submitVote g' late other = Returned g' (Error WrongPhase).
Proof.
  unfold submitVote at 1.
  destruct (negb (phase_is Phase.voting g)); [done|].
  destruct (find_player voterId (Game.players g)) as [voter|]; [|done].
  destruct (negb (Player.is_active (auto_reconnect voter))); [done|].
  destruct (Player.hasVoted voter); [done|].
  match goal with |- context [if ?c then _ else _] => destruct c end;
    [|done].
  match goal with
  | |- processVotingResults ?x = _ -> _ =>
      pose proof (processVotingResults_phase x) as Hphase
  end.
  intros Hres late other. rewrite Hres in Hphase. cbn [room_of] in Hphase.
  unfold submitVote, phase_is. by destruct Hphase as [-> | ->].
Qed.

(** The fourth vote for Bob closes round 1; one more vote is refused. *)
Lemma vote_after_resolution_witness :
  submitVote (Scenario.the_room Scenario.bob_out) (Some "c") "a"
  = Returned (Scenario.the_room Scenario.bob_out) (Error WrongPhase).
Proof.
  apply (vote_after_resolution
           (Scenario.the_room
              (Scenario.described4
               ++ [ Server.submit_vote "s1" Scenario.code "b";
                    Server.submit_vote "s2" Scenario.code "b";
                    Server.submit_vote "s3" Scenario.code "b" ]))
           _ (Some "d") "b" None).
  vm_compute. reflexivity.
Defined.

(** ** The first turn of a game *)

Lemma prepareRound_currentTurnIndex (g : Game.t) (e : Entropy) :
  Game.currentTurnIndex (prepareRound g e) = (-1)%Z.
Proof. prepared g. Qed.

Lemma filter_all {A} (P : A -> bool) (l : list A) :
  Forall (fun x => P x = true) l -> List.filter P l = l.
Proof.
  induction 1 as [|x l Hx _ IH]; [done|]. simpl. by rewrite Hx, IH.
Qed.

(** X26.  A game started from a room in which nobody is eliminated opens
    with a turn: the room is playing round 1 in the description phase, at
    least three players are in it, each active with a role, the turn order
    lists as many ids as there are players, and the turn is at its first
    entry. *)
Theorem startGame_opens_first_turn (g g' : Game.t)
  (playerId : option string) (e : Entropy) :
  Forall (fun p => Player.status p <> PlayerStatus.eliminated)
    (Game.players g) ->
  startGame g playerId e = (g', RoundStarted) ->
  Game.status g' = RoomStatus.playing
  /\ Game.currentRound g' = 1
  /\ Game.gamePhase g' = Phase.description
  /\ Game.currentTurnIndex g' = 0%Z
  /\ 3 <= length (Game.players g')
  /\ Forall (fun p => Player.status p = PlayerStatus.active
                      /\ is_Some (Player.role p))
       (Game.players g')
  /\ length (Game.turnOrder g') = length (Game.players g').
Proof.
  intros Hall. unfold startGame.
  destruct (negb (bool_decide _)); [done|].
  cbn [Game.players Game.set_players].
  destruct (Nat.ltb_spec
              (length (List.filter (fun p => negb (Player.is_disconnected p))
                         (Game.players g))) 3) as [|Hlen]; [done|].
  intros [= <-].
  match goal with
  | |- context [startRound ?G e] => set (G0 := G)
  end.
  assert (Game.players G0
          = List.filter (fun p => negb (Player.is_disconnected p))
              (Game.players g)) as Hps0 by reflexivity.
  pose proof (round_one_players G0 e eq_refl) as Hdeal.
  assert (Forall (fun p => Player.status p = PlayerStatus.active
                           /\ is_Some (Player.role p))
            (Game.players (startRound G0 e))) as Hactive.
  { assert (Forall (fun p => Player.participating p = true)
              (Game.players G0)) as Hpart.
    { rewrite Hps0. apply Forall_forall. intros p Hp.
      apply list_elem_of_In, filter_In in Hp as [Hp _].
      rewrite Forall_forall in Hall. apply list_elem_of_In, Hall in Hp.
      unfold Player.participating. by destruct (Player.status p). }
    clear Hps0. revert Hpart Hdeal.
    generalize (Game.players G0), (Game.players (startRound G0 e)).
    intros ps ps' Hpart Hdeal.
    induction Hdeal as [|p p' ps ps' [_ Hp] _ IH]; [constructor|].
    apply Forall_cons in Hpart as [Hpp Hpart].
    constructor; [|by apply IH]. rewrite Hpp in Hp.
    destruct Hp as [Hst [[-> _]|[-> _]]]; by eauto. }
  assert (length (Game.players (startRound G0 e))
          = length (Game.players G0)) as Hlength
    by (symmetry; exact (Forall2_length _ _ _ Hdeal)).
  assert (Forall (fun p => Player.capable p = true)
            (Game.players (startRound G0 e))) as Hcap.
  { eapply Forall_impl; [exact Hactive|]. intros p [Hst _].
    unfold Player.capable. by rewrite Hst. }
  pose proof (startRound_players G0 e) as HP.
  rewrite HP in Hactive, Hlength, Hcap.
  assert (Game.turnOrder (prepareRound G0 e)
          ≡ₚ List.map Player.id (Game.players (prepareRound G0 e)))
    as Hperm.
  { rewrite prepareRound_turnOrder, (filter_all _ _ Hcap).
    apply Permutation_map, shuffle_Permutation. }
  assert (advanceTurn (prepareRound G0 e)
          = Game.set_currentTurnIndex 0 (prepareRound G0 e)) as Hadv.
  { unfold advanceTurn. rewrite prepareRound_currentTurnIndex.
    change (Z.to_nat (-1 + 1)) with 0. rewrite drop_0.
    destruct (Game.turnOrder (prepareRound G0 e)) as [|pid r] eqn:Hto.
    { apply Permutation_length in Hperm.
      rewrite length_map, Hlength, Hps0 in Hperm.
      cbn [length] in Hperm. lia. }
    assert (In pid (List.map Player.id (Game.players (prepareRound G0 e))))
      as Hpid.
    { apply list_elem_of_In. rewrite <- Hperm. by left. }
    apply find_player_is_Some in Hpid as [q Hq]. cbn [scan_turn].
    rewrite Hq.
    assert (Player.capable q = true) as ->; [|done].
    rewrite Forall_forall in Hcap. apply Hcap, list_elem_of_In.
    by eapply find_player_elem. }
  split_and!.
  - by rewrite startRound_status.
  - by rewrite startRound_currentRound.
  - rewrite startRound_eq, addSystemMessage_gamePhase, Hadv.
    cbn [Game.gamePhase Game.set_currentTurnIndex].
    apply prepareRound_gamePhase.
  - by rewrite startRound_eq, addSystemMessage_currentTurnIndex, Hadv.
  - by rewrite HP, Hlength, Hps0.
  - by rewrite HP.
  - rewrite HP, startRound_eq, addSystemMessage_turnOrder,
      advanceTurn_turnOrder.
    apply Permutation_length in Hperm. by rewrite length_map in Hperm.
Qed.

(** Alice starts the game of Alice, Bob and Carol: Bob is on turn. *)
Lemma startGame_opens_first_turn_witness :
  Game.turnOrder
    (startGame (Scenario.the_room Scenario.lobby3) (Some "a")
       Scenario.zero).1
  = ["b"; "c"; "a"]
  /\ Game.currentTurnIndex
       (startGame (Scenario.the_room Scenario.lobby3) (Some "a")
          Scenario.zero).1
     = 0%Z.
Proof.
  split; [vm_compute; reflexivity|].
  destruct (startGame_opens_first_turn (Scenario.the_room Scenario.lobby3)
              (startGame (Scenario.the_room Scenario.lobby3) (Some "a")
                 Scenario.zero).1
              (Some "a") Scenario.zero) as (_ & _ & _ & H & _).
  - vm_compute. repeat (constructor; [discriminate|]). constructor.
  - vm_compute. reflexivity.
  - exact H.
Defined.

(** ** The host leaves the lobby *)

(** X27.  When the lobby grace timeout removes the host, the first player
    left becomes the host: the room's creator id is that player's id, the
    player is flagged as creator, and 'start-game' from that player is no
    longer refused as coming from somebody else.  When nobody is left, the
    next new player to join becomes the host. *)
Theorem host_handover (g : Game.t) (playerId : string) (p : Player.t) :
  find_player (Some playerId) (Game.players g) = Some p ->
  Player.is_disconnected p = true ->
  Player.isCreator p = true ->
  match remove_player playerId (Game.players g) with
  | first :: rest =>
      Game.creatorId (lobbyGraceExpired g playerId) = Player.id first
      /\ Game.players (lobbyGraceExpired g playerId)
         = Player.set_isCreator true first :: rest
      /\ forall e : Entropy,
           (startGame (lobbyGraceExpired g playerId)
              (Some (Player.id first)) e).2
           <> Error NotHost
  | [] =>
      Game.players (lobbyGraceExpired g playerId) = []
      /\ forall (playerName : string) (previousPlayerId : option string)
           (fresh : string),
           Game.creatorId
             (joinGame (lobbyGraceExpired g playerId) playerName
                previousPlayerId fresh).1
           = fresh
           /\ exists newPlayer : Player.t,
                Game.players
                  (joinGame (lobbyGraceExpired g playerId) playerName
                     previousPlayerId fresh).1
                = [newPlayer]
                /\ Player.id newPlayer = fresh
                /\ Player.isCreator newPlayer = true
  end.
Proof.
  intros Hfind Hdis Hcreator. unfold lobbyGraceExpired.
  rewrite Hfind, Hdis, Hcreator.
  cbn [addSystemMessage addChatMessage Game.players Game.set_chatHistory
       Game.set_players].
  destruct (remove_player playerId (Game.players g)) as [|first rest].
  - split; [done|]. intros playerName previousPlayerId fresh.
    unfold joinGame.
    assert (forall G, Game.players G = [] ->
              reconnecting G playerName previousPlayerId = None) as Hnone.
    { intros G HG. unfold reconnecting. rewrite HG.
      destruct previousPlayerId as [prev|]; [|done].
      by destruct (truthy prev). }
    rewrite Hnone by done.
    match goal with
    | |- context [negb (joinable ?G)] =>
        replace (negb (joinable G)) with false
          by (unfold joinable; by destruct (Game.status G))
    end.
    cbn [length Nat.eqb fst Game.players Game.set_players
         Game.set_chatHistory Game.set_creatorId Game.creatorId app].
    split; [done|]. by eexists.
  - split_and!; [done..|]. intros e. unfold startGame.
    cbn [Game.creatorId Game.set_creatorId Game.set_chatHistory
         Game.set_players].
    rewrite bool_decide_eq_true_2 by done. cbn [negb].
    by match goal with |- context [if ?c then _ else _] => destruct c end.
Qed.

(** Alice creates a room, Bob joins, Alice drops and stays away. *)
Lemma host_handover_witness :
  Game.creatorId
    (lobbyGraceExpired
       (Scenario.the_room
          [ Server.create_game "s1" "Alice" Scenario.code "a";
            Server.join_game "s2" Scenario.code "Bob" None "b";
            Server.disconnect "s1" ])
       "a")
  = "b".
Proof.
  refine (proj1 (host_handover
                   (Scenario.the_room
                      [ Server.create_game "s1" "Alice" Scenario.code "a";
                        Server.join_game "s2" Scenario.code "Bob" None "b";
                        Server.disconnect "s1" ])
                   "a"
                   (Player.mk "a" "Alice" None None PlayerStatus.disconnected
                      0 false false true) _ _ _));
    vm_compute; reflexivity.
Defined.

(** ** The grace period of a civilian *)

Lemma filter_has {A} (f : A -> bool) (l : list A) (x : A) :
  In x l -> f x = true -> 1 <= length (List.filter f l).
Proof.
  intros Hin Hx.
  assert (In x (List.filter f l)) as H by (apply filter_In; by split).
  destruct (List.filter f l); [done|simpl; lia].
Qed.

(** Outside the voting phase, and with no vote recorded if a turn may be
    skipped, the in-game grace timeout runs no resolution: it goes from
    the notices straight to the check of the win conditions. *)
Lemma grace_without_resolution (g : Game.t) (playerId : string)
  (p : Player.t) :
  find_player (Some playerId) (Game.players g) = Some p ->
  Player.is_disconnected p = true ->
  Game.status g = RoomStatus.playing ->
  phase_is Phase.voting g = false ->
  (phase_is Phase.description g = true -> Game.votes g = []) ->
  exists g1 : Game.t,
    gameGraceExpired g playerId = Returned (grace_win_check g1 p) ()
    /\ Game.players g1 = Game.players g
    /\ Game.status g1 = RoomStatus.playing
    /\ Game.lastRoundResult g1 = Game.lastRoundResult g.
Proof.
  intros Hfind Hdis Hplaying Hvoting Hvotes. unfold gameGraceExpired.
  rewrite Hfind, Hdis.
  replace (Game.status (addSystemMessage g (Player.name p +:+ " disconnected")))
    with RoomStatus.playing by (symmetry; exact Hplaying).
  assert (forall t, phase_is Phase.voting (addSystemMessage g t) = false)
    as Hvoting' by (intros; exact Hvoting).
  destruct (phase_is Phase.description _ && bool_decide _) eqn:Hskip.
  - apply andb_true_iff in Hskip as [Hdesc _].
    match goal with
    | |- context [advanceTurn ?x] =>
        assert (Game.votes (advanceTurn x) = []) as Hempty
          by (rewrite advanceTurn_votes; exact (Hvotes Hdesc));
        assert (Game.lastRoundResult (advanceTurn x)
                = Game.lastRoundResult g) as Hlast
          by (unfold advanceTurn; by destruct (scan_turn _ _ _));
        pose proof (advanceTurn_players x) as Hps;
        pose proof (advanceTurn_status x) as Hst;
        generalize dependent (advanceTurn x)
    end.
    intros g1 Hempty Hlast Hps Hst. rewrite Hempty. cbn [JsObject.keys
      List.map length].
    exists g1. split; [|by rewrite Hps, Hst].
    by destruct (phase_is Phase.voting g1), (activeCount g1) as [|n].
  - rewrite Hvoting'. cbn [andb]. eexists. split; [reflexivity|].
    by split_and!.
Qed.

(** X28.  When the grace timeout of a civilian who is still disconnected
    fires in a playing room outside the voting phase (and with no vote
    recorded in the description phase), the civilians still in play are
    counted with that player among them: the room ends with the imposter
    as winner exactly when that count is at most one, and otherwise the
    game goes on, still playing, with the summary it had. *)
Theorem civilian_grace_expiry (g : Game.t) (playerId : string)
  (p : Player.t) :
  find_player (Some playerId) (Game.players g) = Some p ->
  Player.is_disconnected p = true ->
  Game.status g = RoomStatus.playing ->
  Player.role p = Some Role.civilian ->
  phase_is Phase.voting g = false ->
  (phase_is Phase.description g = true -> Game.votes g = []) ->
  exists g' : Game.t,
    gameGraceExpired g playerId = Returned g' ()
    /\ 1 <= Scenario.civilians_left g
    /\ Game.players g' = Game.players g
    /\ if (Scenario.civilians_left g <=? 1)%nat
       then Game.status g' = RoomStatus.ended
            /\ Game.gamePhase g' = Phase.ended
            /\ (RoundResult.winner <$> Game.lastRoundResult g')
               = Some (Some Winner.imposter)
       else Game.status g' = RoomStatus.playing
            /\ Game.lastRoundResult g' = Game.lastRoundResult g.
Proof.
  intros Hfind Hdis Hplaying Hrole Hvoting Hvotes.
  destruct (grace_without_resolution g playerId p Hfind Hdis Hplaying
              Hvoting Hvotes) as (g1 & -> & Hps & Hst & Hlast).
  eexists. split; [reflexivity|]. split.
  { unfold Scenario.civilians_left.
    apply (filter_has _ _ p); [by eapply find_player_elem|].
    unfold Player.has_role, Player.capable, Player.is_disconnected in *.
    rewrite Hrole. by destruct (Player.status p). }
  unfold grace_win_check, Scenario.civilians_left. rewrite Hrole, Hps.
  destruct (length _ <=? 1)%nat; by split_and!.
Qed.

(** Carol, a civilian, drops in round 1 of the three-player game and
    stays away: Bob and she are the civilians, and the game goes on. *)
Lemma civilian_grace_expiry_witness :
  Scenario.civilians_left (Scenario.the_room Scenario.dropped3) = 2
  /\ exists g' : Game.t,
       gameGraceExpired (Scenario.the_room Scenario.dropped3) "c"
       = Returned g' ()
       /\ Game.players g'
          = Game.players (Scenario.the_room Scenario.dropped3).
Proof.
  split; [vm_compute; reflexivity|].
  destruct (civilian_grace_expiry (Scenario.the_room Scenario.dropped3) "c"
              (Player.mk "c" "Carol" (Some Role.civilian) (Some "cat")
                 PlayerStatus.disconnected 0 false false false))
    as (g' & Hrun & _ & Hps & _); [vm_compute; reflexivity..| |].
  - intros _. vm_compute. reflexivity.
  - exists g'. split; [exact Hrun|exact Hps].
Defined.
